(** * sync_folders.py: one-way folder synchronisation

    A shallow embedding of [calculate_md5] and [synchronize_folders] of
    [sync_folders.py] over a model of the two directory trees the function
    works on, and the properties of one synchronisation pass.

    The source folder and the replica folder are two disjoint directory
    trees of regular files and directories (no links, no permissions).  A
    path is a base ([Source] or [Replica]) and the list of its segments below
    that base; ["."] is an ordinary segment that the file system resolves to
    the directory it is reached from, so that [os.path.join(replica, ".")] is
    modelled literally.  The parent of either base is taken to exist.

    The calls of [os], [shutil] and [hashlib] are modelled by what they do to
    these trees: they run in a monad of state and exceptions, and an
    exception leaves the state as the failing call left it.  The only failure
    of the device itself that is modelled is a write that stops after a given
    number of bytes. *)

From Stdlib Require Import List String Ascii ZArith Bool Arith Lia Permutation.
Import ListNotations.
Local Open Scope string_scope.
Local Open Scope list_scope.
Set Warnings "-register-all".

(** ** Directory trees *)

(** A regular file carries its bytes and its modification time; a directory
    carries its entries in the order in which it lists them (a new name goes
    to the end of the listing). *)
Inductive node : Type :=
| File (data : string) (mtime : Z)
| Dir (entries : list (string * node)).

Definition is_dir (n : node) : bool :=
  match n with Dir _ => true | File _ _ => false end.

Fixpoint lookup (s : string) (es : list (string * node)) : option node :=
  match es with
  | [] => None
  | (k, n) :: rest => if String.eqb s k then Some n else lookup s rest
  end.

Fixpoint replace_entry (s : string) (n : node) (es : list (string * node))
  : list (string * node) :=
  match es with
  | [] => []
  | (k, m) :: rest =>
      if String.eqb s k then (k, n) :: rest else (k, m) :: replace_entry s n rest
  end.

Definition delete_entry (s : string) (es : list (string * node))
  : list (string * node) :=
  filter (fun e => negb (String.eqb s (fst e))) es.

(** Writing an entry: [None] unlinks the name, [Some n] overwrites it in place
    or appends it to the listing when the name is new. *)
Definition set_entry (s : string) (y : option node) (es : list (string * node))
  : list (string * node) :=
  match y with
  | None => delete_entry s es
  | Some n =>
      match lookup s es with
      | Some _ => replace_entry s n es
      | None => es ++ [(s, n)]
      end
  end.

Definition names (es : list (string * node)) : list string := map fst es.

(** What [os.walk] puts in [dirs] and in [files] for one directory. *)
Definition dir_names (es : list (string * node)) : list string :=
  names (filter (fun e => is_dir (snd e)) es).

Definition nondir_names (es : list (string * node)) : list string :=
  names (filter (fun e => negb (is_dir (snd e))) es).

Fixpoint height (n : node) : nat :=
  match n with
  | File _ _ => 0
  | Dir es =>
      S ((fix go (l : list (string * node)) : nat :=
            match l with
            | [] => 0
            | e :: rest => Nat.max (height (snd e)) (go rest)
            end) es)
  end.

Definition height_opt (o : option node) : nat :=
  match o with Some n => height n | None => 0 end.

(** ** Exceptions and results *)

Inductive exn : Type :=
| FileNotFoundError
| NotADirectoryError
| IsADirectoryError
| FileExistsError
| OSError
| RecursionError.

Inductive result (A : Type) : Type :=
| Ok (a : A)
| Raise (e : exn).
Arguments Ok {A} a.
Arguments Raise {A} e.

(** ** Path resolution *)

(** [resolve p o] is what the segments [p] name, starting from [o] (what is at
    the base, [None] when nothing is there): [Ok None] is a name that is free
    in an existing directory. *)
Fixpoint resolve (p : list string) (o : option node) : result (option node) :=
  match p with
  | [] => Ok o
  | s :: q =>
      match o with
      | None => Raise FileNotFoundError
      | Some (File _ _) => Raise NotADirectoryError
      | Some (Dir es) =>
          if String.eqb s "." then resolve q o else resolve q (lookup s es)
      end
  end.

(** [put_at p y o] writes [y] at the place [p] names. *)
Fixpoint put_at (p : list string) (y : option node) (o : option node)
  : option node :=
  match p with
  | [] => y
  | s :: q =>
      match o with
      | Some (Dir es) =>
          if String.eqb s "." then put_at q y o
          else Some (Dir (set_entry s (put_at q y (lookup s es)) es))
      | _ => o
      end
  end.

(** ** The world a pass runs in *)

Inductive base : Type := Source | Replica.

Record abspath : Type := at_ { root_of : base; segs : list string }.

Definition os_path_join (p : abspath) (rel : list string) : abspath :=
  at_ (root_of p) (segs p ++ rel).

(** [os.path.relpath(root, source)] for a [root] that [os.walk(source)]
    yields: ["."] for [source] itself, the segments below it otherwise. *)
Definition os_path_relpath (root start : abspath) : list string :=
  match skipn (List.length (segs start)) (segs root) with
  | [] => ["."]
  | rel => rel
  end.

Definition os_path_basename (p : abspath) : string := last (segs p) EmptyString.

(** One line of the log. *)
Inductive message : Type :=
| Created_directory (replica_root : abspath)
| Copied (source_file replica_file : abspath)
| Removed (replica_file : abspath)
| Removed_empty_directory (dir_path : abspath).

(** [io_fault] is the number of bytes the device still accepts before a write
    raises [OSError] ([None]: every write succeeds); [now] is the clock that
    stamps written files. *)
Record world : Type := mk_world {
  fs_source : option node;
  fs_replica : option node;
  log : list message;
  now : Z;
  io_fault : option nat
}.

Definition fs_of (b : base) (w : world) : option node :=
  match b with Source => fs_source w | Replica => fs_replica w end.

Definition set_fs (b : base) (o : option node) (w : world) : world :=
  match b with
  | Source => mk_world o (fs_replica w) (log w) (now w) (io_fault w)
  | Replica => mk_world (fs_source w) o (log w) (now w) (io_fault w)
  end.

(** ** State and exception monad *)

(** A raised exception keeps the world as the failing call left it. *)
Definition M (A : Type) : Type := world -> result A * world.

Definition ret {A} (a : A) : M A := fun w => (Ok a, w).

Definition raise {A} (e : exn) : M A := fun w => (Raise e, w).

Definition bind {A B} (m : M A) (k : A -> M B) : M B :=
  fun w =>
    match m w with
    | (Ok a, w') => k a w'
    | (Raise e, w') => (Raise e, w')
    end.

Declare Scope py_scope.
Delimit Scope py_scope with py.
Notation "x <- m ;; k" := (bind m (fun x => k))
  (at level 61, m at next level, right associativity) : py_scope.
Notation "m ;; k" := (bind m (fun _ => k))
  (at level 61, right associativity) : py_scope.
Local Open Scope py_scope.

(** [for x in xs: body x] *)
Fixpoint for_each {A} (xs : list A) (body : A -> M unit) : M unit :=
  match xs with
  | [] => ret tt
  | x :: rest => body x ;; for_each rest body
  end.

Definition when (b : bool) (m : M unit) : M unit := if b then m else ret tt.

(** ** Operating-system calls *)

Definition stat (p : abspath) (w : world) : result (option node) :=
  resolve (segs p) (fs_of (root_of p) w).

Definition write_entry (p : abspath) (y : option node) (w : world) : world :=
  set_fs (root_of p) (put_at (segs p) y (fs_of (root_of p) w)) w.

Definition os_path_exists (p : abspath) : M bool :=
  fun w => match stat p w with
           | Ok (Some _) => (Ok true, w)
           | _ => (Ok false, w)
           end.

Definition os_path_isdir (p : abspath) : M bool :=
  fun w => match stat p w with
           | Ok (Some (Dir _)) => (Ok true, w)
           | _ => (Ok false, w)
           end.

Definition os_mkdir (p : abspath) : M unit :=
  fun w => match stat p w with
           | Raise e => (Raise e, w)
           | Ok (Some _) => (Raise FileExistsError, w)
           | Ok None => (Ok tt, write_entry p (Some (Dir [])) w)
           end.

(** [os.makedirs(name)]: the recursion of the library function on
    [head, tail = os.path.split(name)], with the segments reversed so that
    [tl :: rhead] is [head/tl]. *)
Fixpoint makedirs_rev (b : base) (rname : list string) : M unit :=
  match rname with
  | [] => os_mkdir (at_ b [])
  | tl :: rhead =>
      let name := at_ b (rev rname) in
      head_exists <- os_path_exists (at_ b (rev rhead)) ;;
      if negb head_exists then
        fun w =>
          match makedirs_rev b rhead w with
          | (Raise FileExistsError, w') | (Ok _, w') =>
              if String.eqb tl "." then (Ok tt, w') else os_mkdir name w'
          | (Raise e, w') => (Raise e, w')
          end
      else os_mkdir name
  end.

Definition os_makedirs (p : abspath) : M unit :=
  makedirs_rev (root_of p) (rev (segs p)).

Definition os_listdir (p : abspath) : M (list string) :=
  fun w => match stat p w with
           | Raise e => (Raise e, w)
           | Ok None => (Raise FileNotFoundError, w)
           | Ok (Some (File _ _)) => (Raise NotADirectoryError, w)
           | Ok (Some (Dir es)) => (Ok (names es), w)
           end.

(** [os.remove] refuses a directory; the exception is the one Linux gives. *)
Definition os_remove (p : abspath) : M unit :=
  fun w => match stat p w with
           | Raise e => (Raise e, w)
           | Ok None => (Raise FileNotFoundError, w)
           | Ok (Some (Dir _)) => (Raise IsADirectoryError, w)
           | Ok (Some (File _ _)) => (Ok tt, write_entry p None w)
           end.

Definition os_rmdir (p : abspath) : M unit :=
  fun w => match stat p w with
           | Raise e => (Raise e, w)
           | Ok None => (Raise FileNotFoundError, w)
           | Ok (Some (File _ _)) => (Raise NotADirectoryError, w)
           | Ok (Some (Dir (_ :: _))) => (Raise OSError, w)
           | Ok (Some (Dir [])) => (Ok tt, write_entry p None w)
           end.

(** [open(p, "rb")] followed by reading: the bytes of a regular file. *)
Definition open_rb (p : abspath) : M string :=
  fun w => match stat p w with
           | Raise e => (Raise e, w)
           | Ok None => (Raise FileNotFoundError, w)
           | Ok (Some (Dir _)) => (Raise IsADirectoryError, w)
           | Ok (Some (File data _)) => (Ok data, w)
           end.

(** [open(p, "wb")]: the file is created, or truncated where it stands. *)
Definition open_wb (p : abspath) : M unit :=
  fun w => match stat p w with
           | Raise e => (Raise e, w)
           | Ok (Some (Dir _)) => (Raise IsADirectoryError, w)
           | Ok _ => (Ok tt, write_entry p (Some (File EmptyString (now w))) w)
           end.

(** Writing [data] to the file opened at [p]; under [io_fault = Some k] the
    first [k] bytes reach the file and the write raises. *)
Definition file_write (p : abspath) (data : string) : M unit :=
  fun w => match io_fault w with
           | None => (Ok tt, write_entry p (Some (File data (now w))) w)
           | Some k =>
               if Nat.leb (String.length data) k
               then (Ok tt, write_entry p (Some (File data (now w))) w)
               else (Raise OSError,
                     write_entry p (Some (File (substring 0 k data) (now w))) w)
           end.

(** [shutil.copystat]: the modification time of [src] goes to [dst]
    (directories carry no time here). *)
Definition shutil_copystat (src dst : abspath) : M unit :=
  fun w => match stat src w, stat dst w with
           | Ok (Some (File _ m)), Ok (Some (File data _)) =>
               (Ok tt, write_entry dst (Some (File data m)) w)
           | Ok (Some (Dir _)), Ok (Some _) | Ok (Some _), Ok (Some (Dir _)) =>
               (Ok tt, w)
           | Raise e, _ => (Raise e, w)
           | _, Raise e => (Raise e, w)
           | _, _ => (Raise FileNotFoundError, w)
           end.

(** [shutil.copyfile]: source opened for reading, destination opened for
    writing (truncated), then filled. *)
Definition shutil_copyfile (src dst : abspath) : M unit :=
  data <- open_rb src ;;
  open_wb dst ;;
  file_write dst data.

Definition shutil_copy2 (src dst : abspath) : M unit :=
  d <- os_path_isdir dst ;;
  let dst := if d then os_path_join dst [os_path_basename src] else dst in
  shutil_copyfile src dst ;;
  shutil_copystat src dst.

Definition logger_info (m : message) : M unit :=
  fun w => (Ok tt,
            mk_world (fs_source w) (fs_replica w) (log w ++ [m]) (now w)
              (io_fault w)).

(** [os.walk(top, topdown)] driven by the loop body: a directory that cannot
    be scanned yields nothing, the listing of a directory is taken when the
    walk reaches it.  [fuel] bounds the nesting of directories. *)
Definition scandir (top : abspath) (w : world)
  : option (list string * list string) :=
  match stat top w with
  | Ok (Some (Dir es)) => Some (dir_names es, nondir_names es)
  | _ => None
  end.

Fixpoint os_walk (fuel : nat) (top : abspath) (topdown : bool)
  (body : abspath -> list string -> list string -> M unit) : M unit :=
  match fuel with
  | O => raise RecursionError
  | S k =>
      fun w =>
        match scandir top w with
        | None => (Ok tt, w)
        | Some (dirs, nondirs) =>
            if topdown then
              (body top dirs nondirs ;;
               for_each dirs
                 (fun d => os_walk k (os_path_join top [d]) topdown body)) w
            else
              (for_each dirs
                 (fun d => os_walk k (os_path_join top [d]) topdown body) ;;
               body top dirs nondirs) w
        end
  end.

(** Fuel that covers the tree below [top] as it stands. *)
Definition walk_fuel (top : abspath) : M nat :=
  fun w => match stat top w with
           | Ok o => (Ok (S (height_opt o)), w)
           | Raise _ => (Ok 1, w)
           end.

Definition contains (x : string) (l : list string) : bool :=
  existsb (String.eqb x) l.

(** ** The program *)

Section Program.

(** [hashlib.md5]: an incremental hash with its hexadecimal digest. *)
Variable md5_state : Type.
Variable hashlib_md5 : md5_state.
Variable md5_update : md5_state -> string -> md5_state.
Variable md5_hexdigest : md5_state -> string.

(** [for chunk in iter(lambda: f.read(4096), b''): hash_md5.update(chunk)]
    on the bytes that remain to be read. *)
Fixpoint read_chunks (fuel : nat) (rest : string) (hash_md5 : md5_state)
  : md5_state :=
  match fuel with
  | O => hash_md5
  | S k =>
      let chunk := substring 0 4096 rest in
      if String.eqb chunk EmptyString then hash_md5
      else read_chunks k (substring 4096 (String.length rest - 4096) rest)
             (md5_update hash_md5 chunk)
  end.

Definition md5_of (data : string) : string :=
  md5_hexdigest (read_chunks (S (String.length data)) data hashlib_md5).

Definition calculate_md5 (file_path : abspath) : M string :=
  data <- open_rb file_path ;;
  ret (md5_of data).

Definition source : abspath := at_ Source [].
Definition replica : abspath := at_ Replica [].

(** The body of the inner loop over [files]. *)
Definition copy_file (root replica_root : abspath) (file_name : string)
  : M unit :=
  let source_file := os_path_join root [file_name] in
  let replica_file := os_path_join replica_root [file_name] in
  present <- os_path_exists replica_file ;;
  differs <- (if negb present then ret true
              else (a <- calculate_md5 source_file ;;
                    b <- calculate_md5 replica_file ;;
                    ret (negb (String.eqb a b)))) ;;
  when differs
    (shutil_copy2 source_file replica_file ;;
     logger_info (Copied source_file replica_file)).

(** The body of the loop over [os.listdir(replica_root)]. *)
Definition prune_entry (replica_root : abspath) (files : list string)
  (file_name : string) : M unit :=
  when (negb (contains file_name files))
    (let replica_file := os_path_join replica_root [file_name] in
     os_remove replica_file ;;
     logger_info (Removed replica_file)).

(** The body of the first loop, for one [(root, dirs, files)]. *)
Definition mirror_directory (root : abspath) (dirs files : list string)
  : M unit :=
  let rel_path := os_path_relpath root source in
  let replica_root := os_path_join replica rel_path in
  present <- os_path_exists replica_root ;;
  when (negb present)
    (os_makedirs replica_root ;;
     logger_info (Created_directory replica_root)) ;;
  for_each files (copy_file root replica_root) ;;
  listing <- os_listdir replica_root ;;
  for_each listing (prune_entry replica_root files).

(** The body of the second loop, for one [(root, dirs, files)]. *)
Definition remove_empty (root : abspath) (dir_name : string) : M unit :=
  let dir_path := os_path_join root [dir_name] in
  listing <- os_listdir dir_path ;;
  when (match listing with [] => true | _ => false end)
    (os_rmdir dir_path ;;
     logger_info (Removed_empty_directory dir_path)).

Definition cleanup_directory (root : abspath) (dirs files : list string)
  : M unit :=
  for_each dirs (remove_empty root).

Definition downward_pass : M unit :=
  fuel <- walk_fuel source ;;
  os_walk fuel source true mirror_directory.

Definition upward_pass : M unit :=
  fuel <- walk_fuel replica ;;
  os_walk fuel replica false cleanup_directory.

Definition synchronize_folders : M unit :=
  downward_pass ;;
  upward_pass.

(** *** The loops of one directory, on its entries

    The state of a loop that works on one replica directory: the entries of
    that directory and the log. *)
Definition dir_state : Type := (list (string * node) * list message)%type.

Definition copied_msg (sr rr : list string) (a : string) : message :=
  Copied (at_ Source (sr ++ [a])) (at_ Replica (rr ++ [a])).

Definition copy_step (sr rr : list string) (es_s : list (string * node))
  (a : string) (st : dir_state) : result unit * dir_state :=
  let copied :=
    (set_entry a (lookup a es_s) (fst st), snd st ++ [copied_msg sr rr a]) in
  match lookup a (fst st) with
  | None => (Ok tt, copied)
  | Some (File d' _) =>
      match lookup a es_s with
      | Some (File d _) =>
          if String.eqb (md5_of d) (md5_of d') then (Ok tt, st)
          else (Ok tt, copied)
      | _ => (Ok tt, st)
      end
  | Some (Dir _) => (Raise IsADirectoryError, st)
  end.

Definition prune_step (rr : list string) (files : list string) (a : string)
  (st : dir_state) : result unit * dir_state :=
  if contains a files then (Ok tt, st)
  else
    match lookup a (fst st) with
    | Some (File _ _) =>
        (Ok tt,
         (delete_entry a (fst st), snd st ++ [Removed (at_ Replica (rr ++ [a]))]))
    | Some (Dir _) => (Raise IsADirectoryError, st)
    | None => (Raise FileNotFoundError, st)
    end.

Fixpoint run_steps {A : Type} (step : A -> dir_state -> result unit * dir_state)
  (xs : list A) (st : dir_state) : result unit * dir_state :=
  match xs with
  | [] => (Ok tt, st)
  | x :: rest =>
      match step x st with
      | (Ok _, st') => run_steps step rest st'
      | (Raise e, st') => (Raise e, st')
      end
  end.

(** Both loops of [mirror_directory] on a replica directory that exists. *)
Definition dir_pass (sr rr : list string) (es_s : list (string * node))
  (st : dir_state) : result unit * dir_state :=
  match run_steps (copy_step sr rr es_s) (nondir_names es_s) st with
  | (Ok _, st1) =>
      run_steps (prune_step rr (nondir_names es_s)) (names (fst st1)) st1
  | (Raise e, st1) => (Raise e, st1)
  end.

End Program.

(** ** Vocabulary of the specification *)

(** Names of one directory: none is ["."], none occurs twice. *)
Fixpoint fresh_names (l : list string) : bool :=
  match l with
  | [] => true
  | x :: rest =>
      negb (String.eqb x ".") && negb (contains x rest) && fresh_names rest
  end.

(** A well-formed tree: every directory has well-formed names. *)
Fixpoint wf (n : node) : bool :=
  match n with
  | File _ _ => true
  | Dir es =>
      fresh_names (names es)
      && (fix all (l : list (string * node)) : bool :=
            match l with
            | [] => true
            | e :: rest => wf (snd e) && all rest
            end) es
  end.

Definition wf_opt (o : option node) : bool :=
  match o with Some n => wf n | None => true end.

Definition file_entries (es : list (string * node)) : list (string * node) :=
  filter (fun e => negb (is_dir (snd e))) es.

(** The tree the downward pass builds for a source directory it meets for the
    first time: the files in source order, then the sub-directories. *)
Fixpoint mirror (n : node) : node :=
  match n with
  | File d m => File d m
  | Dir es =>
      Dir (file_entries es
           ++ (fix go (l : list (string * node)) : list (string * node) :=
                 match l with
                 | [] => []
                 | e :: rest =>
                     if is_dir (snd e) then (fst e, mirror (snd e)) :: go rest
                     else go rest
                 end) es)
  end.

Definition mirror_dirs (es : list (string * node)) : list (string * node) :=
  flat_map (fun e => if is_dir (snd e) then [(fst e, mirror (snd e))] else [])
    es.

(** The tree the upward pass leaves: every directory that ends up empty is
    gone, except the one the pass started from. *)
Fixpoint prune (n : node) : node :=
  match n with
  | File d m => File d m
  | Dir es =>
      Dir ((fix go (l : list (string * node)) : list (string * node) :=
              match l with
              | [] => []
              | e :: rest =>
                  match prune (snd e) with
                  | Dir [] => go rest
                  | c => (fst e, c) :: go rest
                  end
              end) es)
  end.

Definition keeps (e : string * node) : bool :=
  match snd e with Dir [] => false | _ => true end.

Definition prune_entries (es : list (string * node)) : list (string * node) :=
  filter keeps (map (fun e => (fst e, prune (snd e))) es).

(** A directory with no regular file at any depth. *)
Fixpoint fileless (n : node) : bool :=
  match n with
  | File _ _ => false
  | Dir es =>
      (fix all (l : list (string * node)) : bool :=
         match l with
         | [] => true
         | e :: rest => fileless (snd e) && all rest
         end) es
  end.

(** The log of the downward pass on a source directory it meets for the first
    time, and of the upward pass on a directory. *)
Fixpoint mirror_log (r : list string) (n : node) : list message :=
  match n with
  | File _ _ => []
  | Dir es =>
      Created_directory (at_ Replica r)
      :: map (fun a => Copied (at_ Source (r ++ [a])) (at_ Replica (r ++ [a])))
           (nondir_names es)
      ++ (fix go (l : list (string * node)) : list message :=
            match l with
            | [] => []
            | e :: rest => mirror_log (r ++ [fst e]) (snd e) ++ go rest
            end) es
  end.

Definition removal (r : list string) (e : string * node) : list message :=
  match prune (snd e) with
  | Dir [] => [Removed_empty_directory (at_ Replica (r ++ [fst e]))]
  | _ => []
  end.

Fixpoint sweep_log (r : list string) (n : node) : list message :=
  match n with
  | File _ _ => []
  | Dir es =>
      (fix go (l : list (string * node)) : list message :=
         match l with
         | [] => []
         | e :: rest => sweep_log (r ++ [fst e]) (snd e) ++ go rest
         end) es
      ++ flat_map (removal r) es
  end.

(** A directory of the tree [o] seen as a window: [inst o rr e] is [o] with the
    directory at [rr] holding the entries [e]. *)
Definition inst (o : option node) (rr : list string) (e : list (string * node))
  : option node :=
  put_at rr (Some (Dir e)) o.

(** The entry at a relative path, by the names of the directory entries. *)
Fixpoint entry (p : list string) (n : node) : option node :=
  match p with
  | [] => Some n
  | s :: q =>
      match n with
      | Dir es =>
          match lookup s es with Some c => entry q c | None => None end
      | File _ _ => None
      end
  end.

Definition entry_opt (p : list string) (o : option node) : option node :=
  match o with Some n => entry p n | None => None end.

Definition is_empty_dir (n : node) : bool :=
  match n with Dir [] => true | _ => false end.

(** Messages about directories, as opposed to those about files. *)
Definition is_dir_event (m : message) : bool :=
  match m with
  | Created_directory _ | Removed_empty_directory _ => true
  | Copied _ _ | Removed _ => false
  end.

Definition is_removed_empty (m : message) : bool :=
  match m with Removed_empty_directory _ => true | _ => false end.

(** What the replica holds at a path, given what the source holds there and
    the fingerprint function: a file with the same fingerprint, a directory
    where the source has a directory with some file below it, nothing
    otherwise. *)
Definition mirrored_at (fingerprint : string -> string)
  (src rep : option node) : Prop :=
  match src with
  | Some (File d _) =>
      exists d' m', rep = Some (File d' m') /\ fingerprint d' = fingerprint d
  | Some (Dir e) =>
      if fileless (Dir e) then rep = None else exists e', rep = Some (Dir e')
  | None => rep = None
  end.

(** The entries [e1] of the replica root after a directory pass that
    returned: the files of the source root [es_s], by fingerprint, and nothing
    else. *)
Definition settled (fingerprint : string -> string)
  (es_s e1 : list (string * node)) : Prop :=
  fresh_names (names e1) = true
  /\ (forall a d m, lookup a es_s = Some (File d m) ->
        exists d' m',
          lookup a e1 = Some (File d' m') /\ fingerprint d' = fingerprint d)
  /\ (forall x, ~ In x (nondir_names es_s) -> lookup x e1 = None).

(** The state of a loop on the replica directory [rr] of [R0], put back into
    the world. *)
Definition in_world (S R0 : option node) (rr : list string) (t : Z)
  (x : result unit * dir_state) : result unit * world :=
  (fst x, mk_world S (inst R0 rr (fst (snd x))) (snd (snd x)) t None).

(** ** Concrete runs

    For the runs on concrete trees the digest is the byte string itself: equal
    digests are equal contents. *)
Definition run_pass (src rep : option node) : result unit * world :=
  synchronize_folders string EmptyString String.append (fun s => s)
    (mk_world src rep [] 0%Z None).

Definition digest (data : string) : string :=
  md5_of string EmptyString String.append (fun s => s) data.

Definition run_on (w : world) : result unit * world :=
  synchronize_folders string EmptyString String.append (fun s => s) w.

(** The trees of the runs. *)
Definition src_with_empty_dir : node := Dir [("a", Dir [])].

Definition src_mixed : node :=
  Dir [("a.txt", File "hello" 1%Z);
       ("dir", Dir [("x.txt", File "1" 2%Z); ("sub", Dir [])]);
       ("void", Dir [("deep", Dir [])])].

Definition rep_stale : node :=
  Dir [("a.txt", File "hello" 7%Z); ("b.txt", File "stale" 3%Z)].

Definition src_scenario : node := Dir [("dir", Dir [("x.txt", File "1" 1%Z)])].

Definition rep_scenario : node :=
  Dir [("dir", Dir [("x.txt", File "1" 1%Z); ("y.txt", File "2" 1%Z)]);
       ("other", Dir [("z.txt", File "3" 1%Z)])].

Definition rep_mirrored : node := Dir [("dir", Dir [("x.txt", File "1" 1%Z)])].

Definition src_two_files : node :=
  Dir [("a.txt", File "1" 1%Z); ("b.txt", File "2" 1%Z)].

Definition rep_clash : node := Dir [("a.txt", Dir [])].

Definition rep_nested_empty : node :=
  Dir [("e", Dir [("g", Dir [])]); ("k", Dir [("x", File "1" 1%Z)])].

Definition src_new_content : node := Dir [("a.txt", File "new content" 1%Z)].

Definition rep_old_content : node := Dir [("a.txt", File "old" 5%Z)].

(** ** Vocabulary of the further properties *)

(** What a call leaves alone: the source tree, the clock and the device; the
    log only grows. *)
Definition same_frame (w w' : world) : Prop :=
  fs_source w' = fs_source w
  /\ now w' = now w
  /\ io_fault w' = io_fault w
  /\ exists new, log w' = log w ++ new.

Definition framed {A : Type} (m : M A) : Prop :=
  forall w, same_frame w (snd (m w)).

(** Whether the copy loop copies the source file [a] of the directory [es_s]
    to the replica directory [e]: the name is free there, or names a file
    with another fingerprint. *)
Definition needs_copy (fingerprint : string -> string)
  (es_s e : list (string * node)) (a : string) : bool :=
  match lookup a e with
  | None => true
  | Some (File d' _) =>
      match lookup a es_s with
      | Some (File d _) => negb (String.eqb (fingerprint d) (fingerprint d'))
      | _ => false
      end
  | Some (Dir _) => false
  end.

(** A name of the replica directory that is not the name of a source file. *)
Definition stale (files : list string) (a : string) : bool :=
  negb (contains a files).

Definition removed_file_msg (rr : list string) (a : string) : message :=
  Removed (at_ Replica (rr ++ [a])).

(** A replica root without sub-directory ([None]: no replica yet). *)
Definition no_subdirectory (R : option node) : bool :=
  match R with
  | None => true
  | Some (File _ _) => false
  | Some (Dir e) => forallb (fun c => negb (is_dir (snd c))) e
  end.

(** What a call that returns leaves under the name [a] of the replica root
    [e], for the source root [es_s]. *)
Definition root_after (fingerprint : string -> string)
  (es_s e : list (string * node)) (a : string) : option node :=
  match lookup a es_s with
  | Some (File d m) =>
      if needs_copy fingerprint es_s e a then Some (File d m) else lookup a e
  | Some (Dir c) =>
      if fileless (Dir c) then None else Some (prune (mirror (Dir c)))
  | None => None
  end.

(** The lines a call that returns adds to the log: the copies to the root in
    the order of the source files, the removals from the root in the order of
    the replica listing, the lines of the new sub-directories, the removals of
    empty directories. *)
Definition pass_report (fingerprint : string -> string)
  (es_s e : list (string * node)) : list message :=
  map (copied_msg [] ["."])
    (filter (needs_copy fingerprint es_s e) (nondir_names es_s))
  ++ map (removed_file_msg ["."]) (filter (stale (nondir_names es_s)) (names e))
  ++ flat_map (fun c => mirror_log [fst c] (snd c))
       (filter (fun c => is_dir (snd c)) es_s)
  ++ sweep_log [] (Dir (mirror_dirs es_s)).

(** ** The main loop

    [main] from the [while True] on: [args.source] and [args.replica] are the
    two trees of the world, [args.interval] is the interval.  The logger
    writes the lines of [main] and, between them, the lines of the pass, which
    is given the same logger. *)
Inductive record : Type :=
| Starting_synchronization
| Pass_line (m : message)
| Synchronization_completed
| Error_during_synchronization (e : exn).


Definition is_close (r : record) : bool :=
  match r with
  | Synchronization_completed | Error_during_synchronization _ => true
  | _ => false
  end.

(** The world and the lines logged so far. *)
Definition main_state : Type := (world * list record)%type.

Definition set_log (l : list message) (w : world) : world :=
  mk_world (fs_source w) (fs_replica w) l (now w) (io_fault w).

(** [time.sleep(secs)].  A negative length raises ValueError; a length the
    platform cannot take raises OverflowError or OSError.  [sleep_max] is the
    longest sleep the platform takes (on CPython the length in nanoseconds
    has to fit 63 bits, so it is below 9223372037 seconds).  [None] is any of
    these exceptions; otherwise the call returns and the clock has moved on
    by the length, the least it can. *)
Definition time_sleep (sleep_max secs : Z) (w : world) : option world :=
  if ((0 <=? secs) && (secs <=? sleep_max))%Z
  then Some (mk_world (fs_source w) (fs_replica w) (log w) (now w + secs)%Z
               (io_fault w))
  else None.

(** The loop goes on, or the exception of [time.sleep], which is raised
    outside the [try] statement and which no handler catches, ends the
    program. *)
Inductive main_outcome : Type :=
| Running (st : main_state)
| Stopped_by_sleep_error (st : main_state).

Section MainLoop.

Variable md5_state : Type.
Variable hashlib_md5 : md5_state.
Variable md5_update : md5_state -> string -> md5_state.
Variable md5_hexdigest : md5_state -> string.
Variable sleep_max : Z.

(** The [try] block with its handler.  Every exception of the pass is an
    [Exception]: the handler logs it and the block ends normally.  The pass
    starts from an empty pass log, its lines go to the log in order. *)
Definition main_try (st : main_state) : main_state :=
  let (r, w') :=
    synchronize_folders md5_state hashlib_md5 md5_update md5_hexdigest
      (set_log [] (fst st)) in
  (w',
   snd st ++ Starting_synchronization :: map Pass_line (log w')
     ++ [match r with
         | Ok _ => Synchronization_completed
         | Raise e => Error_during_synchronization e
         end]).

(** The body of the loop: the [try] statement, then the sleep. *)
Definition main_iteration (interval : Z) (st : main_state) : main_outcome :=
  let st' := main_try st in
  match time_sleep sleep_max interval (fst st') with
  | Some w => Running (w, snd st')
  | None => Stopped_by_sleep_error st'
  end.

(** [n] turns of the loop. *)
Fixpoint main_rounds (n : nat) (interval : Z) (st : main_state)
  : main_outcome :=
  match n with
  | O => Running st
  | S k =>
      match main_iteration interval st with
      | Running st' => main_rounds k interval st'
      | Stopped_by_sleep_error st' => Stopped_by_sleep_error st'
      end
  end.

End MainLoop.

(** Whether a sub-directory of the root [es] holds a regular file at some
    depth. *)
Definition subdirectory_with_a_file (es : list (string * node)) : bool :=
  existsb (fun c => is_dir (snd c) && negb (fileless (snd c))) es.

(** The lines of a pass over a replica that a pass has just left, when no
    sub-directory of the source root holds a file: the sub-directories are
    created again, then removed again. *)
Definition quiet_report (es_s : list (string * node)) : list message :=
  flat_map (fun c => mirror_log [fst c] (snd c))
    (filter (fun c => is_dir (snd c)) es_s)
  ++ sweep_log [] (Dir (mirror_dirs es_s)).

(** The lines of every turn of the loop after the first one that completed,
    as long as the source stays as it is. *)
Definition steady_lines (es_s : list (string * node)) : list record :=
  Starting_synchronization
  :: (if subdirectory_with_a_file es_s
      then [Error_during_synchronization IsADirectoryError]
      else map Pass_line (quiet_report es_s) ++ [Synchronization_completed]).

(** The same lines without the order in which the directories are listed: the
    lines of the pass are those of [quiet_report] in some order. *)
Definition steady_block (es_s : list (string * node)) (b : list record)
  : Prop :=
  if subdirectory_with_a_file es_s
  then b = [Starting_synchronization;
            Error_during_synchronization IsADirectoryError]
  else exists lines,
         Permutation lines (quiet_report es_s)
         /\ b = Starting_synchronization :: map Pass_line lines
                ++ [Synchronization_completed].


(** The loop on concrete trees, with the digest of the concrete runs and a
    platform that takes a sleep of a day. *)
Definition entries_of (n : node) : list (string * node) :=
  match n with Dir es => es | File _ _ => [] end.

Definition a_day : Z := 86400%Z.

Definition run_main (n : nat) (interval : Z) (st : main_state)
  : main_outcome :=
  main_rounds string EmptyString String.append (fun s => s) a_day n interval
    st.

(** ** Entries of one directory *)

Lemma lookup_app (s : string) (es1 es2 : list (string * node)) :
  lookup s (es1 ++ es2)
  = match lookup s es1 with Some n => Some n | None => lookup s es2 end.
Proof.
  induction es1 as [|[k n] es1 IH]; simpl; [reflexivity|].
  destruct (String.eqb s k); [reflexivity | exact IH].
Qed.

Lemma lookup_replace_same s n es c :
  lookup s es = Some c -> lookup s (replace_entry s n es) = Some n.
Proof.
  induction es as [|[k m] es IH]; simpl; [discriminate|].
  destruct (String.eqb s k) eqn:E; simpl; rewrite E; auto.
Qed.

Lemma lookup_replace_other s t n es :
  s <> t -> lookup t (replace_entry s n es) = lookup t es.
Proof.
  intros Hne. induction es as [|[k m] es IH]; simpl; [reflexivity|].
  destruct (String.eqb s k) eqn:E; simpl.
  - apply String.eqb_eq in E. subst k.
    destruct (String.eqb t s) eqn:E2; [|reflexivity].
    apply String.eqb_eq in E2. congruence.
  - rewrite IH. reflexivity.
Qed.

Lemma lookup_delete_same s es : lookup s (delete_entry s es) = None.
Proof.
  induction es as [|[k m] es IH]; simpl; [reflexivity|].
  destruct (String.eqb s k) eqn:E; simpl; [exact IH|].
  rewrite E. exact IH.
Qed.

Lemma lookup_delete_other s t es :
  s <> t -> lookup t (delete_entry s es) = lookup t es.
Proof.
  intros Hne. induction es as [|[k m] es IH]; simpl; [reflexivity|].
  destruct (String.eqb s k) eqn:E; simpl.
  - apply String.eqb_eq in E. subst k.
    destruct (String.eqb t s) eqn:E2; [|exact IH].
    apply String.eqb_eq in E2. congruence.
  - rewrite IH. reflexivity.
Qed.

Lemma lookup_set_same s y es : lookup s (set_entry s y es) = y.
Proof.
  destruct y as [n|]; simpl.
  - destruct (lookup s es) eqn:E.
    + eapply lookup_replace_same; eauto.
    + rewrite lookup_app, E. simpl. rewrite String.eqb_refl. reflexivity.
  - apply lookup_delete_same.
Qed.

Lemma lookup_set_other s t y es :
  s <> t -> lookup t (set_entry s y es) = lookup t es.
Proof.
  intros Hne. destruct y as [n|]; simpl.
  - destruct (lookup s es) eqn:E.
    + apply lookup_replace_other; assumption.
    + rewrite lookup_app. destruct (lookup t es); [reflexivity|].
      simpl. destruct (String.eqb t s) eqn:E2; [|reflexivity].
      apply String.eqb_eq in E2. congruence.
  - apply lookup_delete_other; assumption.
Qed.

Lemma replace_replace s n1 n2 es :
  replace_entry s n2 (replace_entry s n1 es) = replace_entry s n2 es.
Proof.
  induction es as [|[k m] es IH]; simpl; [reflexivity|].
  destruct (String.eqb s k) eqn:E; simpl; rewrite E; [reflexivity|].
  rewrite IH. reflexivity.
Qed.

Lemma replace_app_fresh s n1 n2 es :
  lookup s es = None ->
  replace_entry s n2 (es ++ [(s, n1)]) = es ++ [(s, n2)].
Proof.
  induction es as [|[k m] es IH]; simpl.
  - rewrite String.eqb_refl. reflexivity.
  - destruct (String.eqb s k) eqn:E; [discriminate|].
    intros H. rewrite IH by assumption. reflexivity.
Qed.

Lemma set_set_some s n1 n2 es :
  set_entry s (Some n2) (set_entry s (Some n1) es) = set_entry s (Some n2) es.
Proof.
  unfold set_entry at 1. rewrite (lookup_set_same s (Some n1) es).
  simpl. destruct (lookup s es) eqn:E.
  - apply replace_replace.
  - apply replace_app_fresh. assumption.
Qed.

(** ** Resolution and writing *)

Lemma resolve_app r q o :
  resolve (r ++ q) o
  = match resolve r o with Ok o' => resolve q o' | Raise e => Raise e end.
Proof.
  revert o. induction r as [|s r IH]; intros o; simpl; [reflexivity|].
  destruct o as [[d m|es]|]; try reflexivity.
  destruct (String.eqb s "."); apply IH.
Qed.

Lemma put_at_app r q y o o' :
  resolve r o = Ok o' ->
  put_at (r ++ q) y o = put_at r (put_at q y o') o.
Proof.
  revert o. induction r as [|s r IH]; intros o; simpl.
  - intros H. injection H as <-. reflexivity.
  - destruct o as [[d m|es]|]; try discriminate.
    destruct (String.eqb s "."); intros H.
    + apply IH. assumption.
    + rewrite (IH _ H). reflexivity.
Qed.

Lemma put_dir_is_dir r e e0 o :
  resolve r o = Ok (Some (Dir e0)) ->
  exists e1, put_at r (Some (Dir e)) o = Some (Dir e1).
Proof.
  revert o. induction r as [|s r IH]; intros o; simpl.
  - eauto.
  - destruct o as [[d m|es]|]; try discriminate.
    destruct (String.eqb s "."); intros H; eauto.
Qed.

Lemma resolve_put_dir r e e0 o :
  resolve r o = Ok (Some (Dir e0)) ->
  resolve r (put_at r (Some (Dir e)) o) = Ok (Some (Dir e)).
Proof.
  revert o. induction r as [|s r IH]; intros o; simpl; [reflexivity|].
  destruct o as [[d m|es]|]; try discriminate.
  destruct (String.eqb s ".") eqn:E; intros H.
  - destruct (put_dir_is_dir r e e0 _ H) as [e1 He1].
    specialize (IH _ H). rewrite He1 in *. simpl. try rewrite E. exact IH.
  - rewrite lookup_set_same. apply IH. assumption.
Qed.

Lemma put_put_dir r e1 e2 e0 o :
  resolve r o = Ok (Some (Dir e0)) ->
  put_at r (Some (Dir e2)) (put_at r (Some (Dir e1)) o)
  = put_at r (Some (Dir e2)) o.
Proof.
  revert o. induction r as [|s r IH]; intros o; simpl; [reflexivity|].
  destruct o as [[d m|es]|]; try discriminate.
  destruct (String.eqb s ".") eqn:E; intros H.
  - destruct (put_dir_is_dir r e1 e0 _ H) as [e3 He3].
    specialize (IH _ H). rewrite He3 in *. simpl. try rewrite E. exact IH.
  - rewrite lookup_set_same, (IH _ H).
    assert (Hs : exists c, lookup s es = Some c).
    { destruct (lookup s es) eqn:El; eauto.
      destruct r; simpl in H; discriminate. }
    destruct Hs as [c Hc].
    assert (Hp : forall e', exists c',
               put_at r (Some (Dir e')) (lookup s es) = Some c').
    { intros e'. rewrite Hc. destruct r as [|s' r'].
      - simpl. eauto.
      - rewrite Hc in H. simpl in H. destruct c as [d m|ec]; try discriminate.
        simpl. destruct (String.eqb s' "."); eauto.
        destruct (put_dir_is_dir r' e' e0 _ H) as [e4 He4]. eauto. }
    destruct (Hp e1) as [c1 Hc1]. destruct (Hp e2) as [c2 Hc2].
    rewrite Hc1, Hc2, set_set_some. reflexivity.
Qed.

Lemma replace_same s c es : lookup s es = Some c -> replace_entry s c es = es.
Proof.
  induction es as [|[k m] es IH]; simpl; [reflexivity|].
  destruct (String.eqb s k) eqn:E.
  - apply String.eqb_eq in E. subst k. intros H. injection H as <-. reflexivity.
  - intros H. rewrite (IH H). reflexivity.
Qed.

Lemma put_at_same r n o : resolve r o = Ok (Some n) -> put_at r (Some n) o = o.
Proof.
  revert o. induction r as [|s r IH]; intros o; simpl.
  - intros H. injection H as <-. reflexivity.
  - destruct o as [[d m|es]|]; try discriminate.
    destruct (String.eqb s "."); intros H; [apply IH; assumption|].
    rewrite (IH _ H). destruct (lookup s es) eqn:El.
    + simpl. rewrite El, (replace_same _ _ _ El). reflexivity.
    + destruct r; simpl in H; discriminate.
Qed.

Section Window.

Variable o : option node.
Variable rr : list string.
Variable e0 : list (string * node).
Hypothesis at_rr : resolve rr o = Ok (Some (Dir e0)).

Lemma inst_start : inst o rr e0 = o.
Proof. apply put_at_same. exact at_rr. Qed.

Lemma inst_dir e : resolve rr (inst o rr e) = Ok (Some (Dir e)).
Proof. eapply resolve_put_dir. exact at_rr. Qed.

Lemma inst_child e a :
  a <> "." -> resolve (rr ++ [a]) (inst o rr e) = Ok (lookup a e).
Proof.
  intros Ha. rewrite resolve_app, inst_dir. simpl.
  apply String.eqb_neq in Ha. rewrite Ha. reflexivity.
Qed.

Lemma inst_write e a y :
  a <> "." -> put_at (rr ++ [a]) y (inst o rr e) = inst o rr (set_entry a y e).
Proof.
  intros Ha. rewrite (put_at_app _ _ _ _ _ (inst_dir e)). simpl.
  apply String.eqb_neq in Ha. rewrite Ha. unfold inst.
  eapply put_put_dir. exact at_rr.
Qed.

Lemma inst_below e d e' :
  d <> "." -> inst (inst o rr e) (rr ++ [d]) e'
              = inst o rr (set_entry d (Some (Dir e')) e).
Proof. intros Hd. unfold inst at 1. apply inst_write. assumption. Qed.

End Window.

(** ** Well-formed names *)

Lemma contains_In x l : contains x l = true <-> In x l.
Proof.
  unfold contains. rewrite existsb_exists. split.
  - intros [y [Hy E]]. apply String.eqb_eq in E. subst. assumption.
  - intros H. exists x. split; [assumption | apply String.eqb_refl].
Qed.

Lemma contains_false x l : contains x l = false <-> ~ In x l.
Proof.
  rewrite <- contains_In. destruct (contains x l); split; intros H;
    try congruence; try discriminate; exfalso; apply H; reflexivity.
Qed.

Lemma fresh_cons x l :
  fresh_names (x :: l) = true <-> x <> "." /\ ~ In x l /\ fresh_names l = true.
Proof.
  simpl. rewrite !andb_true_iff, !negb_true_iff, String.eqb_neq, contains_false.
  tauto.
Qed.

Lemma fresh_nodot l : fresh_names l = true -> Forall (fun a => a <> ".") l.
Proof.
  induction l as [|x l IH]; intros H; [constructor|].
  apply fresh_cons in H. destruct H as [H1 [H2 H3]]. constructor; auto.
Qed.

Lemma fresh_NoDup l : fresh_names l = true -> NoDup l.
Proof.
  induction l as [|x l IH]; intros H; [constructor|].
  apply fresh_cons in H. destruct H as [H1 [H2 H3]]. constructor; auto.
Qed.

Lemma lookup_None s es : lookup s es = None <-> ~ In s (names es).
Proof.
  induction es as [|[k n] es IH]; simpl; [tauto|].
  destruct (String.eqb s k) eqn:E.
  - apply String.eqb_eq in E. subst. split; [discriminate | intros H].
    exfalso. apply H. left. reflexivity.
  - apply String.eqb_neq in E. rewrite IH. split; intros H.
    + intros [H1|H1]; [congruence | auto].
    + intros H1. apply H. right. assumption.
Qed.

Lemma lookup_In s n es : lookup s es = Some n -> In (s, n) es.
Proof.
  induction es as [|[k m] es IH]; simpl; [discriminate|].
  destruct (String.eqb s k) eqn:E.
  - apply String.eqb_eq in E. subst. intros H. injection H as <-. left.
    reflexivity.
  - intros H. right. apply IH. assumption.
Qed.

Lemma In_lookup s n es :
  NoDup (names es) -> In (s, n) es -> lookup s es = Some n.
Proof.
  induction es as [|[k m] es IH]; simpl; [tauto|].
  intros Hnd [H|H].
  - injection H as <- <-. rewrite String.eqb_refl. reflexivity.
  - inversion Hnd as [|? ? Hk Hrest]; subst.
    destruct (String.eqb s k) eqn:E.
    + apply String.eqb_eq in E. subst. exfalso. apply Hk.
      change k with (fst (k, n)). apply in_map. assumption.
    + apply IH; assumption.
Qed.

Lemma names_app es1 es2 : names (es1 ++ es2) = names es1 ++ names es2.
Proof. apply map_app. Qed.

Lemma In_nondir_names a es :
  In a (nondir_names es) <-> exists n, In (a, n) es /\ is_dir n = false.
Proof.
  unfold nondir_names, names. rewrite in_map_iff. split.
  - intros [[k n] [E H]]. simpl in E. subst. apply filter_In in H.
    destruct H as [H1 H2]. simpl in H2. apply negb_true_iff in H2. eauto.
  - intros [n [H1 H2]]. exists (a, n). split; [reflexivity|].
    apply filter_In. split; [assumption|]. simpl. rewrite H2. reflexivity.
Qed.

Lemma In_dir_names a es :
  In a (dir_names es) <-> exists n, In (a, n) es /\ is_dir n = true.
Proof.
  unfold dir_names, names. rewrite in_map_iff. split.
  - intros [[k n] [E H]]. simpl in E. subst. apply filter_In in H.
    destruct H as [H1 H2]. eauto.
  - intros [n [H1 H2]]. exists (a, n). split; [reflexivity|].
    apply filter_In. split; assumption.
Qed.

Lemma wf_Dir es :
  wf (Dir es) = true
  <-> fresh_names (names es) = true /\ Forall (fun e => wf (snd e) = true) es.
Proof.
  simpl. rewrite andb_true_iff.
  assert (H : (fix all (l : list (string * node)) : bool :=
                 match l with
                 | [] => true
                 | e :: rest => wf (snd e) && all rest
                 end) es = true
              <-> Forall (fun e => wf (snd e) = true) es).
  { induction es as [|e es IH].
    - split; [constructor | reflexivity].
    - rewrite andb_true_iff, IH. split.
      + intros [H1 H2]. constructor; assumption.
      + intros H. inversion H; subst. split; assumption. }
  rewrite H. tauto.
Qed.

Lemma wf_child s c es :
  wf (Dir es) = true -> lookup s es = Some c -> wf c = true.
Proof.
  intros H Hl. apply wf_Dir in H. destruct H as [_ H].
  rewrite Forall_forall in H. apply (H (s, c)). apply lookup_In. assumption.
Qed.

Lemma height_child e es : In e es -> height (snd e) < height (Dir es).
Proof.
  simpl. induction es as [|x es IH]; simpl; [tauto|].
  intros [H|H]; [subst; lia|]. specialize (IH H). lia.
Qed.

(** The files of a well-formed source directory. *)
Lemma source_files es :
  fresh_names (names es) = true ->
  Forall (fun a => a <> "." /\ exists d m, lookup a es = Some (File d m))
    (nondir_names es).
Proof.
  intros Hf. apply Forall_forall. intros a Ha.
  apply In_nondir_names in Ha. destruct Ha as [n [Hin Hn]]. split.
  - pose proof (fresh_nodot _ Hf) as Hd. rewrite Forall_forall in Hd.
    apply Hd. change a with (fst (a, n)). apply in_map. assumption.
  - destruct n as [d m|ec]; [|discriminate]. exists d, m.
    apply In_lookup; [apply fresh_NoDup|]; assumption.
Qed.

Lemma fresh_iff l : fresh_names l = true <-> NoDup l /\ ~ In "." l.
Proof.
  induction l as [|x l IH].
  - simpl. split; [intros _; split; [constructor | tauto] | reflexivity].
  - rewrite fresh_cons, IH, NoDup_cons_iff. simpl. split.
    + intros [H1 [H2 [H3 H4]]]. split; [tauto|]. intros [H|H]; auto.
    + intros [[H1 H2] H3]. repeat split; auto; intros H; apply H3; auto.
Qed.

Lemma names_replace s n es : names (replace_entry s n es) = names es.
Proof.
  induction es as [|[k m] es IH]; simpl; [reflexivity|].
  destruct (String.eqb s k); simpl; [reflexivity|]. rewrite IH. reflexivity.
Qed.

Lemma names_delete s es :
  names (delete_entry s es) = filter (fun k => negb (String.eqb s k)) (names es).
Proof.
  induction es as [|[k m] es IH]; simpl; [reflexivity|].
  destruct (String.eqb s k); simpl; rewrite IH; reflexivity.
Qed.

Lemma fresh_set_entry s y es :
  s <> "." -> fresh_names (names es) = true ->
  fresh_names (names (set_entry s y es)) = true.
Proof.
  intros Hs. rewrite !fresh_iff. intros [Hnd Hdot].
  destruct y as [n|]; unfold set_entry.
  - destruct (lookup s es) eqn:E.
    + rewrite names_replace. split; assumption.
    + rewrite names_app. simpl. split.
      * apply NoDup_app; [assumption | repeat constructor; simpl; tauto |].
        intros a Ha [<-|[]]. apply lookup_None in E. contradiction.
      * rewrite in_app_iff. simpl. intros [H|[H|[]]]; auto.
  - rewrite names_delete. split.
    + apply NoDup_filter. assumption.
    + intros H. apply filter_In in H. tauto.
Qed.

Lemma NoDup_names_filter (f : string * node -> bool) es :
  NoDup (names es) -> NoDup (names (filter f es)).
Proof.
  induction es as [|e es IH]; simpl; intros H; [constructor|].
  inversion H as [|? ? Hn Hr]; subst.
  destruct (f e); simpl; [|auto]. constructor; [|auto].
  intros Hin. apply Hn. unfold names in *. apply in_map_iff in Hin.
  destruct Hin as [x [Hx1 Hx2]]. apply filter_In in Hx2.
  apply in_map_iff. exists x. tauto.
Qed.

Lemma mirror_dirs_map es :
  mirror_dirs es
  = map (fun e => (fst e, mirror (snd e))) (filter (fun e => is_dir (snd e)) es).
Proof.
  unfold mirror_dirs. induction es as [|e es IH]; simpl; [reflexivity|].
  destruct (is_dir (snd e)); simpl; rewrite IH; reflexivity.
Qed.

Lemma mirror_Dir es : mirror (Dir es) = Dir (file_entries es ++ mirror_dirs es).
Proof.
  simpl. f_equal. f_equal. unfold mirror_dirs.
  induction es as [|e es IH]; simpl; [reflexivity|].
  destruct (is_dir (snd e)); simpl; rewrite IH; reflexivity.
Qed.

Lemma mirror_log_Dir r es :
  mirror_log r (Dir es)
  = Created_directory (at_ Replica r)
    :: map (fun a => Copied (at_ Source (r ++ [a])) (at_ Replica (r ++ [a])))
         (nondir_names es)
    ++ flat_map (fun e => mirror_log (r ++ [fst e]) (snd e))
         (filter (fun e => is_dir (snd e)) es).
Proof.
  simpl. f_equal. f_equal.
  induction es as [|[k [d m|ec]] es IH]; [reflexivity| |].
  - rewrite IH. reflexivity.
  - rewrite IH. reflexivity.
Qed.

Lemma height_Dir_pos es : 1 <= height (Dir es).
Proof. simpl. lia. Qed.

(** ** Pruned trees *)

Lemma prune_Dir es : prune (Dir es) = Dir (prune_entries es).
Proof.
  simpl. f_equal. unfold prune_entries.
  induction es as [|e es IH]; simpl; [reflexivity|]. rewrite IH.
  unfold keeps. simpl.
  destruct (prune (snd e)) as [d m|[|x l]]; reflexivity.
Qed.

Lemma prune_is_dir n : is_dir (prune n) = is_dir n.
Proof. destruct n; reflexivity. Qed.

Lemma sweep_log_Dir r es :
  sweep_log r (Dir es)
  = flat_map (fun e => sweep_log (r ++ [fst e]) (snd e))
      (filter (fun e => is_dir (snd e)) es)
    ++ flat_map (removal r) es.
Proof.
  simpl. f_equal.
  induction es as [|[k [d m|ec]] es IH]; [reflexivity| |].
  - rewrite IH. reflexivity.
  - rewrite IH. reflexivity.
Qed.

Lemma delete_absent s es : ~ In s (names es) -> delete_entry s es = es.
Proof.
  induction es as [|[k n] es IH]; simpl; intros H; [reflexivity|].
  destruct (String.eqb s k) eqn:E.
  - apply String.eqb_eq in E. subst. exfalso. apply H. left. reflexivity.
  - simpl. rewrite IH; [reflexivity|]. intros Hin. apply H. right. assumption.
Qed.

Lemma delete_middle s n l1 l2 :
  ~ In s (names l1) -> ~ In s (names l2) ->
  delete_entry s (l1 ++ (s, n) :: l2) = l1 ++ l2.
Proof.
  intros H1 H2. unfold delete_entry. rewrite filter_app. simpl.
  rewrite String.eqb_refl. simpl.
  fold (delete_entry s l1). fold (delete_entry s l2).
  rewrite !delete_absent by assumption. reflexivity.
Qed.

Lemma replace_middle s n n' l1 l2 :
  ~ In s (names l1) ->
  replace_entry s n' (l1 ++ (s, n) :: l2) = l1 ++ (s, n') :: l2.
Proof.
  induction l1 as [|[k m] l1 IH]; simpl; intros H.
  - rewrite String.eqb_refl. reflexivity.
  - destruct (String.eqb s k) eqn:E.
    + apply String.eqb_eq in E. subst. exfalso. apply H. left. reflexivity.
    + rewrite IH; [reflexivity|]. intros Hin. apply H. right. assumption.
Qed.

Lemma lookup_middle s n l1 l2 :
  ~ In s (names l1) -> lookup s (l1 ++ (s, n) :: l2) = Some n.
Proof.
  intros H. rewrite lookup_app. apply lookup_None in H. rewrite H. simpl.
  rewrite String.eqb_refl. reflexivity.
Qed.

Lemma names_map_snd (f : node -> node) es :
  names (map (fun e => (fst e, f (snd e))) es) = names es.
Proof. unfold names. rewrite map_map. reflexivity. Qed.

(** ** Induction on trees *)

Lemma node_ind_h (P : node -> Prop) :
  (forall d m, P (File d m)) ->
  (forall es, (forall c, In c es -> P (snd c)) -> P (Dir es)) ->
  forall n, P n.
Proof.
  intros Hf Hd.
  assert (H : forall k n, height n <= k -> P n).
  { induction k as [|k IH]; intros [d m|es] Hh; try apply Hf.
    - pose proof (height_Dir_pos es). lia.
    - apply Hd. intros c Hin. apply IH.
      pose proof (height_child _ _ Hin). lia. }
  intros n. apply (H (height n)). lia.
Qed.

Lemma fileless_Dir es :
  fileless (Dir es) = forallb (fun e => fileless (snd e)) es.
Proof.
  simpl. induction es as [|e es IH]; simpl; [reflexivity|].
  rewrite IH. reflexivity.
Qed.

Lemma lookup_map_snd (g : node -> node) s es :
  lookup s (map (fun e => (fst e, g (snd e))) es)
  = option_map g (lookup s es).
Proof.
  induction es as [|[k n] es IH]; simpl; [reflexivity|].
  destruct (String.eqb s k); [reflexivity | exact IH].
Qed.

Lemma lookup_filter (f : string * node -> bool) s es :
  NoDup (names es) ->
  lookup s (filter f es)
  = match lookup s es with
    | Some c => if f (s, c) then Some c else None
    | None => None
    end.
Proof.
  induction es as [|[k n] es IH]; simpl; intros Hnd; [reflexivity|].
  inversion Hnd as [|? ? Hk Hrest]; subst.
  destruct (String.eqb s k) eqn:E.
  - apply String.eqb_eq in E. subst k. destruct (f (s, n)); simpl.
    + rewrite String.eqb_refl. reflexivity.
    + apply lookup_None. intros Hin. apply Hk. unfold names in *.
      apply in_map_iff in Hin. destruct Hin as [x [Hx1 Hx2]].
      apply filter_In in Hx2. apply in_map_iff. exists x. tauto.
  - destruct (f (k, n)); simpl; [rewrite E|]; apply IH; assumption.
Qed.

Lemma lookup_prune_entries s es :
  NoDup (names es) ->
  lookup s (prune_entries es)
  = match lookup s es with
    | Some c => if is_empty_dir (prune c) then None else Some (prune c)
    | None => None
    end.
Proof.
  intros Hnd. unfold prune_entries. rewrite lookup_filter.
  - rewrite lookup_map_snd. destruct (lookup s es) as [c|]; [|reflexivity].
    simpl. unfold keeps. simpl.
    destruct (prune c) as [d m|[|x l]]; reflexivity.
  - rewrite (names_map_snd prune). assumption.
Qed.

Lemma lookup_mirrored s es :
  NoDup (names es) ->
  lookup s (file_entries es ++ mirror_dirs es)
  = option_map mirror (lookup s es).
Proof.
  intros Hnd. rewrite lookup_app, mirror_dirs_map, lookup_map_snd.
  unfold file_entries. rewrite !lookup_filter by assumption.
  destruct (lookup s es) as [[d m|c]|]; reflexivity.
Qed.

(** A directory is pruned to nothing exactly when no file lies below it. *)
Lemma empty_prune n : is_empty_dir (prune n) = fileless n.
Proof.
  induction n as [d m|es IH] using node_ind_h; [reflexivity|].
  rewrite prune_Dir, fileless_Dir. unfold prune_entries.
  induction es as [|[k c] es IHes]; [reflexivity|].
  simpl. assert (Hc := IH (k, c) (or_introl eq_refl)). simpl in Hc.
  rewrite <- Hc. unfold keeps at 1. simpl.
  destruct (prune c) as [d m|[|x l]]; simpl; try reflexivity.
  apply IHes. intros c' Hin. apply IH. right. assumption.
Qed.

Lemma fileless_mirror n : fileless (mirror n) = fileless n.
Proof.
  induction n as [d m|es IH] using node_ind_h; [reflexivity|].
  rewrite mirror_Dir, !fileless_Dir, forallb_app.
  induction es as [|[k c] es IHes]; [reflexivity|].
  assert (Hc := IH (k, c) (or_introl eq_refl)). simpl in Hc.
  assert (Hrest := IHes (fun c' Hin => IH c' (or_intror Hin))).
  unfold file_entries, mirror_dirs in *. simpl.
  destruct c as [d m|ec]; simpl.
  - reflexivity.
  - simpl in Hc. rewrite Hc, <- Hrest.
    destruct (forallb (fun e => fileless (snd e))
                (filter (fun e => negb (is_dir (snd e))) es));
      simpl; [reflexivity|].
    rewrite andb_false_r. reflexivity.
Qed.

Lemma wf_mirror n : wf n = true -> wf (mirror n) = true.
Proof.
  induction n as [d m|es IH] using node_ind_h; [reflexivity|].
  intros Hwf. apply wf_Dir in Hwf. destruct Hwf as [Hf Hall].
  rewrite mirror_Dir. apply wf_Dir. split.
  - apply fresh_iff in Hf. destruct Hf as [Hnd Hdot]. apply fresh_iff.
    rewrite names_app, mirror_dirs_map, (names_map_snd mirror). split.
    + apply NoDup_app; try (apply NoDup_names_filter; assumption).
      intros a Ha Hb.
      apply (In_nondir_names a es) in Ha. apply (In_dir_names a es) in Hb.
      destruct Ha as [n1 [H1 H2]]. destruct Hb as [n2 [H3 H4]].
      pose proof (In_lookup _ _ _ Hnd H1). pose proof (In_lookup _ _ _ Hnd H3).
      congruence.
    + intros Hin. apply in_app_or in Hin. apply Hdot. unfold names in *.
      destruct Hin as [Hin|Hin]; apply in_map_iff in Hin;
        destruct Hin as [x [Hx1 Hx2]]; apply filter_In in Hx2;
        apply in_map_iff; exists x; tauto.
  - apply Forall_app. split.
    + apply Forall_forall. intros [k c] Hin. apply filter_In in Hin.
      destruct Hin as [_ Hc]. simpl in *. destruct c; [reflexivity|discriminate].
    + rewrite mirror_dirs_map. apply Forall_forall. intros c Hin.
      apply in_map_iff in Hin. destruct Hin as [x [<- Hx]].
      apply filter_In in Hx. destruct Hx as [Hx _]. simpl.
      apply IH; [assumption|]. rewrite Forall_forall in Hall. apply Hall.
      assumption.
Qed.

(** ** Entries of pruned and mirrored trees *)

Lemma entry_Dir s q es :
  entry (s :: q) (Dir es)
  = match lookup s es with Some c => entry q c | None => None end.
Proof. reflexivity. Qed.

Lemma entry_File q d m : q <> [] -> entry q (File d m) = None.
Proof. destruct q; [congruence | reflexivity]. Qed.

Lemma fileless_below q : forall c x,
  fileless c = true -> entry q c = Some x -> fileless x = true.
Proof.
  induction q as [|s q IH]; intros c x Hc He.
  - simpl in He. injection He as <-. assumption.
  - destruct c as [d m|es]; [discriminate|]. rewrite entry_Dir in He.
    destruct (lookup s es) as [c'|] eqn:El; [|discriminate].
    rewrite fileless_Dir, forallb_forall in Hc.
    apply (IH c' x); [|assumption].
    apply (Hc (s, c')). apply lookup_In. assumption.
Qed.

Lemma is_empty_dir_eq n : is_empty_dir n = true -> n = Dir [].
Proof. destruct n as [d m|[|x l]]; simpl; congruence. Qed.

(** Files survive pruning. *)
Lemma entry_prune_file q : forall n d m,
  wf n = true -> entry q n = Some (File d m) ->
  entry q (prune n) = Some (File d m).
Proof.
  induction q as [|s q IH]; intros n d m Hwf He.
  - simpl in He. injection He as ->. reflexivity.
  - destruct n as [d' m'|es]; [discriminate|].
    rewrite entry_Dir in He. rewrite prune_Dir, entry_Dir.
    pose proof Hwf as Hwf'. apply wf_Dir in Hwf'. destruct Hwf' as [Hf _].
    rewrite lookup_prune_entries by (apply fresh_NoDup; assumption).
    destruct (lookup s es) as [c|] eqn:El; [|discriminate].
    pose proof (IH c d m (wf_child _ _ _ Hwf El) He) as Hc.
    destruct (is_empty_dir (prune c)) eqn:E; [|assumption].
    apply is_empty_dir_eq in E. rewrite E in Hc.
    destruct q; discriminate.
Qed.

(** Directories without files do not survive it, below the root. *)
Lemma entry_prune_fileless q : forall n c,
  q <> [] -> wf n = true -> entry q n = Some c -> fileless c = true ->
  entry q (prune n) = None.
Proof.
  induction q as [|s q IH]; intros n c Hq Hwf He Hc; [congruence|].
  destruct n as [d' m'|es]; [discriminate|].
  rewrite entry_Dir in He. rewrite prune_Dir, entry_Dir.
  pose proof Hwf as Hwf'. apply wf_Dir in Hwf'. destruct Hwf' as [Hf _].
  rewrite lookup_prune_entries by (apply fresh_NoDup; assumption).
  destruct (lookup s es) as [c'|] eqn:El; [|discriminate].
  rewrite empty_prune. destruct (fileless c') eqn:Ec'; [reflexivity|].
  destruct q as [|s' q'].
  - simpl in He. injection He as <-. congruence.
  - apply (IH c' c); [discriminate | eapply wf_child; eauto | assumption
                     | assumption].
Qed.

(** No empty directory is left below the root. *)
Lemma entry_prune_nonempty q : forall n,
  q <> [] -> wf n = true -> entry q (prune n) <> Some (Dir []).
Proof.
  induction q as [|s q IH]; intros n Hq Hwf; [congruence|].
  destruct n as [d' m'|es]; [discriminate|].
  rewrite prune_Dir, entry_Dir.
  pose proof Hwf as Hwf'. apply wf_Dir in Hwf'. destruct Hwf' as [Hf _].
  rewrite lookup_prune_entries by (apply fresh_NoDup; assumption).
  destruct (lookup s es) as [c'|] eqn:El; [|discriminate].
  destruct (is_empty_dir (prune c')) eqn:E; [discriminate|].
  destruct q as [|s' q'].
  - simpl. intros H. injection H as H. rewrite H in E. discriminate.
  - apply IH; [discriminate | eapply wf_child; eauto].
Qed.

(** The tree built for a new directory and then pruned, against the source
    directory it was built from. *)
Lemma entry_pruned_mirror fp q : forall c,
  wf c = true -> fileless c = false ->
  mirrored_at fp (entry q c) (entry q (prune (mirror c))).
Proof.
  induction q as [|s q IH]; intros c Hwf Hc.
  - destruct c as [d m|es]; unfold mirrored_at; cbn [entry].
    + exists d, m. split; reflexivity.
    + rewrite Hc, mirror_Dir, prune_Dir. eauto.
  - destruct c as [d m|es]; [reflexivity|].
    rewrite mirror_Dir, prune_Dir, !entry_Dir.
    pose proof Hwf as Hwf'. apply wf_Dir in Hwf'. destruct Hwf' as [Hf _].
    pose proof (fresh_NoDup _ Hf) as Hnd.
    pose proof (wf_mirror _ Hwf) as Hwm. rewrite mirror_Dir in Hwm.
    apply wf_Dir in Hwm. destruct Hwm as [Hfm _].
    rewrite lookup_prune_entries by (apply fresh_NoDup; assumption).
    rewrite lookup_mirrored by assumption.
    destruct (lookup s es) as [c'|] eqn:El; [|reflexivity].
    cbn [option_map]. rewrite empty_prune, fileless_mirror.
    destruct (fileless c') eqn:Ec'.
    + destruct (entry q c') as [x|] eqn:Ex; [|reflexivity].
      pose proof (fileless_below _ _ _ Ec' Ex) as Hx.
      destruct x as [d m|ex]; [discriminate|]. unfold mirrored_at.
      rewrite Hx. reflexivity.
    + apply IH; [eapply wf_child; eauto | assumption].
Qed.

(** Everything with a file below it survives pruning. *)
Lemma entry_prune_kept q : forall n c,
  wf n = true -> entry q n = Some c -> fileless c = false ->
  entry q (prune n) = Some (prune c).
Proof.
  induction q as [|s q IH]; intros n c Hwf He Hc.
  - simpl in He. injection He as ->. reflexivity.
  - destruct n as [d' m'|es]; [discriminate|].
    rewrite entry_Dir in He. rewrite prune_Dir, entry_Dir.
    pose proof Hwf as Hwf'. apply wf_Dir in Hwf'. destruct Hwf' as [Hf _].
    rewrite lookup_prune_entries by (apply fresh_NoDup; assumption).
    destruct (lookup s es) as [c'|] eqn:El; [|discriminate].
    rewrite empty_prune. destruct (fileless c') eqn:Ec'.
    + rewrite (fileless_below _ _ _ Ec' He) in Hc. discriminate.
    + apply IH; [eapply wf_child; eauto | assumption | assumption].
Qed.

Lemma sweep_log_removed n : forall r,
  Forall (fun m => is_removed_empty m = true) (sweep_log r n).
Proof.
  induction n as [d m|es IH] using node_ind_h; intros r; [constructor|].
  rewrite sweep_log_Dir. apply Forall_app. split.
  - apply Forall_flat_map. apply Forall_forall. intros c Hc.
    apply filter_In in Hc. apply IH. tauto.
  - apply Forall_flat_map. apply Forall_forall. intros c Hc.
    unfold removal. destruct (prune (snd c)) as [d m|[|x l]];
      repeat constructor.
Qed.

Lemma wf_prune n : wf n = true -> wf (prune n) = true.
Proof.
  induction n as [d m|es IH] using node_ind_h; [reflexivity|].
  intros Hwf. apply wf_Dir in Hwf. destruct Hwf as [Hf Hall].
  rewrite prune_Dir. apply wf_Dir. unfold prune_entries. split.
  - apply fresh_iff in Hf. destruct Hf as [Hnd Hdot]. apply fresh_iff. split.
    + apply NoDup_names_filter. rewrite (names_map_snd prune). assumption.
    + intros Hin. apply Hdot. rewrite <- (names_map_snd prune es).
      unfold names in *. apply in_map_iff in Hin.
      destruct Hin as [x [Hx1 Hx2]]. apply filter_In in Hx2.
      apply in_map_iff. exists x. tauto.
  - apply Forall_forall. intros c Hc. apply filter_In in Hc.
    destruct Hc as [Hc _]. apply in_map_iff in Hc. destruct Hc as [x [<- Hx]].
    simpl. apply IH; [assumption|]. rewrite Forall_forall in Hall.
    apply Hall. assumption.
Qed.

Lemma removed_is_dir_event l :
  Forall (fun m => is_removed_empty m = true) l ->
  Forall (fun m => is_dir_event m = true) l.
Proof.
  apply Forall_impl. intros [| | |]; simpl; congruence.
Qed.

Lemma fileless_no_files es :
  fileless (Dir es) = true -> nondir_names es = [].
Proof.
  rewrite fileless_Dir, forallb_forall. intros H.
  unfold nondir_names. induction es as [|[k n] es IH]; [reflexivity|].
  pose proof (H (k, n) (or_introl eq_refl)) as Hn. simpl in Hn.
  destruct n as [d m|ec]; [discriminate|]. simpl. apply IH.
  intros x Hx. apply H. right. assumption.
Qed.

(** Mirroring a directory without files only creates directories. *)
Lemma mirror_log_fileless n : forall r,
  fileless n = true -> Forall (fun m => is_dir_event m = true) (mirror_log r n).
Proof.
  induction n as [d m|es IH] using node_ind_h; intros r Hn; [constructor|].
  rewrite mirror_log_Dir, (fileless_no_files _ Hn). simpl.
  constructor; [reflexivity|]. apply Forall_flat_map. apply Forall_forall.
  intros c Hc. apply filter_In in Hc. destruct Hc as [Hc _].
  apply IH; [assumption|]. rewrite fileless_Dir, forallb_forall in Hn.
  apply Hn. assumption.
Qed.

Lemma sweep_log_files r l :
  (forall c, In c l -> is_dir (snd c) = false) -> sweep_log r (Dir l) = [].
Proof.
  intros H. rewrite sweep_log_Dir.
  induction l as [|[k n] l IH]; [reflexivity|].
  pose proof (H (k, n) (or_introl eq_refl)) as Hn. simpl in Hn.
  destruct n as [d m|ec]; [|discriminate]. simpl.
  apply IH. intros c Hc. apply H. right. assumption.
Qed.

Lemma kept_entries es x :
  In x (prune_entries (mirror_dirs es)) ->
  is_dir (snd x) = true /\ In (fst x) (dir_names es).
Proof.
  unfold prune_entries. rewrite mirror_dirs_map. intros H.
  apply filter_In in H. destruct H as [H _]. apply in_map_iff in H.
  destruct H as [y [<- Hy]]. apply in_map_iff in Hy.
  destruct Hy as [z [<- Hz]]. simpl. split.
  - rewrite prune_is_dir. apply filter_In in Hz. destruct Hz as [_ Hz].
    destruct (snd z); [discriminate | reflexivity].
  - unfold dir_names, names. apply in_map. assumption.
Qed.

(** When nothing of the mirrored sub-directories survives pruning, each of
    them is without files. *)
Lemma kept_none es :
  prune_entries (mirror_dirs es) = [] ->
  forall c, In c (filter (fun e => is_dir (snd e)) es) ->
    fileless (snd c) = true.
Proof.
  unfold prune_entries. rewrite mirror_dirs_map. intros H c Hc.
  rewrite <- fileless_mirror, <- empty_prune.
  assert (Hin : In (fst c, prune (mirror (snd c)))
                  (map (fun e => (fst e, prune (snd e)))
                     (map (fun e => (fst e, mirror (snd e)))
                        (filter (fun e => is_dir (snd e)) es)))).
  { rewrite map_map. simpl. apply in_map_iff. exists c. tauto. }
  destruct (is_empty_dir (prune (mirror (snd c)))) eqn:E; [reflexivity|].
  assert (Hk : keeps (fst c, prune (mirror (snd c))) = true).
  { unfold keeps. simpl.
    destruct (prune (mirror (snd c))) as [d m|[|x l]];
      try reflexivity. discriminate. }
  pose proof (proj2 (filter_In keeps _ _) (conj Hin Hk)) as Hf.
  rewrite H in Hf. contradiction.
Qed.

(** ** The calls of the program on a replica directory *)

Arguments set_entry : simpl never.
Arguments inst : simpl never.
Arguments os_walk : simpl never.
Arguments mirror : simpl never.
Arguments mirror_log : simpl never.
Arguments prune : simpl never.
Arguments sweep_log : simpl never.
Arguments wf : simpl never.
Arguments height : simpl never.

Lemma for_each_app {A} (xs ys : list A) (body : A -> M unit) (w : world) :
  for_each (xs ++ ys) body w
  = match for_each xs body w with
    | (Ok _, w') => for_each ys body w'
    | (Raise e, w') => (Raise e, w')
    end.
Proof.
  revert w. induction xs as [|x xs IH]; intros w; simpl; [reflexivity|].
  unfold bind. destruct (body x w) as [[[]|e] w']; [apply IH | reflexivity].
Qed.


Lemma os_walk_S k top topdown body w :
  os_walk (S k) top topdown body w
  = match scandir top w with
    | None => (Ok tt, w)
    | Some (dirs, nondirs) =>
        if topdown then
          (body top dirs nondirs ;;
           for_each dirs
             (fun d => os_walk k (os_path_join top [d]) topdown body)) w
        else
          (for_each dirs
             (fun d => os_walk k (os_path_join top [d]) topdown body) ;;
           body top dirs nondirs) w
    end.
Proof. reflexivity. Qed.

(** ** The upward pass *)

Local Abbreviation pruned := (fun e : string * node => (fst e, prune (snd e))).

Local Abbreviation removed_msg :=
  (fun (r : list string) (c : string * node) =>
     if keeps c then []
     else [Removed_empty_directory (at_ Replica (r ++ [fst c]))]).

Lemma dir_names_pruned es : dir_names (map pruned es) = dir_names es.
Proof.
  unfold dir_names, names.
  induction es as [|[k n] es IH]; simpl; [reflexivity|].
  rewrite prune_is_dir. destruct (is_dir n); simpl; rewrite IH; reflexivity.
Qed.

Lemma removal_pruned r es :
  flat_map (removed_msg r) (map pruned es) = flat_map (removal r) es.
Proof.
  induction es as [|e es IH]; simpl; [reflexivity|]. rewrite IH. f_equal.
  unfold removal, keeps. simpl.
  destruct (prune (snd e)) as [d m|[|x l]]; reflexivity.
Qed.

Lemma remove_empty_run S t f R0 r e0 d c cur L :
  resolve r R0 = Ok (Some (Dir e0)) -> d <> "." ->
  lookup d cur = Some (Dir c) ->
  remove_empty (at_ Replica r) d (mk_world S (inst R0 r cur) L t f)
  = (Ok tt,
     match c with
     | [] =>
         mk_world S (inst R0 r (delete_entry d cur))
           (L ++ [Removed_empty_directory (at_ Replica (r ++ [d]))]) t f
     | _ :: _ => mk_world S (inst R0 r cur) L t f
     end).
Proof.
  intros Hw Hd Hl. unfold remove_empty, bind, os_listdir, stat. simpl.
  rewrite (inst_child _ _ _ Hw _ _ Hd), Hl.
  destruct c as [|x c]; simpl; [|reflexivity].
  unfold os_rmdir, stat, write_entry. simpl.
  rewrite (inst_child _ _ _ Hw _ _ Hd), Hl.
  rewrite (inst_write _ _ _ Hw _ _ _ Hd). reflexivity.
Qed.

Lemma cleanup_run S t f R0 r e0 :
  resolve r R0 = Ok (Some (Dir e0)) ->
  forall todo done L,
    fresh_names (names (done ++ todo)) = true ->
    for_each (dir_names todo) (remove_empty (at_ Replica r))
      (mk_world S (inst R0 r (filter keeps done ++ todo)) L t f)
    = (Ok tt,
       mk_world S (inst R0 r (filter keeps (done ++ todo)))
         (L ++ flat_map (removed_msg r) todo) t f).
Proof.
  intros Hw todo. induction todo as [|[d n] todo IH]; intros done L Hf.
  - simpl. rewrite !app_nil_r. reflexivity.
  - assert (Hsplit : done ++ (d, n) :: todo = (done ++ [(d, n)]) ++ todo)
      by (rewrite <- app_assoc; reflexivity).
    pose proof Hf as Hf'. rewrite Hsplit in Hf'.
    pose proof (fresh_nodot _ Hf) as Hdots.
    pose proof (fresh_NoDup _ Hf) as Hnd.
    rewrite names_app in Hdots, Hnd. simpl in Hdots, Hnd.
    assert (Hd : d <> ".").
    { apply Forall_app in Hdots. destruct Hdots as [_ Hd].
      inversion Hd; assumption. }
    assert (Hd1 : ~ In d (names (filter keeps done))).
    { intros Hin. apply NoDup_remove_2 in Hnd. apply Hnd.
      apply in_or_app. left. unfold names in *. apply in_map_iff in Hin.
      destruct Hin as [x [Hx1 Hx2]]. apply filter_In in Hx2.
      apply in_map_iff. exists x. tauto. }
    assert (Hd2 : ~ In d (names todo)).
    { intros Hin. apply NoDup_remove_2 in Hnd. apply Hnd.
      apply in_or_app. right. assumption. }
    specialize (IH (done ++ [(d, n)]) (L ++ removed_msg r (d, n)) Hf').
    rewrite filter_app in IH.
    destruct n as [dt m|[|x c]].
    + change (dir_names ((d, File dt m) :: todo)) with (dir_names todo).
      cbn [filter keeps snd] in IH. rewrite <- !app_assoc in IH.
      cbn [app] in IH. rewrite app_nil_r in IH. exact IH.
    + change (dir_names ((d, Dir []) :: todo)) with (d :: dir_names todo).
      cbn [for_each]. unfold bind.
      rewrite (remove_empty_run _ _ _ _ _ _ _ _ _ _ Hw Hd
                 (lookup_middle _ _ _ _ Hd1)).
      rewrite delete_middle by assumption.
      cbn [filter keeps snd fst] in IH. rewrite app_nil_r in IH.
      rewrite IH. rewrite <- !app_assoc. reflexivity.
    + change (dir_names ((d, Dir (x :: c)) :: todo))
        with (d :: dir_names todo).
      cbn [for_each]. unfold bind.
      rewrite (remove_empty_run _ _ _ _ _ _ _ _ _ _ Hw Hd
                 (lookup_middle _ _ _ _ Hd1)).
      cbn [filter keeps snd] in IH. rewrite <- !app_assoc in IH.
      cbn [app] in IH. rewrite app_nil_r in IH. exact IH.
Qed.

Section SweepChildren.

Variable S : option node.
Variable t : Z.
Variable f : option nat.
Variable k : nat.

(** The bottom-up walk of one directory with fuel [k], assumed for the
    sub-directories. *)
Hypothesis sweep_k : forall R0 r e0 es L,
  resolve r R0 = Ok (Some (Dir e0)) ->
  wf (Dir es) = true -> height (Dir es) <= k ->
  os_walk k (at_ Replica r) false cleanup_directory
    (mk_world S (inst R0 r es) L t f)
  = (Ok tt,
     mk_world S (inst R0 r (prune_entries es)) (L ++ sweep_log r (Dir es)) t f).

Lemma children_sweep R0 r e0 :
  resolve r R0 = Ok (Some (Dir e0)) ->
  forall todo done L,
    fresh_names (names (done ++ todo)) = true ->
    (forall c, In c todo -> wf (snd c) = true /\ height (snd c) <= k) ->
    for_each (dir_names todo)
      (fun d => os_walk k (os_path_join (at_ Replica r) [d]) false
                  cleanup_directory)
      (mk_world S (inst R0 r (map pruned done ++ todo)) L t f)
    = (Ok tt,
       mk_world S (inst R0 r (map pruned (done ++ todo)))
         (L ++ flat_map (fun e => sweep_log (r ++ [fst e]) (snd e))
                 (filter (fun e => is_dir (snd e)) todo)) t f).
Proof.
  intros Hw todo. induction todo as [|[d n] todo IH]; intros done L Hf Hc.
  - simpl. rewrite !app_nil_r. reflexivity.
  - assert (Hsplit : done ++ (d, n) :: todo = (done ++ [(d, n)]) ++ todo)
      by (rewrite <- app_assoc; reflexivity).
    pose proof Hf as Hf'. rewrite Hsplit in Hf'.
    pose proof (fresh_nodot _ Hf) as Hdots.
    pose proof (fresh_NoDup _ Hf) as Hnd.
    rewrite names_app in Hdots, Hnd. simpl in Hdots, Hnd.
    assert (Hd : d <> ".").
    { apply Forall_app in Hdots. destruct Hdots as [_ Hd].
      inversion Hd; assumption. }
    assert (Hd1 : ~ In d (names (map pruned done))).
    { rewrite (names_map_snd prune). intros Hin.
      apply NoDup_remove_2 in Hnd. apply Hnd. apply in_or_app. left.
      assumption. }
    assert (Hc' : forall c, In c todo ->
                    wf (snd c) = true /\ height (snd c) <= k)
      by (intros c Hin; apply Hc; right; assumption).
    destruct (Hc (d, n) (or_introl eq_refl)) as [Hwf Hh]. simpl in Hwf, Hh.
    destruct n as [dt m|c].
    + change (dir_names ((d, File dt m) :: todo)) with (dir_names todo).
      specialize (IH (done ++ [(d, File dt m)]) L Hf' Hc').
      rewrite map_app in IH. simpl in IH. rewrite <- app_assoc in IH.
      simpl in IH. change (prune (File dt m)) with (File dt m) in IH.
      rewrite IH, Hsplit. reflexivity.
    + change (dir_names ((d, Dir c) :: todo)) with (d :: dir_names todo).
      cbn [for_each]. unfold bind.
      change (os_path_join (at_ Replica r) [d]) with (at_ Replica (r ++ [d])).
      assert (Hchild : resolve (r ++ [d])
                         (inst R0 r (map pruned done ++ (d, Dir c) :: todo))
                       = Ok (Some (Dir c))).
      { rewrite (inst_child _ _ _ Hw _ _ Hd), lookup_middle by assumption.
        reflexivity. }
      rewrite <- (inst_start _ _ _ Hchild) at 1.
      rewrite (sweep_k _ _ _ _ _ Hchild Hwf Hh).
      rewrite (inst_below _ _ _ Hw _ _ _ Hd).
      unfold set_entry. rewrite lookup_middle by assumption.
      rewrite replace_middle by assumption.
      specialize (IH (done ++ [(d, Dir c)])
                    (L ++ sweep_log (r ++ [d]) (Dir c)) Hf' Hc').
      rewrite map_app in IH. cbn [map fst snd] in IH.
      rewrite prune_Dir, <- app_assoc in IH. cbn [app] in IH.
      rewrite IH, Hsplit. cbn [filter is_dir snd flat_map fst].
      rewrite <- !app_assoc. reflexivity.
Qed.

End SweepChildren.

Lemma sweep_dirs es k :
  wf (Dir es) = true -> height (Dir es) <= Datatypes.S k ->
  forall c, In c es -> wf (snd c) = true /\ height (snd c) <= k.
Proof.
  intros Hwf Hh c Hin. apply wf_Dir in Hwf. destruct Hwf as [_ Hall].
  rewrite Forall_forall in Hall. split; [apply Hall; assumption|].
  pose proof (height_child _ _ Hin). lia.
Qed.

Lemma sweep_walk S t f k : forall R0 r e0 es L,
  resolve r R0 = Ok (Some (Dir e0)) ->
  wf (Dir es) = true -> height (Dir es) <= k ->
  os_walk k (at_ Replica r) false cleanup_directory
    (mk_world S (inst R0 r es) L t f)
  = (Ok tt,
     mk_world S (inst R0 r (prune_entries es)) (L ++ sweep_log r (Dir es)) t f).
Proof.
  induction k as [|k IH]; intros R0 r e0 es L Hw Hwf Hh.
  - pose proof (height_Dir_pos es). lia.
  - rewrite os_walk_S. unfold scandir, stat. simpl.
    rewrite (inst_dir _ _ _ Hw).
    pose proof Hwf as Hwf'. apply wf_Dir in Hwf'. destruct Hwf' as [Hf Hall].
    unfold bind at 1.
    pose proof (children_sweep S t f k IH R0 r e0 Hw es [] L Hf
                  (sweep_dirs es k Hwf Hh)) as Hch.
    cbn [map app] in Hch. rewrite Hch.
    unfold cleanup_directory. rewrite <- (dir_names_pruned es).
    assert (Hf1 : fresh_names (names ([] ++ map pruned es)) = true).
    { simpl. rewrite (names_map_snd prune). assumption. }
    pose proof (cleanup_run S t f R0 r e0 Hw (map pruned es) []
                  (L ++ flat_map
                          (fun e => sweep_log (r ++ [fst e]) (snd e))
                          (filter (fun e => is_dir (snd e)) es)) Hf1) as Hcl.
    cbn [filter app] in Hcl. rewrite Hcl. unfold prune_entries.
    cbn [app]. rewrite removal_pruned, sweep_log_Dir, <- app_assoc.
    reflexivity.
Qed.

Lemma inst_root e e' : inst (Some (Dir e)) [] e' = Some (Dir e').
Proof. reflexivity. Qed.

Lemma inst_dot e e' : inst (Some (Dir e)) ["."] e' = Some (Dir e').
Proof. reflexivity. Qed.

Lemma upward_pass_dir S t f e L :
  wf (Dir e) = true ->
  upward_pass (mk_world S (Some (Dir e)) L t f)
  = (Ok tt,
     mk_world S (Some (Dir (prune_entries e))) (L ++ sweep_log [] (Dir e)) t f).
Proof.
  intros Hwf. unfold upward_pass, bind, walk_fuel, stat. simpl.
  pose proof (sweep_walk S t f (Datatypes.S (height (Dir e))) (Some (Dir e))
                [] e e L eq_refl Hwf (Nat.le_succ_diag_r _)) as H.
  rewrite !inst_root in H. exact H.
Qed.

Lemma upward_pass_nodir S t f R L :
  (forall e, R <> Some (Dir e)) ->
  upward_pass (mk_world S R L t f) = (Ok tt, mk_world S R L t f).
Proof.
  intros HR. destruct R as [[d m|e]|]; try reflexivity.
  exfalso. apply (HR e). reflexivity.
Qed.


(** C8.  On a replica directory the upward pass returns; it removes every
    directory below the root that holds no file at any depth (an empty
    directory, or one that holds only such directories), leaves no empty
    directory below the root, keeps every file and every directory with a file
    below it, and keeps the root, empty or not. *)
Theorem upward_sweep_removes_fileless_directories S e L t f :
  wf (Dir e) = true ->
  exists e',
    upward_pass (mk_world S (Some (Dir e)) L t f)
    = (Ok tt, mk_world S (Some (Dir e')) (L ++ sweep_log [] (Dir e)) t f)
    /\ (forall p c, p <> [] -> entry p (Dir e) = Some c ->
          fileless c = true -> entry p (Dir e') = None)
    /\ (forall p, p <> [] -> entry p (Dir e') <> Some (Dir []))
    /\ (forall p c, entry p (Dir e) = Some c -> fileless c = false ->
          entry p (Dir e') = Some (prune c))
    /\ (e = [] -> e' = []).
Proof.
  intros Hwf. exists (prune_entries e). rewrite <- prune_Dir. split.
  - rewrite prune_Dir. apply upward_pass_dir. assumption.
  - split; [|split; [|split]].
    + intros p c Hp He Hc. eapply entry_prune_fileless; eauto.
    + intros p Hp. apply entry_prune_nonempty; assumption.
    + intros p c He Hc. apply entry_prune_kept; assumption.
    + intros ->. reflexivity.
Qed.


Section Properties.

Variable md5_state : Type.
Variable hashlib_md5 : md5_state.
Variable md5_update : md5_state -> string -> md5_state.
Variable md5_hexdigest : md5_state -> string.

Local Abbreviation md5_of := (md5_of md5_state hashlib_md5 md5_update md5_hexdigest).
Local Abbreviation calculate_md5 :=
  (calculate_md5 md5_state hashlib_md5 md5_update md5_hexdigest).
Local Abbreviation copy_file :=
  (copy_file md5_state hashlib_md5 md5_update md5_hexdigest).
Local Abbreviation mirror_directory :=
  (mirror_directory md5_state hashlib_md5 md5_update md5_hexdigest).
Local Abbreviation downward_pass :=
  (downward_pass md5_state hashlib_md5 md5_update md5_hexdigest).
Local Abbreviation synchronize_folders :=
  (synchronize_folders md5_state hashlib_md5 md5_update md5_hexdigest).
Local Abbreviation copy_step :=
  (copy_step md5_state hashlib_md5 md5_update md5_hexdigest).
Local Abbreviation dir_pass :=
  (dir_pass md5_state hashlib_md5 md5_update md5_hexdigest).

(** The chunk loop of [calculate_md5] reads the whole file: fuel beyond the
    length of the data changes nothing. *)
Lemma length_substring_le n m s : String.length (substring n m s) <= m.
Proof.
  revert n m. induction s as [|c s IH]; intros [|n] [|m]; simpl; try lia.
  - specialize (IH 0 m). lia.
  - apply IH.
  - apply IH.
Qed.

Lemma read_chunks_fuel fuel1 : forall fuel2 rest h,
  String.length rest < fuel1 -> String.length rest < fuel2 ->
  read_chunks md5_state md5_update fuel1 rest h
  = read_chunks md5_state md5_update fuel2 rest h.
Proof.
  induction fuel1 as [|fuel1 IH]; intros [|fuel2] rest h H1 H2; try lia.
  cbn [read_chunks].
  destruct (String.eqb (substring 0 4096 rest) EmptyString) eqn:E; [reflexivity|].
  assert (Hne : rest <> EmptyString).
  { intros ->. discriminate. }
  assert (Hlen : String.length
                   (substring 4096 (String.length rest - 4096) rest)
                 < String.length rest).
  { pose proof (length_substring_le 4096 (String.length rest - 4096) rest).
    destruct rest; [congruence|]. simpl String.length in *. lia. }
  apply IH; lia.
Qed.

Section Directory.

(** The source directory [sr] with entries [es_s], the replica directory [rr]
    of the tree [R0]. *)
Variable S : option node.
Variable sr : list string.
Variable es_s : list (string * node).
Hypothesis at_sr : resolve sr S = Ok (Some (Dir es_s)).

Variable R0 : option node.
Variable rr : list string.
Variable e0 : list (string * node).
Hypothesis at_rr : resolve rr R0 = Ok (Some (Dir e0)).

Variable t : Z.

Lemma source_child a : a <> "." -> resolve (sr ++ [a]) S = Ok (lookup a es_s).
Proof.
  intros Ha. rewrite resolve_app, at_sr. simpl.
  apply String.eqb_neq in Ha. rewrite Ha. reflexivity.
Qed.

Lemma copy2_run a d m e L :
  a <> "." ->
  lookup a es_s = Some (File d m) ->
  (forall ec, lookup a e <> Some (Dir ec)) ->
  shutil_copy2 (at_ Source (sr ++ [a])) (at_ Replica (rr ++ [a]))
    (mk_world S (inst R0 rr e) L t None)
  = (Ok tt, mk_world S (inst R0 rr (set_entry a (Some (File d m)) e)) L t None).
Proof.
  intros Ha Hs He.
  unfold shutil_copy2, shutil_copyfile, bind, os_path_isdir, open_rb, open_wb,
    file_write, shutil_copystat, stat, write_entry. simpl.
  rewrite (inst_child _ _ _ at_rr _ _ Ha).
  destruct (lookup a e) as [[d' m'|ec]|] eqn:El;
    [ | exfalso; eapply He; reflexivity | ]; simpl;
    rewrite (source_child _ Ha), Hs; simpl;
    rewrite (inst_child _ _ _ at_rr _ _ Ha), El; simpl;
    rewrite !(inst_write _ _ _ at_rr _ _ _ Ha);
    rewrite (source_child _ Ha), Hs;
    rewrite (inst_child _ _ _ at_rr _ _ Ha), !set_set_some, lookup_set_same;
    rewrite !(inst_write _ _ _ at_rr _ _ _ Ha), !set_set_some;
    reflexivity.
Qed.

Arguments shutil_copy2 : simpl never.

Local Abbreviation in_world := (in_world S R0 rr t).

Lemma copy_file_run a d m e L :
  a <> "." ->
  lookup a es_s = Some (File d m) ->
  copy_file (at_ Source sr) (at_ Replica rr) a
    (mk_world S (inst R0 rr e) L t None)
  = in_world (copy_step sr rr es_s a (e, L)).
Proof.
  intros Ha Hs.
  unfold copy_file, copy_step, in_world, bind, os_path_exists, stat. simpl.
  rewrite (inst_child _ _ _ at_rr _ _ Ha).
  destruct (lookup a e) as [[d' m'|ec]|] eqn:El; simpl.
  - unfold calculate_md5, bind, open_rb, stat. simpl.
    rewrite (source_child _ Ha), Hs. simpl.
    rewrite (inst_child _ _ _ at_rr _ _ Ha), El. simpl.
    destruct (String.eqb (md5_of d) (md5_of d')); simpl; [reflexivity|].
    unfold os_path_join; simpl.
    rewrite (copy2_run a d m e L Ha Hs); [reflexivity|].
    intros ec. rewrite El. discriminate.
  - unfold calculate_md5, bind, open_rb, stat. simpl.
    rewrite (source_child _ Ha), Hs. simpl.
    rewrite (inst_child _ _ _ at_rr _ _ Ha), El. reflexivity.
  - unfold os_path_join; simpl.
    rewrite (copy2_run a d m e L Ha Hs), Hs; [reflexivity|].
    intros ec. rewrite El. discriminate.
Qed.

Lemma prune_entry_run files a e L :
  a <> "." ->
  prune_entry (at_ Replica rr) files a (mk_world S (inst R0 rr e) L t None)
  = in_world (prune_step rr files a (e, L)).
Proof.
  intros Ha. unfold prune_entry, prune_step, in_world.
  destruct (contains a files); simpl; [reflexivity|].
  unfold bind, os_remove, stat, write_entry. simpl.
  rewrite (inst_child _ _ _ at_rr _ _ Ha).
  destruct (lookup a e) as [[d' m'|ec]|] eqn:El; simpl; try reflexivity.
  rewrite (inst_write _ _ _ at_rr _ _ _ Ha). reflexivity.
Qed.

Lemma loop_run {A} (body : A -> M unit)
  (step : A -> dir_state -> result unit * dir_state) (P : A -> Prop) :
  (forall a e L, P a ->
     body a (mk_world S (inst R0 rr e) L t None) = in_world (step a (e, L))) ->
  forall xs e L, Forall P xs ->
    for_each xs body (mk_world S (inst R0 rr e) L t None)
    = in_world (run_steps step xs (e, L)).
Proof.
  intros Hbody xs. induction xs as [|x xs IH]; intros e L HP; simpl.
  - reflexivity.
  - inversion HP as [|? ? Hx Hxs]; subst.
    unfold bind. rewrite (Hbody _ _ _ Hx).
    destruct (step x (e, L)) as [[[]|ex] [e' L']]; simpl.
    + apply IH. assumption.
    + reflexivity.
Qed.

Lemma copy_step_other a x st r st' :
  a <> x -> copy_step sr rr es_s a st = (r, st') ->
  lookup x (fst st') = lookup x (fst st).
Proof.
  intros Hne. unfold copy_step.
  destruct (lookup a (fst st)) as [[d' m'|ec]|].
  - destruct (lookup a es_s) as [[d m|ec]|];
      [destruct (String.eqb (md5_of d) (md5_of d'))| |];
      intros H; injection H as <- <-; simpl; try reflexivity.
    apply lookup_set_other. assumption.
  - intros H; injection H as <- <-. reflexivity.
  - intros H; injection H as <- <-. simpl. apply lookup_set_other. assumption.
Qed.

Lemma copy_loop_other fs x : ~ In x fs -> forall st r st',
  run_steps (copy_step sr rr es_s) fs st = (r, st') ->
  lookup x (fst st') = lookup x (fst st).
Proof.
  induction fs as [|a fs IH]; intros Hx st r st'; simpl.
  - intros H. injection H as <- <-. reflexivity.
  - destruct (copy_step sr rr es_s a st) as [[[]|ex] st1] eqn:E; intros H.
    + rewrite (IH (fun h => Hx (or_intror h)) _ _ _ H).
      eapply copy_step_other; [|exact E]. intros ->. apply Hx. left.
      reflexivity.
    + injection H as <- <-. eapply copy_step_other; [|exact E].
      intros ->. apply Hx. left. reflexivity.
Qed.

Lemma mirror_directory_run e L :
  fresh_names (names es_s) = true ->
  lookup "." e = None ->
  rr = os_path_relpath (at_ Source sr) source ->
  mirror_directory (at_ Source sr) (dir_names es_s) (nondir_names es_s)
    (mk_world S (inst R0 rr e) L t None)
  = in_world (dir_pass sr rr es_s (e, L)).
Proof.
  intros Hf Hdot Hrr. unfold mirror_directory. rewrite <- Hrr.
  change (os_path_join replica rr) with (at_ Replica rr).
  unfold bind at 1. unfold os_path_exists, stat. simpl.
  rewrite (inst_dir _ _ _ at_rr). simpl. unfold bind at 1. simpl.
  unfold bind at 1.
  rewrite (loop_run _ (copy_step sr rr es_s)
             (fun a => a <> "." /\ exists d m, lookup a es_s = Some (File d m))).
  - unfold dir_pass.
    destruct (run_steps (copy_step sr rr es_s) (nondir_names es_s) (e, L))
      as [[[]|ex] [e1 L1]] eqn:E; unfold in_world at 1; simpl; [|reflexivity].
    unfold bind, os_listdir, stat. simpl. rewrite (inst_dir _ _ _ at_rr).
    apply (loop_run _ (prune_step rr (nondir_names es_s)) (fun a => a <> ".")).
    + intros a e' L' Ha. apply prune_entry_run. assumption.
    + apply Forall_forall. intros x Hx Hd. subst x.
      assert (Hl : lookup "." e1 = None).
      { rewrite <- Hdot.
        apply (copy_loop_other (nondir_names es_s) "." ) with (st := (e, L))
          (r := Ok tt) (st' := (e1, L1)); [|assumption].
        intros Hin. pose proof (source_files _ Hf) as Hs.
        rewrite Forall_forall in Hs. destruct (Hs _ Hin) as [Hne _].
        apply Hne. reflexivity. }
      apply lookup_None in Hl. contradiction.
  - intros a e' L' [Ha [d [m Hs]]]. eapply copy_file_run; eassumption.
  - apply source_files. assumption.
Qed.

End Directory.


(** ** One directory pass, on the entries *)

Section DirPass.

Variable sr rr : list string.
Variable es_s : list (string * node).
Hypothesis src_fresh : fresh_names (names es_s) = true.

Lemma prune_step_other files a x st r st' :
  a <> x -> prune_step rr files a st = (r, st') ->
  lookup x (fst st') = lookup x (fst st).
Proof.
  intros Hne. unfold prune_step. destruct (contains a files).
  - intros H; injection H as <- <-. reflexivity.
  - destruct (lookup a (fst st)) as [[d m|ec]|]; intros H;
      injection H as <- <-; simpl; try reflexivity.
    apply lookup_delete_other. assumption.
Qed.

(** Sub-directories are out of reach of both loops. *)
Lemma copy_step_dir a x c st r st' :
  copy_step sr rr es_s a st = (r, st') ->
  lookup x (fst st) = Some (Dir c) -> lookup x (fst st') = Some (Dir c).
Proof.
  intros H Hx. destruct (String.eqb a x) eqn:E.
  - apply String.eqb_eq in E. subst x. unfold copy_step in H.
    rewrite Hx in H. injection H as <- <-. assumption.
  - apply String.eqb_neq in E. rewrite (copy_step_other _ _ _ _ _ _ _ _ E H).
    assumption.
Qed.

Lemma prune_step_dir files a x c st r st' :
  prune_step rr files a st = (r, st') ->
  lookup x (fst st) = Some (Dir c) -> lookup x (fst st') = Some (Dir c).
Proof.
  intros H Hx. destruct (String.eqb a x) eqn:E.
  - apply String.eqb_eq in E. subst x. unfold prune_step in H.
    rewrite Hx in H. destruct (contains a files); injection H as <- <-;
      assumption.
  - apply String.eqb_neq in E. rewrite (prune_step_other _ _ _ _ _ _ E H).
    assumption.
Qed.

Lemma run_steps_inv {A} (step : A -> dir_state -> result unit * dir_state)
  (I : dir_state -> Prop) :
  (forall a st r st', step a st = (r, st') -> I st -> I st') ->
  forall xs st r st', run_steps step xs st = (r, st') -> I st -> I st'.
Proof.
  intros Hstep xs. induction xs as [|x xs IH]; intros st r st'; simpl.
  - intros H; injection H as <- <-. auto.
  - destruct (step x st) as [[[]|ex] st1] eqn:E; intros H HI.
    + eapply IH; [exact H|]. eapply Hstep; eassumption.
    + injection H as <- <-. eapply Hstep; eassumption.
Qed.

Lemma dir_pass_dir x c st r st' :
  dir_pass sr rr es_s st = (r, st') ->
  lookup x (fst st) = Some (Dir c) -> lookup x (fst st') = Some (Dir c).
Proof.
  unfold dir_pass.
  destruct (run_steps (copy_step sr rr es_s) (nondir_names es_s) st)
    as [[[]|ex] st1] eqn:E; intros H Hx.
  - eapply (run_steps_inv _ (fun s => lookup x (fst s) = Some (Dir c)));
      [| exact H |].
    + intros; eapply prune_step_dir; eassumption.
    + eapply (run_steps_inv _ (fun s => lookup x (fst s) = Some (Dir c)));
        [| exact E | exact Hx].
      intros; eapply copy_step_dir; eassumption.
  - injection H as <- <-.
    eapply (run_steps_inv _ (fun s => lookup x (fst s) = Some (Dir c)));
      [| exact E | exact Hx].
    intros; eapply copy_step_dir; eassumption.
Qed.

(** Freshness of the names of the replica directory is kept. *)
Lemma copy_step_fresh a st r st' :
  a <> "." -> copy_step sr rr es_s a st = (r, st') ->
  fresh_names (names (fst st)) = true -> fresh_names (names (fst st')) = true.
Proof.
  intros Ha. unfold copy_step.
  destruct (lookup a (fst st)) as [[d' m'|ec]|].
  - destruct (lookup a es_s) as [[d m|ec]|];
      [destruct (String.eqb (md5_of d) (md5_of d'))| |];
      intros H; injection H as <- <-; simpl; auto.
    apply fresh_set_entry; assumption.
  - intros H; injection H as <- <-. auto.
  - intros H; injection H as <- <-. simpl. apply fresh_set_entry; assumption.
Qed.

Lemma prune_step_fresh files a st r st' :
  prune_step rr files a st = (r, st') ->
  fresh_names (names (fst st)) = true -> fresh_names (names (fst st')) = true.
Proof.
  unfold prune_step. destruct (contains a files).
  - intros H; injection H as <- <-. auto.
  - destruct (lookup a (fst st)) as [[d m|ec]|]; intros H;
      injection H as <- <-; simpl; auto.
    rewrite !fresh_iff, names_delete. intros [H1 H2]. split.
    + apply NoDup_filter. assumption.
    + intros H. apply filter_In in H. tauto.
Qed.

Lemma copy_loop_fresh fs st r st' :
  Forall (fun a => a <> ".") fs ->
  run_steps (copy_step sr rr es_s) fs st = (r, st') ->
  fresh_names (names (fst st)) = true -> fresh_names (names (fst st')) = true.
Proof.
  revert st. induction fs as [|a fs IH]; intros st Hfs; simpl.
  - intros H; injection H as <- <-. auto.
  - inversion Hfs; subst.
    destruct (copy_step sr rr es_s a st) as [[[]|ex] st1] eqn:E; intros H HI.
    + eapply IH; eauto. eapply copy_step_fresh; eauto.
    + injection H as <- <-. eapply copy_step_fresh; eauto.
Qed.

Lemma dir_pass_fresh st r st' :
  dir_pass sr rr es_s st = (r, st') ->
  fresh_names (names (fst st)) = true -> fresh_names (names (fst st')) = true.
Proof.
  assert (Hnd : Forall (fun a => a <> ".") (nondir_names es_s)).
  { eapply Forall_impl; [|apply source_files; exact src_fresh].
    simpl. tauto. }
  unfold dir_pass.
  destruct (run_steps (copy_step sr rr es_s) (nondir_names es_s) st)
    as [[[]|ex] st1] eqn:E; intros H Hx.
  - eapply (run_steps_inv _ (fun s => fresh_names (names (fst s)) = true));
      [| exact H |].
    + intros; eapply prune_step_fresh; eassumption.
    + eapply copy_loop_fresh; eauto.
  - injection H as <- <-. eapply copy_loop_fresh; eauto.
Qed.

(** A file that was copied, or left alone, has the fingerprint of its source. *)
Lemma copy_step_ok a d m st st' :
  copy_step sr rr es_s a st = (Ok tt, st') ->
  lookup a es_s = Some (File d m) ->
  exists d' m', lookup a (fst st') = Some (File d' m') /\ md5_of d' = md5_of d.
Proof.
  unfold copy_step. intros H Hs. rewrite Hs in H.
  destruct (lookup a (fst st)) as [[d' m'|ec]|] eqn:El.
  - destruct (String.eqb (md5_of d) (md5_of d')) eqn:E; injection H as <-.
    + apply String.eqb_eq in E. eauto.
    + simpl. rewrite lookup_set_same. eauto.
  - discriminate.
  - injection H as <-. simpl. rewrite lookup_set_same. eauto.
Qed.

Lemma copy_step_raise a st ex st' :
  copy_step sr rr es_s a st = (Raise ex, st') ->
  ex = IsADirectoryError /\ st' = st.
Proof.
  unfold copy_step. destruct (lookup a (fst st)) as [[d' m'|ec]|].
  - destruct (lookup a es_s) as [[d m|ec]|];
      [destruct (String.eqb (md5_of d) (md5_of d'))| |]; discriminate.
  - intros H; injection H as <- <-. auto.
  - discriminate.
Qed.

Lemma copy_loop_raise fs st ex st' :
  run_steps (copy_step sr rr es_s) fs st = (Raise ex, st') ->
  ex = IsADirectoryError.
Proof.
  revert st. induction fs as [|a fs IH]; intros st; simpl; [discriminate|].
  destruct (copy_step sr rr es_s a st) as [[[]|e1] st1] eqn:E; intros H.
  - eapply IH; eauto.
  - injection H as <- <-. apply copy_step_raise in E. tauto.
Qed.

Lemma copy_loop_ok fs : forall st st',
  run_steps (copy_step sr rr es_s) fs st = (Ok tt, st') ->
  forall a d m, In a fs -> lookup a es_s = Some (File d m) ->
  exists d' m', lookup a (fst st') = Some (File d' m') /\ md5_of d' = md5_of d.
Proof.
  induction fs as [|b fs IH]; intros st st' H a d m Ha Hs; [contradiction|].
  simpl in H.
  destruct (copy_step sr rr es_s b st) as [[[]|ex] st1] eqn:E; [|discriminate].
  destruct (in_dec string_dec a fs) as [Hin|Hout].
  - eapply IH; eauto.
  - destruct Ha as [->|Ha]; [|contradiction].
    rewrite (copy_loop_other _ _ _ _ _ Hout _ _ _ H).
    eapply copy_step_ok; eauto.
Qed.

Lemma prune_loop_other files l x : ~ In x l -> forall st r st',
  run_steps (prune_step rr files) l st = (r, st') ->
  lookup x (fst st') = lookup x (fst st).
Proof.
  induction l as [|a l IH]; intros Hx st r st'; simpl.
  - intros H. injection H as <- <-. reflexivity.
  - assert (Hax : a <> x) by (intros ->; apply Hx; left; reflexivity).
    destruct (prune_step rr files a st) as [[[]|ex] st1] eqn:E; intros H.
    + rewrite (IH (fun h => Hx (or_intror h)) _ _ _ H).
      eapply prune_step_other; eauto.
    + injection H as <- <-. eapply prune_step_other; eauto.
Qed.

Lemma prune_loop_kept files l x : In x files -> forall st r st',
  run_steps (prune_step rr files) l st = (r, st') ->
  lookup x (fst st') = lookup x (fst st).
Proof.
  intros Hx. induction l as [|a l IH]; intros st r st'; simpl.
  - intros H. injection H as <- <-. reflexivity.
  - assert (Hstep : forall r1 st1, prune_step rr files a st = (r1, st1) ->
                      lookup x (fst st1) = lookup x (fst st)).
    { intros r1 st1 E. destruct (String.eqb a x) eqn:Eax.
      - apply String.eqb_eq in Eax. subst a. unfold prune_step in E.
        apply contains_In in Hx. rewrite Hx in E. injection E as <- <-.
        reflexivity.
      - apply String.eqb_neq in Eax. eapply prune_step_other; eauto. }
    destruct (prune_step rr files a st) as [[[]|ex] st1] eqn:E; intros H.
    + rewrite (IH _ _ _ H). eapply Hstep; eauto.
    + injection H as <- <-. eapply Hstep; eauto.
Qed.

Lemma prune_loop_gone files l : forall st st',
  run_steps (prune_step rr files) l st = (Ok tt, st') ->
  forall x, In x l -> ~ In x files -> lookup x (fst st') = None.
Proof.
  induction l as [|a l IH]; intros st st' H x Hx Hf; [contradiction|].
  simpl in H.
  destruct (prune_step rr files a st) as [[[]|ex] st1] eqn:E; [|discriminate].
  destruct (in_dec string_dec x l) as [Hin|Hout].
  - eapply IH; eauto.
  - destruct Hx as [->|Hx]; [|contradiction].
    rewrite (prune_loop_other _ _ _ Hout _ _ _ H).
    unfold prune_step in E. apply contains_false in Hf. rewrite Hf in E.
    destruct (lookup x (fst st)) as [[d m|ec]|]; try discriminate.
    injection E as <-. simpl. apply lookup_delete_same.
Qed.

Lemma prune_loop_raise files l : forall st ex st',
  NoDup l -> (forall x, In x l -> lookup x (fst st) <> None) ->
  run_steps (prune_step rr files) l st = (Raise ex, st') ->
  ex = IsADirectoryError.
Proof.
  induction l as [|a l IH]; intros st ex st' Hnd Hl; simpl; [discriminate|].
  inversion Hnd as [|? ? Ha Hnd']; subst.
  destruct (prune_step rr files a st) as [[[]|e1] st1] eqn:E; intros H.
  - eapply (IH st1); eauto. intros x Hx.
    assert (Hax : a <> x) by (intros ->; contradiction).
    rewrite (prune_step_other _ _ _ _ _ _ Hax E). apply Hl. right. assumption.
  - injection H as <- <-. unfold prune_step in E.
    destruct (contains a files); [discriminate|].
    destruct (lookup a (fst st)) as [[d m|ec]|] eqn:El; try discriminate.
    + injection E as <- <-. reflexivity.
    + exfalso. apply (Hl a); [left; reflexivity | assumption].
Qed.

(** What a directory pass that returns leaves in the replica directory. *)
Lemma dir_pass_ok st st' :
  dir_pass sr rr es_s st = (Ok tt, st') ->
  (forall a d m, lookup a es_s = Some (File d m) ->
     exists d' m',
       lookup a (fst st') = Some (File d' m') /\ md5_of d' = md5_of d)
  /\ (forall x, ~ In x (nondir_names es_s) -> lookup x (fst st') = None).
Proof.
  unfold dir_pass.
  destruct (run_steps (copy_step sr rr es_s) (nondir_names es_s) st)
    as [[[]|ex] st1] eqn:E; [|discriminate].
  intros H. split.
  - intros a d m Hs.
    assert (Ha : In a (nondir_names es_s)).
    { apply In_nondir_names. exists (File d m). split; [|reflexivity].
      apply lookup_In. assumption. }
    rewrite (prune_loop_kept _ _ _ Ha _ _ _ H).
    eapply copy_loop_ok; eauto.
  - intros x Hx. destruct (in_dec string_dec x (names (fst st1))) as [Hin|Hout].
    + eapply prune_loop_gone; eauto.
    + rewrite (prune_loop_other _ _ _ Hout _ _ _ H).
      apply lookup_None. assumption.
Qed.

(** A sub-directory in the replica directory makes the pass raise. *)
Lemma dir_pass_raises s c st :
  fresh_names (names (fst st)) = true ->
  lookup s (fst st) = Some (Dir c) ->
  exists st', dir_pass sr rr es_s st = (Raise IsADirectoryError, st').
Proof.
  intros Hf Hs.
  destruct (dir_pass sr rr es_s st) as [[[]|ex] st'] eqn:E.
  - exfalso. pose proof (dir_pass_dir _ _ _ _ _ E Hs) as Hd.
    destruct (dir_pass_ok _ _ E) as [H1 H2].
    destruct (in_dec string_dec s (nondir_names es_s)) as [Hin|Hout].
    + pose proof (source_files _ src_fresh) as Hsf.
      rewrite Forall_forall in Hsf.
      destruct (Hsf _ Hin) as [_ [d [m Hl]]].
      destruct (H1 _ _ _ Hl) as [d' [m' [Hl' _]]]. congruence.
    + rewrite (H2 _ Hout) in Hd. discriminate.
  - exists st'. f_equal. f_equal. unfold dir_pass in E.
    destruct (run_steps (copy_step sr rr es_s) (nondir_names es_s) st)
      as [[[]|e1] st1] eqn:E1.
    + eapply prune_loop_raise; [| |exact E].
      * apply fresh_NoDup.
        eapply (copy_loop_fresh (nondir_names es_s)); eauto.
        eapply Forall_impl; [|apply source_files; exact src_fresh].
        simpl. tauto.
      * intros x Hx Hn. apply lookup_None in Hn. contradiction.
    + injection E as <- <-. eapply copy_loop_raise; eauto.
Qed.

Lemma run_steps_app {A} (step : A -> dir_state -> result unit * dir_state)
  l1 l2 st :
  run_steps step (l1 ++ l2) st
  = match run_steps step l1 st with
    | (Ok _, st1) => run_steps step l2 st1
    | (Raise e, st1) => (Raise e, st1)
    end.
Proof.
  revert st. induction l1 as [|a l1 IH]; intros st; simpl; [reflexivity|].
  destruct (step a st) as [[[]|ex] st1]; [apply IH | reflexivity].
Qed.

Lemma prune_loop_skip files l st :
  (forall x, In x l -> In x files) ->
  run_steps (prune_step rr files) l st = (Ok tt, st).
Proof.
  induction l as [|a l IH]; intros H; simpl; [reflexivity|].
  unfold prune_step at 1.
  assert (Ha : contains a files = true)
    by (apply contains_In, H; left; reflexivity).
  rewrite Ha. apply IH. intros x Hx. apply H. right. assumption.
Qed.

(** The files of the source directory arrive in a directory that holds none
    of them. *)
Lemma copy_loop_new fl : forall acc L,
  (forall e, In e fl -> lookup (fst e) es_s = Some (snd e)) ->
  NoDup (names fl) ->
  (forall x, In x (names fl) -> lookup x acc = None) ->
  run_steps (copy_step sr rr es_s) (names fl) (acc, L)
  = (Ok tt, (acc ++ fl, L ++ map (copied_msg sr rr) (names fl))).
Proof.
  induction fl as [|[a n] fl IH]; intros acc L Hs Hnd Hacc; simpl.
  - rewrite !app_nil_r. reflexivity.
  - inversion Hnd as [|? ? Ha Hnd']; subst.
    unfold copy_step at 1. simpl.
    rewrite (Hacc a (or_introl eq_refl)).
    pose proof (Hs (a, n) (or_introl eq_refl)) as Hsa. simpl in Hsa.
    rewrite Hsa. unfold set_entry. rewrite (Hacc a (or_introl eq_refl)).
    rewrite IH.
    + rewrite <- !app_assoc. reflexivity.
    + intros e He. apply Hs. right. assumption.
    + assumption.
    + intros x Hx. rewrite lookup_app, (Hacc x (or_intror Hx)). simpl.
      destruct (String.eqb x a) eqn:E; [|reflexivity].
      apply String.eqb_eq in E. subst. contradiction.
Qed.

Lemma dir_pass_new L :
  dir_pass sr rr es_s ([], L)
  = (Ok tt,
     (file_entries es_s, L ++ map (copied_msg sr rr) (nondir_names es_s))).
Proof.
  unfold dir_pass. pose proof (fresh_NoDup _ src_fresh) as Hnd.
  change (nondir_names es_s) with (names (file_entries es_s)).
  rewrite copy_loop_new; simpl.
  - apply prune_loop_skip. auto.
  - intros e He. apply filter_In in He. destruct e as [a n].
    apply In_lookup; tauto.
  - apply NoDup_names_filter. assumption.
  - reflexivity.
Qed.

(** Nothing is copied to a directory whose files have the fingerprints of the
    source files. *)
Lemma copy_loop_same fs st :
  (forall a, In a fs ->
     exists d m d' m',
       lookup a es_s = Some (File d m)
       /\ lookup a (fst st) = Some (File d' m') /\ md5_of d' = md5_of d) ->
  run_steps (copy_step sr rr es_s) fs st = (Ok tt, st).
Proof.
  induction fs as [|a fs IH]; intros H; simpl; [reflexivity|].
  destruct (H a (or_introl eq_refl)) as [d [m [d' [m' [H1 [H2 H3]]]]]].
  unfold copy_step at 1. rewrite H1, H2, H3, String.eqb_refl.
  apply IH. intros x Hx. apply H. right. assumption.
Qed.

(** The copy loop returns when no source file has a directory for namesake. *)
Lemma copy_loop_returns fs :
  (forall a, In a fs -> In a (nondir_names es_s)) ->
  forall st,
    (forall a c', In a fs -> lookup a (fst st) <> Some (Dir c')) ->
    exists st1, run_steps (copy_step sr rr es_s) fs st = (Ok tt, st1).
Proof.
  induction fs as [|a fs IH]; intros Hfs st Hst; simpl; [eauto|].
  pose proof (source_files _ src_fresh) as Hsf. rewrite Forall_forall in Hsf.
  destruct (Hsf a (Hfs a (or_introl eq_refl))) as [_ [d [m Hl]]].
  assert (Hstep : exists st', copy_step sr rr es_s a st = (Ok tt, st')
                    /\ forall c', lookup a (fst st') <> Some (Dir c')).
  { unfold copy_step. rewrite Hl.
    destruct (lookup a (fst st)) as [[d' m'|ec]|] eqn:El.
    - destruct (String.eqb (md5_of d) (md5_of d')); eexists; split;
        try reflexivity; simpl; intros c'.
      + rewrite El. discriminate.
      + rewrite lookup_set_same. discriminate.
    - exfalso. apply (Hst a ec); [left; reflexivity | assumption].
    - eexists. split; [reflexivity|]. simpl. intros c'.
      rewrite lookup_set_same. discriminate. }
  destruct Hstep as [st' [Hs' Hd']]. rewrite Hs'. apply IH.
  - intros b Hb. apply Hfs. right. assumption.
  - intros b c' Hb. destruct (String.eqb a b) eqn:E.
    + apply String.eqb_eq in E. subst b. apply Hd'.
    + apply String.eqb_neq in E.
      rewrite (copy_step_other _ _ _ _ _ _ _ _ E Hs'). apply Hst. right.
      assumption.
Qed.

End DirPass.

(** ** The downward pass on a directory that the replica does not have *)


Lemma relpath_below r d :
  os_path_relpath (at_ Source (r ++ [d])) source = r ++ [d].
Proof. unfold os_path_relpath. simpl. destruct r; reflexivity. Qed.

Lemma inst_fresh_child R0 r0 e0 d e acc :
  resolve r0 R0 = Ok (Some (Dir e0)) -> d <> "." -> lookup d e = None ->
  resolve (r0 ++ [d]) (inst R0 r0 (e ++ [(d, Dir [])])) = Ok (Some (Dir []))
  /\ inst (inst R0 r0 (e ++ [(d, Dir [])])) (r0 ++ [d]) acc
     = inst R0 r0 (e ++ [(d, Dir acc)]).
Proof.
  intros Hw Hd He. split.
  - rewrite (inst_child _ _ _ Hw _ _ Hd), lookup_app, He. simpl.
    rewrite String.eqb_refl. reflexivity.
  - rewrite (inst_below _ _ _ Hw _ _ _ Hd). unfold set_entry.
    rewrite lookup_app, He. simpl. rewrite String.eqb_refl.
    rewrite replace_app_fresh by assumption. reflexivity.
Qed.

Lemma makedirs_child S t R0 r0 e0 d e L :
  resolve r0 R0 = Ok (Some (Dir e0)) -> d <> "." -> lookup d e = None ->
  os_makedirs (at_ Replica (r0 ++ [d])) (mk_world S (inst R0 r0 e) L t None)
  = (Ok tt, mk_world S (inst R0 r0 (e ++ [(d, Dir [])])) L t None).
Proof.
  intros Hw Hd He. unfold os_makedirs. simpl. rewrite rev_app_distr. simpl.
  unfold bind, os_path_exists, stat. simpl. rewrite rev_involutive.
  rewrite (inst_dir _ _ _ Hw). simpl.
  unfold os_mkdir, stat, write_entry. simpl.
  rewrite (inst_child _ _ _ Hw _ _ Hd), He.
  rewrite (inst_write _ _ _ Hw _ _ _ Hd). unfold set_entry. rewrite He.
  reflexivity.
Qed.

Local Abbreviation mirror_tail :=
  (fun root replica_root files =>
     for_each files (copy_file root replica_root) ;;
     listing <- os_listdir replica_root ;;
     for_each listing (prune_entry replica_root files)).

Lemma mirror_directory_split root dirs files w :
  mirror_directory root dirs files w
  = match stat (os_path_join replica (os_path_relpath root source)) w with
    | Ok (Some _) =>
        mirror_tail root (os_path_join replica (os_path_relpath root source))
          files w
    | _ =>
        match
          os_makedirs (os_path_join replica (os_path_relpath root source)) w
        with
        | (Ok _, w1) =>
            mirror_tail root
              (os_path_join replica (os_path_relpath root source)) files
              (snd (logger_info
                      (Created_directory
                         (os_path_join replica (os_path_relpath root source)))
                      w1))
        | (Raise e, w1) => (Raise e, w1)
        end
    end.
Proof.
  unfold mirror_directory, os_path_exists.
  unfold bind at 1.
  destruct (stat (os_path_join replica (os_path_relpath root source)) w)
    as [[n|]|ex]; try reflexivity;
    simpl; unfold bind at 1; unfold bind at 1;
    destruct (os_makedirs (os_path_join replica (os_path_relpath root source)) w)
      as [[[]|e1] w1]; reflexivity.
Qed.

Lemma mirror_directory_new S t R0 r0 e0 d es_s e L :
  resolve (r0 ++ [d]) S = Ok (Some (Dir es_s)) ->
  fresh_names (names es_s) = true ->
  resolve r0 R0 = Ok (Some (Dir e0)) -> d <> "." -> lookup d e = None ->
  mirror_directory (at_ Source (r0 ++ [d])) (dir_names es_s)
    (nondir_names es_s) (mk_world S (inst R0 r0 e) L t None)
  = (Ok tt,
     mk_world S (inst R0 r0 (e ++ [(d, Dir (file_entries es_s))]))
       (L ++ Created_directory (at_ Replica (r0 ++ [d]))
          :: map (copied_msg (r0 ++ [d]) (r0 ++ [d])) (nondir_names es_s))
       t None).
Proof.
  intros Hs Hf Hw Hd He.
  destruct (inst_fresh_child R0 r0 e0 d e [] Hw Hd He) as [Hnew _].
  pose proof (mirror_directory_run S (r0 ++ [d]) es_s Hs
                (inst R0 r0 (e ++ [(d, Dir [])])) (r0 ++ [d]) [] Hnew t []
                (L ++ [Created_directory (at_ Replica (r0 ++ [d]))]) Hf
                eq_refl (eq_sym (relpath_below r0 d))) as Hrun.
  rewrite dir_pass_new in Hrun by assumption.
  unfold in_world in Hrun. simpl in Hrun.
  rewrite (inst_start _ _ _ Hnew) in Hrun.
  destruct (inst_fresh_child R0 r0 e0 d e (file_entries es_s) Hw Hd He)
    as [_ Heq].
  rewrite Heq, <- app_assoc in Hrun. simpl in Hrun. rewrite <- Hrun.
  rewrite !mirror_directory_split, !relpath_below.
  change (os_path_join replica (r0 ++ [d])) with (at_ Replica (r0 ++ [d])).
  unfold stat. simpl.
  rewrite (inst_child _ _ _ Hw _ _ Hd), He, Hnew.
  rewrite (makedirs_child _ _ _ _ _ _ _ _ Hw Hd He). reflexivity.
Qed.

Section Children.

Variable S : option node.
Variable t : Z.
Variable k : nat.

(** The walk of one new directory with fuel [k], assumed for the
    sub-directories. *)
Hypothesis walk_k : forall R0 r0 e0 d es_s e L,
  resolve (r0 ++ [d]) S = Ok (Some (Dir es_s)) ->
  wf (Dir es_s) = true -> height (Dir es_s) <= k ->
  resolve r0 R0 = Ok (Some (Dir e0)) -> d <> "." -> lookup d e = None ->
  os_walk k (at_ Source (r0 ++ [d])) true mirror_directory
    (mk_world S (inst R0 r0 e) L t None)
  = (Ok tt,
     mk_world S (inst R0 r0 (e ++ [(d, mirror (Dir es_s))]))
       (L ++ mirror_log (r0 ++ [d]) (Dir es_s)) t None).

Lemma children_walk R0 p e0 :
  resolve p R0 = Ok (Some (Dir e0)) ->
  forall cl acc L,
    (forall c, In c cl ->
       fst c <> "."
       /\ exists es', snd c = Dir es' /\ wf (Dir es') = true
                      /\ height (Dir es') <= k
                      /\ resolve (p ++ [fst c]) S = Ok (Some (Dir es'))) ->
    NoDup (names cl) ->
    (forall x, In x (names cl) -> lookup x acc = None) ->
    for_each (names cl)
      (fun d => os_walk k (os_path_join (at_ Source p) [d]) true
                  mirror_directory)
      (mk_world S (inst R0 p acc) L t None)
    = (Ok tt,
       mk_world S
         (inst R0 p (acc ++ map (fun c => (fst c, mirror (snd c))) cl))
         (L ++ flat_map (fun c => mirror_log (p ++ [fst c]) (snd c)) cl)
         t None).
Proof.
  intros Hw cl. induction cl as [|[d n] cl IH]; intros acc L Hc Hnd Hacc.
  - simpl. rewrite !app_nil_r. reflexivity.
  - inversion Hnd as [|? ? Hd Hnd']; subst.
    destruct (Hc (d, n) (or_introl eq_refl))
      as [Hdot [es' [Hn [Hwf [Hh Hs]]]]].
    simpl in Hdot, Hn, Hs. subst n.
    cbn [names map for_each fst]. unfold bind.
    change (os_path_join (at_ Source p) [d]) with (at_ Source (p ++ [d])).
    rewrite (walk_k R0 p e0 d es' acc L Hs Hwf Hh Hw Hdot
               (Hacc d (or_introl eq_refl))).
    fold (names cl). rewrite IH.
    + cbn [map flat_map fst snd]. rewrite <- !app_assoc. reflexivity.
    + intros c Hin. apply Hc. right. assumption.
    + assumption.
    + intros x Hx. rewrite lookup_app, (Hacc x (or_intror Hx)). simpl.
      destruct (String.eqb x d) eqn:E; [|reflexivity].
      apply String.eqb_eq in E. subst. contradiction.
Qed.

End Children.

(** The sub-directories of a well-formed source directory, as the walk needs
    them. *)
Lemma source_dirs S p es k :
  resolve p S = Ok (Some (Dir es)) -> wf (Dir es) = true ->
  height (Dir es) <= Datatypes.S k ->
  forall c, In c (filter (fun e => is_dir (snd e)) es) ->
    fst c <> "."
    /\ exists es', snd c = Dir es' /\ wf (Dir es') = true
                   /\ height (Dir es') <= k
                   /\ resolve (p ++ [fst c]) S = Ok (Some (Dir es')).
Proof.
  intros Hs Hwf Hh [d n] Hin. apply filter_In in Hin. destruct Hin as [Hin Hd].
  simpl in Hd. destruct n as [|es']; [discriminate|]. cbn [fst snd].
  pose proof Hwf as Hwf'. apply wf_Dir in Hwf'. destruct Hwf' as [Hf Hall].
  assert (Hdot : d <> ".").
  { pose proof (fresh_nodot _ Hf) as Hnd. rewrite Forall_forall in Hnd.
    apply Hnd. change d with (fst (d, Dir es')). apply in_map. assumption. }
  assert (Hl : lookup d es = Some (Dir es')).
  { apply In_lookup; [apply fresh_NoDup|]; assumption. }
  split; [assumption|]. exists es'. split; [reflexivity|]. split.
  - exact (wf_child d (Dir es') es Hwf Hl).
  - split.
    + pose proof (height_child _ _ Hin) as Hlt. simpl snd in Hlt. lia.
    + rewrite (source_child _ _ _ Hs _ Hdot). rewrite Hl. reflexivity.
Qed.

Lemma file_dir_disjoint es x :
  fresh_names (names es) = true ->
  In x (dir_names es) -> lookup x (file_entries es) = None.
Proof.
  intros Hf Hx. apply lookup_None. intros Hin.
  apply In_dir_names in Hx. destruct Hx as [n [H1 H2]].
  apply (In_nondir_names x es) in Hin. destruct Hin as [n' [H3 H4]].
  pose proof (fresh_NoDup _ Hf) as Hnd.
  pose proof (In_lookup _ _ _ Hnd H1). pose proof (In_lookup _ _ _ Hnd H3).
  congruence.
Qed.

Lemma mirror_walk S t k : forall R0 r0 e0 d es_s e L,
  resolve (r0 ++ [d]) S = Ok (Some (Dir es_s)) ->
  wf (Dir es_s) = true -> height (Dir es_s) <= k ->
  resolve r0 R0 = Ok (Some (Dir e0)) -> d <> "." -> lookup d e = None ->
  os_walk k (at_ Source (r0 ++ [d])) true mirror_directory
    (mk_world S (inst R0 r0 e) L t None)
  = (Ok tt,
     mk_world S (inst R0 r0 (e ++ [(d, mirror (Dir es_s))]))
       (L ++ mirror_log (r0 ++ [d]) (Dir es_s)) t None).
Proof.
  induction k as [|k IH]; intros R0 r0 e0 d es_s e L Hs Hwf Hh Hw Hd He.
  - pose proof (height_Dir_pos es_s). lia.
  - rewrite os_walk_S. unfold scandir, stat. simpl. rewrite Hs.
    pose proof Hwf as Hwf'. apply wf_Dir in Hwf'. destruct Hwf' as [Hf Hall].
    unfold bind at 1.
    rewrite (mirror_directory_new _ _ _ _ _ _ _ _ _ Hs Hf Hw Hd He).
    destruct (inst_fresh_child R0 r0 e0 d e (file_entries es_s) Hw Hd He)
      as [Hnew Heq].
    rewrite <- Heq.
    rewrite (children_walk S t k IH _ _ _ Hnew
               (filter (fun e => is_dir (snd e)) es_s)).
    + f_equal.
      destruct (inst_fresh_child R0 r0 e0 d e
                  (file_entries es_s
                   ++ map (fun c => (fst c, mirror (snd c)))
                        (filter (fun e => is_dir (snd e)) es_s)) Hw Hd He)
        as [_ Heq2].
      rewrite Heq2, mirror_Dir, mirror_dirs_map, mirror_log_Dir.
      rewrite <- app_assoc. reflexivity.
    + apply (source_dirs S _ _ _ Hs Hwf Hh).
    + apply NoDup_names_filter, fresh_NoDup. assumption.
    + intros x Hx. apply file_dir_disjoint; assumption.
Qed.

(** ** The two passes from the roots *)

Lemma downward_pass_nodir S t f R L :
  (forall e, S <> Some (Dir e)) ->
  downward_pass (mk_world S R L t f) = (Ok tt, mk_world S R L t f).
Proof.
  intros HS. destruct S as [[d m|e]|]; try reflexivity.
  exfalso. apply (HS e). reflexivity.
Qed.

(** The log of the sub-directories of the source root. *)
Local Abbreviation below_log :=
  (fun es_s : list (string * node) =>
     flat_map (fun c => mirror_log [fst c] (snd c))
       (filter (fun e => is_dir (snd e)) es_s)).

Lemma downward_pass_dir es_s t e L :
  wf (Dir es_s) = true -> lookup "." e = None ->
  downward_pass (mk_world (Some (Dir es_s)) (Some (Dir e)) L t None)
  = match dir_pass [] ["."] es_s (e, L) with
    | (Ok _, (e1, L1)) =>
        (Ok tt,
         mk_world (Some (Dir es_s)) (Some (Dir (e1 ++ mirror_dirs es_s)))
           (L1 ++ below_log es_s) t None)
    | (Raise ex, (e1, L1)) =>
        (Raise ex, mk_world (Some (Dir es_s)) (Some (Dir e1)) L1 t None)
    end.
Proof.
  intros Hwf Hdot. unfold downward_pass, bind, walk_fuel, stat. simpl.
  rewrite os_walk_S. unfold scandir, stat. simpl. unfold bind at 1.
  pose proof Hwf as Hwf'. apply wf_Dir in Hwf'. destruct Hwf' as [Hf Hall].
  pose proof (mirror_directory_run (Some (Dir es_s)) [] es_s eq_refl
                (Some (Dir e)) ["."] e eq_refl t e L Hf Hdot eq_refl) as Hrun.
  rewrite inst_dot in Hrun. change (at_ Source []) with source in Hrun.
  rewrite Hrun. unfold in_world.
  destruct (dir_pass [] ["."] es_s (e, L)) as [[[]|ex] [e1 L1]] eqn:E;
    cbn [fst snd]; rewrite inst_dot; [|reflexivity].
  destruct (dir_pass_ok _ _ _ _ _ E) as [_ Hgone].
  pose proof (children_walk (Some (Dir es_s)) t (height (Dir es_s))
                (mirror_walk (Some (Dir es_s)) t (height (Dir es_s)))
                (Some (Dir e1)) [] e1 eq_refl
                (filter (fun e => is_dir (snd e)) es_s) e1 L1) as Hch.
  rewrite !inst_root in Hch. rewrite mirror_dirs_map.
  apply Hch.
  - apply (source_dirs (Some (Dir es_s)) [] es_s _ eq_refl Hwf).
    apply Nat.le_succ_diag_r.
  - apply NoDup_names_filter, fresh_NoDup. assumption.
  - intros x Hx. apply Hgone. cbn [fst]. intros Hin.
    pose proof (file_dir_disjoint es_s x Hf Hx) as Hl.
    apply lookup_None in Hl. contradiction.
Qed.

Lemma downward_pass_new es_s t L :
  wf (Dir es_s) = true ->
  downward_pass (mk_world (Some (Dir es_s)) None L t None)
  = (Ok tt,
     mk_world (Some (Dir es_s)) (Some (mirror (Dir es_s)))
       (L ++ Created_directory (at_ Replica ["."])
          :: map (copied_msg [] ["."]) (nondir_names es_s) ++ below_log es_s)
       t None).
Proof.
  intros Hwf.
  pose proof Hwf as Hwf'. apply wf_Dir in Hwf'. destruct Hwf' as [Hf Hall].
  pose proof (downward_pass_dir es_s t []
                (L ++ [Created_directory (at_ Replica ["."])]) Hwf eq_refl)
    as Hd.
  rewrite (dir_pass_new [] ["."] es_s Hf) in Hd.
  rewrite mirror_Dir. rewrite <- app_assoc in Hd. cbn [app] in Hd.
  rewrite <- app_assoc in Hd. cbn [app] in Hd. rewrite <- Hd.
  unfold downward_pass, bind, walk_fuel, stat. simpl.
  rewrite !os_walk_S. unfold scandir, stat. simpl. unfold bind.
  rewrite !mirror_directory_split. unfold stat. simpl. reflexivity.
Qed.

Lemma downward_pass_file es_s t d m L :
  downward_pass (mk_world (Some (Dir es_s)) (Some (File d m)) L t None)
  = (Raise NotADirectoryError,
     mk_world (Some (Dir es_s)) (Some (File d m)) L t None).
Proof.
  unfold downward_pass, bind, walk_fuel, stat. simpl.
  rewrite !os_walk_S. unfold scandir, stat. simpl. unfold bind at 1.
  rewrite !mirror_directory_split. unfold stat. simpl. reflexivity.
Qed.

(** ** The replica root after a pass that returned *)

Lemma prune_entries_app l1 l2 :
  prune_entries (l1 ++ l2) = prune_entries l1 ++ prune_entries l2.
Proof. unfold prune_entries. rewrite map_app, filter_app. reflexivity. Qed.

Lemma prune_entries_files l :
  (forall c, In c l -> is_dir (snd c) = false) -> prune_entries l = l.
Proof.
  unfold prune_entries. induction l as [|[k n] l IH]; intros H; [reflexivity|].
  pose proof (H (k, n) (or_introl eq_refl)) as Hn. simpl in Hn.
  destruct n as [d m|ec]; [|discriminate]. simpl.
  rewrite IH; [reflexivity|]. intros c Hc. apply H. right. assumption.
Qed.

Section Settled.

Variable es_s e1 : list (string * node).
Hypothesis src_wf : wf (Dir es_s) = true.
Hypothesis e1_settled : settled md5_of es_s e1.

Lemma src_fresh_names : fresh_names (names es_s) = true.
Proof. apply wf_Dir in src_wf. tauto. Qed.

Lemma settled_in_files a : In a (names e1) -> In a (nondir_names es_s).
Proof.
  intros Ha. destruct e1_settled as [_ [_ H3]].
  destruct (in_dec string_dec a (nondir_names es_s)) as [Hin|Hout];
    [assumption|].
  apply H3 in Hout. apply lookup_None in Hout. contradiction.
Qed.

Lemma settled_files c : In c e1 -> is_dir (snd c) = false.
Proof.
  intros Hc. destruct e1_settled as [H1 [H2 _]]. destruct c as [a n].
  pose proof (In_lookup _ _ _ (fresh_NoDup _ H1) Hc) as Hl.
  assert (Ha : In a (nondir_names es_s)).
  { apply settled_in_files. change a with (fst (a, n)). apply in_map.
    assumption. }
  pose proof (source_files _ src_fresh_names) as Hs.
  rewrite Forall_forall in Hs. destruct (Hs _ Ha) as [_ [d [m Hsl]]].
  destruct (H2 _ _ _ Hsl) as [d' [m' [Hl' _]]].
  rewrite Hl in Hl'. injection Hl' as ->. reflexivity.
Qed.

Lemma settled_dir_free x : In x (dir_names es_s) -> lookup x e1 = None.
Proof.
  intros Hx. destruct e1_settled as [_ [_ H3]]. apply H3. intros Hin.
  pose proof (file_dir_disjoint es_s x src_fresh_names Hx) as Hl.
  apply lookup_None in Hl. contradiction.
Qed.

Lemma settled_wf : wf (Dir (e1 ++ mirror_dirs es_s)) = true.
Proof.
  pose proof src_fresh_names as Hf. destruct e1_settled as [H1 _].
  apply wf_Dir. split.
  - apply fresh_iff in H1. destruct H1 as [Hnd1 Hdot1].
    apply fresh_iff in Hf. destruct Hf as [Hnd Hdot]. apply fresh_iff.
    rewrite names_app, mirror_dirs_map, (names_map_snd mirror). split.
    + apply NoDup_app; [assumption | apply NoDup_names_filter; assumption |].
      intros a Ha Hb. apply settled_dir_free in Hb. apply lookup_None in Hb.
      contradiction.
    + intros Hin. apply in_app_or in Hin. destruct Hin as [Hin|Hin];
        [contradiction|]. apply Hdot. unfold names in *.
      apply in_map_iff in Hin. destruct Hin as [x [Hx1 Hx2]].
      apply filter_In in Hx2. apply in_map_iff. exists x. tauto.
  - apply Forall_app. split.
    + apply Forall_forall. intros c Hc. pose proof (settled_files c Hc) as Hd.
      destruct c as [a [d m|ec]]; [reflexivity | discriminate].
    + pose proof (wf_mirror _ src_wf) as Hm. rewrite mirror_Dir in Hm.
      apply wf_Dir in Hm. destruct Hm as [_ Hm].
      apply Forall_app in Hm. tauto.
Qed.

Lemma settled_pruned :
  prune_entries (e1 ++ mirror_dirs es_s)
  = e1 ++ prune_entries (mirror_dirs es_s).
Proof.
  rewrite prune_entries_app, (prune_entries_files e1); [reflexivity|].
  apply settled_files.
Qed.

Lemma settled_lookup_dir s c :
  lookup s es_s = Some (Dir c) ->
  lookup s (e1 ++ mirror_dirs es_s) = Some (mirror (Dir c)).
Proof.
  intros Hl. rewrite lookup_app, settled_dir_free.
  - rewrite mirror_dirs_map, lookup_map_snd, lookup_filter, Hl; [reflexivity|].
    apply fresh_NoDup, src_fresh_names.
  - apply In_dir_names. exists (Dir c). split; [|reflexivity].
    apply lookup_In. assumption.
Qed.

(** The replica after the two passes, path by path. *)
Lemma settled_entry p :
  p <> [] ->
  mirrored_at md5_of (entry p (Dir es_s))
    (entry p (Dir (prune_entries (e1 ++ mirror_dirs es_s)))).
Proof.
  intros Hp. destruct p as [|s q]; [congruence|]. rewrite !entry_Dir.
  pose proof settled_wf as Hwf. apply wf_Dir in Hwf. destruct Hwf as [Hf _].
  rewrite lookup_prune_entries by (apply fresh_NoDup; assumption).
  destruct e1_settled as [H1 [H2 H3]].
  destruct (lookup s es_s) as [[d m|c]|] eqn:El.
  - destruct (H2 _ _ _ El) as [d' [m' [Hl' Hmd]]].
    rewrite lookup_app, Hl'. change (prune (File d' m')) with (File d' m').
    cbn [is_empty_dir]. destruct q as [|s' q']; simpl; eauto.
  - rewrite (settled_lookup_dir _ _ El), empty_prune, fileless_mirror.
    destruct (fileless (Dir c)) eqn:Ec.
    + destruct (entry q (Dir c)) as [x|] eqn:Ex; [|reflexivity].
      pose proof (fileless_below _ _ _ Ec Ex) as Hx.
      destruct x as [d m|ex]; [discriminate|]. unfold mirrored_at.
      rewrite Hx. reflexivity.
    + apply entry_pruned_mirror; [|assumption].
      eapply wf_child; eauto.
  - assert (Hn : lookup s (e1 ++ mirror_dirs es_s) = None).
    { rewrite lookup_app, H3.
      - rewrite mirror_dirs_map, lookup_map_snd, lookup_filter, El;
          [reflexivity|]. apply fresh_NoDup, src_fresh_names.
      - intros Hin. apply In_nondir_names in Hin.
        destruct Hin as [n [Hin _]].
        pose proof (In_lookup _ _ _ (fresh_NoDup _ src_fresh_names) Hin).
        congruence. }
    rewrite Hn. reflexivity.
Qed.

(** A directory pass on the replica root that the two passes left: nothing is
    copied, nothing is removed, and a sub-directory that is left makes it
    raise. *)
Lemma dir_pass_again sr rr L :
  dir_pass sr rr es_s (e1 ++ prune_entries (mirror_dirs es_s), L)
  = (match prune_entries (mirror_dirs es_s) with
     | [] => Ok tt
     | _ :: _ => Raise IsADirectoryError
     end,
     (e1 ++ prune_entries (mirror_dirs es_s), L)).
Proof.
  destruct e1_settled as [H1 [H2 H3]]. unfold dir_pass.
  rewrite copy_loop_same.
  - cbn [fst]. rewrite names_app, run_steps_app.
    rewrite prune_loop_skip by (intros x Hx; apply settled_in_files; exact Hx).
    pose proof (kept_entries es_s) as Hk.
    destruct (prune_entries (mirror_dirs es_s)) as [|[d c] kept];
      [reflexivity|].
    destruct (Hk (d, c) (or_introl eq_refl)) as [Hc Hd]. simpl in Hc, Hd.
    cbn [names map fst run_steps]. unfold prune_step at 1. cbn [fst].
    assert (Hnf : contains d (nondir_names es_s) = false).
    { apply contains_false. intros Hin.
      pose proof (file_dir_disjoint es_s d src_fresh_names Hd) as Hl.
      apply lookup_None in Hl. contradiction. }
    rewrite Hnf, lookup_app, (settled_dir_free d Hd). simpl.
    rewrite String.eqb_refl. destruct c as [dt m|ec]; [discriminate|].
    reflexivity.
  - intros a Ha. pose proof (source_files _ src_fresh_names) as Hs.
    rewrite Forall_forall in Hs. destruct (Hs _ Ha) as [_ [d [m Hl]]].
    destruct (H2 _ _ _ Hl) as [d' [m' [Hl' Hmd]]].
    exists d, m, d', m'. split; [assumption|]. split; [|assumption].
    cbn [fst]. rewrite lookup_app, Hl'. reflexivity.
Qed.

End Settled.

Lemma dir_pass_settled sr rr es_s e L e1 L1 :
  fresh_names (names es_s) = true -> fresh_names (names e) = true ->
  dir_pass sr rr es_s (e, L) = (Ok tt, (e1, L1)) ->
  settled md5_of es_s e1.
Proof.
  intros Hs He H. destruct (dir_pass_ok _ _ _ _ _ H) as [H2 H3].
  split; [|split; assumption].
  apply (dir_pass_fresh sr rr es_s Hs _ _ _ H). assumption.
Qed.

Lemma file_entries_settled es_s :
  fresh_names (names es_s) = true -> settled md5_of es_s (file_entries es_s).
Proof.
  intros Hf. pose proof (fresh_NoDup _ Hf) as Hnd. split; [|split].
  - apply fresh_iff. apply fresh_iff in Hf. destruct Hf as [_ Hdot]. split.
    + apply NoDup_names_filter. assumption.
    + intros Hin. apply Hdot. unfold names in *. apply in_map_iff in Hin.
      destruct Hin as [x [Hx1 Hx2]]. apply filter_In in Hx2.
      apply in_map_iff. exists x. tauto.
  - intros a d m Hl. exists d, m. split; [|reflexivity].
    unfold file_entries. rewrite lookup_filter, Hl by assumption. reflexivity.
  - intros x Hx. apply lookup_None. exact Hx.
Qed.

(** ** One call of [synchronize_folders] *)

Lemma synchronize_dir es_s t e L :
  wf (Dir es_s) = true -> wf (Dir e) = true ->
  synchronize_folders (mk_world (Some (Dir es_s)) (Some (Dir e)) L t None)
  = match dir_pass [] ["."] es_s (e, L) with
    | (Ok _, (e1, L1)) =>
        (Ok tt,
         mk_world (Some (Dir es_s))
           (Some (Dir (prune_entries (e1 ++ mirror_dirs es_s))))
           ((L1 ++ below_log es_s)
            ++ sweep_log [] (Dir (e1 ++ mirror_dirs es_s))) t None)
    | (Raise ex, (e1, L1)) =>
        (Raise ex, mk_world (Some (Dir es_s)) (Some (Dir e1)) L1 t None)
    end.
Proof.
  intros Hs He. pose proof Hs as Hs'. apply wf_Dir in Hs'.
  destruct Hs' as [Hfs _]. pose proof He as He'. apply wf_Dir in He'.
  destruct He' as [Hfe _].
  assert (Hdot : lookup "." e = None).
  { apply lookup_None. apply fresh_iff in Hfe. tauto. }
  unfold synchronize_folders, bind. rewrite (downward_pass_dir _ _ _ _ Hs Hdot).
  destruct (dir_pass [] ["."] es_s (e, L)) as [[[]|ex] [e1 L1]] eqn:E;
    [|reflexivity].
  apply upward_pass_dir. apply settled_wf; [assumption|].
  exact (dir_pass_settled [] ["."] es_s e L e1 L1 Hfs Hfe E).
Qed.

Lemma synchronize_new es_s t L :
  wf (Dir es_s) = true ->
  synchronize_folders (mk_world (Some (Dir es_s)) None L t None)
  = (Ok tt,
     mk_world (Some (Dir es_s))
       (Some (Dir (prune_entries (file_entries es_s ++ mirror_dirs es_s))))
       ((L ++ Created_directory (at_ Replica ["."])
           :: map (copied_msg [] ["."]) (nondir_names es_s) ++ below_log es_s)
        ++ sweep_log [] (Dir (file_entries es_s ++ mirror_dirs es_s))) t None).
Proof.
  intros Hs. unfold synchronize_folders, bind.
  rewrite (downward_pass_new _ _ _ Hs), mirror_Dir.
  apply upward_pass_dir. rewrite <- mirror_Dir. apply wf_mirror. assumption.
Qed.

Lemma synchronize_file es_s t d m L :
  synchronize_folders (mk_world (Some (Dir es_s)) (Some (File d m)) L t None)
  = (Raise NotADirectoryError,
     mk_world (Some (Dir es_s)) (Some (File d m)) L t None).
Proof.
  unfold synchronize_folders, bind. rewrite downward_pass_file. reflexivity.
Qed.

(** ** The claims

    The calls below run in worlds where no write fails ([io_fault] is [None])
    unless the statement names the failure. *)

(** C1, as amended.  When a call on a source directory returns, the replica
    is a directory that holds, path by path, a file with the fingerprint of
    the source file wherever the source has a file, a directory wherever the
    source has a directory with at least one file below it, and nothing
    anywhere else: source directories without any file are absent from the
    replica.  The source is left as it was. *)
Theorem convergence_up_to_fileless_directories es_s R L t w' :
  wf (Dir es_s) = true ->
  wf_opt R = true ->
  synchronize_folders (mk_world (Some (Dir es_s)) R L t None) = (Ok tt, w') ->
  fs_source w' = Some (Dir es_s)
  /\ exists e',
       fs_replica w' = Some (Dir e')
       /\ forall p, p <> [] ->
            mirrored_at md5_of (entry p (Dir es_s)) (entry p (Dir e')).
Proof.
  intros Hs HR Hrun. pose proof Hs as Hs'. apply wf_Dir in Hs'.
  destruct Hs' as [Hfs _]. destruct R as [[d m|e]|].
  - rewrite synchronize_file in Hrun. discriminate.
  - simpl in HR. rewrite (synchronize_dir _ _ _ _ Hs HR) in Hrun.
    destruct (dir_pass [] ["."] es_s (e, L)) as [[[]|ex] [e1 L1]] eqn:E;
      [|discriminate].
    injection Hrun as <-. split; [reflexivity|]. eexists. split; [reflexivity|].
    intros p Hp. apply settled_entry; [assumption | | assumption].
    apply wf_Dir in HR. destruct HR as [Hfe _].
    exact (dir_pass_settled [] ["."] es_s e L e1 L1 Hfs Hfe E).
  - rewrite (synchronize_new _ _ _ Hs) in Hrun. injection Hrun as <-.
    split; [reflexivity|]. eexists. split; [reflexivity|].
    intros p Hp. apply settled_entry; [assumption | | assumption].
    apply file_entries_settled. assumption.
Qed.

Lemma synchronize_missing R L t f :
  synchronize_folders (mk_world None R L t f)
  = upward_pass (mk_world None R L t f).
Proof.
  unfold synchronize_folders, bind.
  rewrite downward_pass_nodir by discriminate. reflexivity.
Qed.

(** C10.  When the source path does not exist the call returns normally: the
    only messages it logs are removals of empty directories, every file of the
    replica stays, and every empty directory below the replica root is gone. *)
Theorem missing_source_only_sweeps R L t f :
  wf_opt R = true ->
  exists w',
    synchronize_folders (mk_world None R L t f) = (Ok tt, w')
    /\ fs_source w' = None
    /\ (exists new,
          log w' = L ++ new /\ Forall (fun m => is_removed_empty m = true) new)
    /\ (forall p d m, entry_opt p R = Some (File d m) ->
          entry_opt p (fs_replica w') = Some (File d m))
    /\ (forall p, p <> [] -> entry_opt p R = Some (Dir []) ->
          entry_opt p (fs_replica w') = None).
Proof.
  intros HR. rewrite synchronize_missing. destruct R as [[d m|e]|].
  - eexists. split; [apply upward_pass_nodir; discriminate|].
    split; [reflexivity|]. split; [exists []; rewrite app_nil_r; auto|].
    split; [auto|]. intros p Hp He. simpl in He.
    rewrite entry_File in He by assumption. discriminate.
  - simpl in HR. eexists. split; [apply upward_pass_dir; assumption|].
    split; [reflexivity|]. split.
    + eexists. split; [reflexivity | apply sweep_log_removed].
    + rewrite <- prune_Dir. split.
      * intros p d m He. apply entry_prune_file; assumption.
      * intros p Hp He. eapply entry_prune_fileless; eauto.
  - eexists. split; [apply upward_pass_nodir; discriminate|].
    split; [reflexivity|]. split; [exists []; rewrite app_nil_r; auto|].
    split; [auto|]. intros p Hp He. discriminate.
Qed.

(** C6, as amended.  A missing source is not reported: the call returns
    normally and the replica is swept all the same; every file of the replica
    keeps its place and its content, every directory below the replica root
    that holds no file at any depth is removed. *)
Theorem missing_source_is_not_reported R L t f :
  wf_opt R = true ->
  exists w',
    synchronize_folders (mk_world None R L t f) = (Ok tt, w')
    /\ (forall p c, entry_opt p R = Some c -> fileless c = false ->
          entry_opt p (fs_replica w') = Some (prune c))
    /\ (forall p c, p <> [] -> entry_opt p R = Some c -> fileless c = true ->
          entry_opt p (fs_replica w') = None).
Proof.
  intros HR. rewrite synchronize_missing. destruct R as [[d m|e]|].
  - eexists. split; [apply upward_pass_nodir; discriminate|]. split.
    + intros p c He Hc. simpl in *. destruct p; [|discriminate].
      simpl in He. injection He as <-. reflexivity.
    + intros p c Hp He. simpl in He. rewrite entry_File in He by assumption.
      discriminate.
  - simpl in HR. eexists. split; [apply upward_pass_dir; assumption|].
    rewrite <- prune_Dir. split.
    + intros p c He Hc. apply entry_prune_kept; assumption.
    + intros p c Hp He Hc. eapply entry_prune_fileless; eauto.
  - eexists. split; [apply upward_pass_nodir; discriminate|].
    split; intros; discriminate.
Qed.

(** A call on the replica that an earlier call has left. *)
Lemma second_run es_s e1 L t r2 w2 :
  wf (Dir es_s) = true ->
  settled md5_of es_s e1 ->
  synchronize_folders
    (mk_world (Some (Dir es_s))
       (Some (Dir (prune_entries (e1 ++ mirror_dirs es_s)))) L t None)
  = (r2, w2) ->
  fs_replica w2 = Some (Dir (prune_entries (e1 ++ mirror_dirs es_s)))
  /\ exists new,
       log w2 = L ++ new
       /\ Forall (fun m => is_dir_event m = true) new
       /\ (forallb (fun c => negb (fileless (snd c))) es_s = true -> new = []).
Proof.
  intros Hs Hset Hrun.
  pose proof (settled_wf es_s e1 Hs Hset) as Hwf.
  pose proof (wf_prune _ Hwf) as Hwp. rewrite prune_Dir in Hwp.
  rewrite (synchronize_dir _ _ _ _ Hs Hwp) in Hrun.
  rewrite (settled_pruned es_s e1 Hs Hset) in *.
  rewrite (dir_pass_again es_s e1 Hs Hset) in Hrun.
  destruct (prune_entries (mirror_dirs es_s)) as [|x kept] eqn:Ek.
  - rewrite !app_nil_r in *.
    rewrite (settled_pruned es_s e1 Hs Hset), Ek, app_nil_r in Hrun.
    injection Hrun as <- <-. cbn [fs_replica log].
    split; [reflexivity|]. eexists. split; [rewrite <- app_assoc; reflexivity|].
    split.
    + apply Forall_app. split.
      * apply Forall_flat_map. apply Forall_forall. intros c Hc.
        apply mirror_log_fileless. apply (kept_none es_s Ek c Hc).
      * apply removed_is_dir_event, sweep_log_removed.
    + intros Hall.
      assert (Hnone : filter (fun e => is_dir (snd e)) es_s = []).
      { destruct (filter (fun e => is_dir (snd e)) es_s) as [|c l] eqn:Ef;
          [reflexivity|]. exfalso.
        assert (Hc : In c (filter (fun e => is_dir (snd e)) es_s))
          by (rewrite Ef; left; reflexivity).
        pose proof (kept_none es_s Ek c Hc) as Hfl.
        apply filter_In in Hc. destruct Hc as [Hc _].
        rewrite forallb_forall in Hall. specialize (Hall c Hc).
        rewrite Hfl in Hall. discriminate. }
      rewrite mirror_dirs_map, Hnone. simpl. rewrite app_nil_r.
      apply sweep_log_files. apply (settled_files es_s e1 Hs Hset).
  - injection Hrun as <- <-. cbn [fs_replica log]. split; [reflexivity|].
    exists []. rewrite app_nil_r. auto.
Qed.

Lemma resolve_child_inv r a o x :
  resolve (r ++ [a]) o = Ok x -> (forall c, x <> Some (Dir c)) ->
  a <> "." /\ exists e, resolve r o = Ok (Some (Dir e)) /\ lookup a e = x.
Proof.
  rewrite resolve_app. destruct (resolve r o) as [[[d m|e]|]|ex]; simpl;
    try discriminate.
  destruct (String.eqb a ".") eqn:E.
  - intros H Hx. injection H as <-. exfalso. apply (Hx e). reflexivity.
  - intros H _. injection H as <-. apply String.eqb_neq in E. eauto.
Qed.

(** One call of [copy_file], for a file [a] of a source directory and a
    replica path that names no directory: the file is copied, and the copy
    logged, when the replica has no file there or has one with another
    fingerprint; otherwise nothing happens. *)
Lemma copy_file_decision S R L t sr rr a d m x :
  resolve (sr ++ [a]) S = Ok (Some (File d m)) ->
  resolve (rr ++ [a]) R = Ok x ->
  (forall c, x <> Some (Dir c)) ->
  copy_file (at_ Source sr) (at_ Replica rr) a (mk_world S R L t None)
  = (Ok tt,
     match x with
     | Some (File d' _) =>
         if String.eqb (md5_of d) (md5_of d') then mk_world S R L t None
         else
           mk_world S (put_at (rr ++ [a]) (Some (File d m)) R)
             (L ++ [Copied (at_ Source (sr ++ [a])) (at_ Replica (rr ++ [a]))])
             t None
     | _ =>
         mk_world S (put_at (rr ++ [a]) (Some (File d m)) R)
           (L ++ [Copied (at_ Source (sr ++ [a])) (at_ Replica (rr ++ [a]))])
           t None
     end)
  /\ (forall m', x = Some (File d m') ->
        copy_file (at_ Source sr) (at_ Replica rr) a (mk_world S R L t None)
        = (Ok tt, mk_world S R L t None)).
Proof.
  intros Hs Hr Hx.
  destruct (resolve_child_inv _ _ _ _ Hs) as [Ha [es_s [Hsr Hsl]]];
    [discriminate|].
  destruct (resolve_child_inv _ _ _ _ Hr Hx) as [_ [e [Hrr Hrl]]].
  assert (Hrun := copy_file_run S sr es_s Hsr R rr e Hrr t a d m e L Ha Hsl).
  rewrite (inst_start _ _ _ Hrr) in Hrun.
  assert (Hput : inst R rr (set_entry a (Some (File d m)) e)
                 = put_at (rr ++ [a]) (Some (File d m)) R).
  { rewrite <- (inst_write _ _ _ Hrr e a _ Ha), (inst_start _ _ _ Hrr).
    reflexivity. }
  assert (Hmain :
    copy_file (at_ Source sr) (at_ Replica rr) a (mk_world S R L t None)
    = (Ok tt,
       match x with
       | Some (File d' _) =>
           if String.eqb (md5_of d) (md5_of d') then mk_world S R L t None
           else
             mk_world S (put_at (rr ++ [a]) (Some (File d m)) R)
               (L ++ [Copied (at_ Source (sr ++ [a]))
                        (at_ Replica (rr ++ [a]))]) t None
       | _ =>
           mk_world S (put_at (rr ++ [a]) (Some (File d m)) R)
             (L ++ [Copied (at_ Source (sr ++ [a])) (at_ Replica (rr ++ [a]))])
             t None
       end)).
  { rewrite Hrun. unfold copy_step, in_world. cbn [fst snd].
    rewrite Hrl, Hsl. destruct x as [[d' m'|c]|].
    - destruct (String.eqb (md5_of d) (md5_of d')); cbn [fst snd].
      + rewrite (inst_start _ _ _ Hrr). reflexivity.
      + rewrite Hput. reflexivity.
    - exfalso. apply (Hx c). reflexivity.
    - cbn [fst snd]. rewrite Hput. reflexivity. }
  split; [exact Hmain|].
  intros m' ->. rewrite Hmain, String.eqb_refl. reflexivity.
Qed.

(** C9, as amended.  The copy writes the replica file in place: when the
    device fails after [k] bytes of a longer source file, [shutil.copy2]
    raises and the replica path holds the first [k] bytes of the source file
    (none when [k] is 0), not what it held before. *)
Theorem failed_copy_leaves_partial_file S R L t sr rr a d m x k :
  resolve (sr ++ [a]) S = Ok (Some (File d m)) ->
  resolve (rr ++ [a]) R = Ok x ->
  (forall c, x <> Some (Dir c)) ->
  k < String.length d ->
  shutil_copy2 (at_ Source (sr ++ [a])) (at_ Replica (rr ++ [a]))
    (mk_world S R L t (Some k))
  = (Raise OSError,
     mk_world S (put_at (rr ++ [a]) (Some (File (substring 0 k d) t)) R) L t
       (Some k)).
Proof.
  intros Hs Hr Hx Hk.
  destruct (resolve_child_inv _ _ _ _ Hr Hx) as [Ha [e [Hrr Hrl]]].
  rewrite <- (inst_start _ _ _ Hrr) at 1.
  unfold shutil_copy2, shutil_copyfile, bind, os_path_isdir, open_rb, open_wb,
    file_write, stat, write_entry. simpl.
  rewrite (inst_child _ _ _ Hrr _ _ Ha), Hrl.
  assert (Hleb : Nat.leb (String.length d) k = false)
    by (apply Nat.leb_gt; assumption).
  destruct x as [[d' m'|c]|]; [ | exfalso; apply (Hx c); reflexivity | ];
    simpl; rewrite Hs; simpl;
    rewrite (inst_child _ _ _ Hrr _ _ Ha), Hrl; simpl; rewrite Hleb;
    rewrite !(inst_write _ _ _ Hrr _ _ _ Ha), set_set_some;
    rewrite <- (inst_write _ _ _ Hrr e a _ Ha), (inst_start _ _ _ Hrr);
    reflexivity.
Qed.

(** C4, on the code.  With a sub-directory [d] in the replica root, and no
    directory there under the name of a source file, the copy loop returns and
    the loop that removes what is not among the source files reaches [d] in
    the listing and raises [IsADirectoryError]; so does the call. *)
Theorem prune_loop_removes_a_directory es_s e L t d c :
  wf (Dir es_s) = true ->
  wf (Dir e) = true ->
  lookup d e = Some (Dir c) ->
  (forall a c', In a (nondir_names es_s) -> lookup a e <> Some (Dir c')) ->
  exists w1 listing w2,
    for_each (nondir_names es_s) (copy_file source (at_ Replica ["."]))
      (mk_world (Some (Dir es_s)) (Some (Dir e)) L t None)
    = (Ok tt, w1)
    /\ os_listdir (at_ Replica ["."]) w1 = (Ok listing, w1)
    /\ In d listing
    /\ for_each listing
         (prune_entry (at_ Replica ["."]) (nondir_names es_s)) w1
       = (Raise IsADirectoryError, w2)
    /\ synchronize_folders (mk_world (Some (Dir es_s)) (Some (Dir e)) L t None)
       = (Raise IsADirectoryError, w2).
Proof.
  intros Hs He Hd Hclash. pose proof Hs as Hs'. apply wf_Dir in Hs'.
  destruct Hs' as [Hfs _]. pose proof He as He'. apply wf_Dir in He'.
  destruct He' as [Hfe _].
  assert (Hroot : resolve ["."] (Some (Dir e)) = Ok (Some (Dir e)))
    by reflexivity.
  destruct (copy_loop_returns [] ["."] es_s Hfs (nondir_names es_s)
              (fun a h => h) (e, L) Hclash) as [[e1 L1] Hcopy].
  destruct (dir_pass_raises [] ["."] es_s Hfs d c (e, L) Hfe Hd)
    as [[e2 L2] Hpass].
  pose proof Hpass as Hprune. unfold dir_pass in Hprune.
  rewrite Hcopy in Hprune. cbn [fst] in Hprune.
  assert (Hd1 : lookup d e1 = Some (Dir c)).
  { apply (run_steps_inv (copy_step [] ["."] es_s)
             (fun s => lookup d (fst s) = Some (Dir c))
             (fun a st r st' H => copy_step_dir [] ["."] es_s a d c st r st' H)
             _ _ _ _ Hcopy Hd). }
  assert (Hdot1 : forall x, In x (names e1) -> x <> ".").
  { pose proof (copy_loop_fresh [] ["."] es_s (nondir_names es_s) (e, L)
                  (Ok tt) (e1, L1)) as Hf1.
    assert (Hnd : Forall (fun a => a <> ".") (nondir_names es_s)).
    { eapply Forall_impl; [|apply source_files; exact Hfs]. simpl. tauto. }
    specialize (Hf1 Hnd Hcopy Hfe). apply fresh_nodot in Hf1.
    rewrite Forall_forall in Hf1. exact Hf1. }
  exists (mk_world (Some (Dir es_s)) (Some (Dir e1)) L1 t None), (names e1),
    (mk_world (Some (Dir es_s)) (Some (Dir e2)) L2 t None).
  split; [|split; [|split; [|split]]].
  - rewrite <- (inst_dot e e) at 1.
    rewrite (loop_run (Some (Dir es_s)) (Some (Dir e)) ["."] t _
               (copy_step [] ["."] es_s)
               (fun a => a <> "."
                         /\ exists d0 m0, lookup a es_s = Some (File d0 m0))).
    + rewrite Hcopy. reflexivity.
    + intros a e' L' [Ha [d0 [m0 Hl]]].
      exact (copy_file_run (Some (Dir es_s)) [] es_s eq_refl (Some (Dir e))
               ["."] e Hroot t a d0 m0 e' L' Ha Hl).
    + apply source_files. assumption.
  - reflexivity.
  - apply lookup_In in Hd1. change d with (fst (d, Dir c)). apply in_map.
    assumption.
  - rewrite <- (inst_dot e e1) at 1.
    rewrite (loop_run (Some (Dir es_s)) (Some (Dir e)) ["."] t _
               (prune_step ["."] (nondir_names es_s)) (fun a => a <> ".")).
    + rewrite Hprune. reflexivity.
    + intros a e' L' Ha.
      exact (prune_entry_run (Some (Dir es_s)) (Some (Dir e)) ["."] e Hroot t
               (nondir_names es_s) a e' L' Ha).
    + apply Forall_forall. exact Hdot1.
  - rewrite (synchronize_dir _ _ _ _ Hs He), Hpass. reflexivity.
Qed.

Lemma synchronize_raises_on_subdirectory es_s e L t s c :
  wf (Dir es_s) = true -> wf (Dir e) = true ->
  lookup s e = Some (Dir c) ->
  exists e1 L1,
    synchronize_folders (mk_world (Some (Dir es_s)) (Some (Dir e)) L t None)
    = (Raise IsADirectoryError,
       mk_world (Some (Dir es_s)) (Some (Dir e1)) L1 t None)
    /\ lookup s e1 = Some (Dir c).
Proof.
  intros Hs He Hl. pose proof Hs as Hs'. apply wf_Dir in Hs'.
  destruct Hs' as [Hfs _]. pose proof He as He'. apply wf_Dir in He'.
  destruct He' as [Hfe _].
  destruct (dir_pass_raises [] ["."] es_s Hfs s c (e, L) Hfe Hl)
    as [[e1 L1] Hpass].
  exists e1, L1. rewrite (synchronize_dir _ _ _ _ Hs He), Hpass.
  split; [reflexivity|].
  exact (dir_pass_dir [] ["."] es_s s c (e, L) _ (e1, L1) Hpass Hl).
Qed.

(** C2, as amended.  A file that lies inside a replica directory with no
    directory of the source at the same path is left where it is, with its
    content, by the call, whether the call returns or raises. *)
Theorem replica_only_subtree_is_kept S R L t r w' p q d m :
  wf_opt S = true ->
  wf_opt R = true ->
  synchronize_folders (mk_world S R L t None) = (r, w') ->
  (forall es, entry_opt p S <> Some (Dir es)) ->
  q <> [] ->
  entry_opt (p ++ q) R = Some (File d m) ->
  entry_opt (p ++ q) (fs_replica w') = Some (File d m).
Proof.
  intros HS HR Hrun Hp Hq Hfile.
  destruct R as [[dr mr|e]|]; try discriminate.
  { simpl in Hfile. rewrite entry_File in Hfile; [discriminate|].
    destruct p; [assumption | discriminate]. }
  simpl in HR.
  assert (Hsweep : (forall es, S <> Some (Dir es)) ->
                   entry_opt (p ++ q) (fs_replica w') = Some (File d m)).
  { intros Hnd. unfold synchronize_folders, bind in Hrun.
    rewrite (downward_pass_nodir _ _ _ _ _ Hnd) in Hrun.
    rewrite (upward_pass_dir _ _ _ _ _ HR) in Hrun. injection Hrun as <- <-.
    cbn [fs_replica entry_opt]. rewrite <- prune_Dir.
    apply entry_prune_file; assumption. }
  destruct S as [[ds ms|es_s]|]; try (apply Hsweep; discriminate).
  simpl in HS. destruct p as [|s p'].
  { exfalso. apply (Hp es_s). reflexivity. }
  cbn [entry_opt app] in Hfile. rewrite entry_Dir in Hfile.
  destruct (lookup s e) as [c|] eqn:El; [|discriminate].
  destruct c as [dc mc|ec].
  { rewrite entry_File in Hfile; [discriminate|].
    destruct p'; [assumption | discriminate]. }
  destruct (synchronize_raises_on_subdirectory es_s e L t s ec HS HR El)
    as [e1 [L1 [Hr Hl1]]].
  rewrite Hr in Hrun. injection Hrun as <- <-.
  cbn [fs_replica entry_opt app]. rewrite entry_Dir, Hl1. exact Hfile.
Qed.

(** C5, as amended.  An error on one entry is not contained: when the replica
    root exists and the copy of a file of the source root raises, the call
    raises the same exception and leaves the world as that copy left it; the
    files after it are not looked at, nothing is removed and the upward pass
    does not run. *)
Theorem entry_error_aborts_the_pass es_s e L t f xs a ys ex w1 w2 :
  nondir_names es_s = xs ++ a :: ys ->
  for_each xs (copy_file source (at_ Replica ["."]))
    (mk_world (Some (Dir es_s)) (Some (Dir e)) L t f) = (Ok tt, w1) ->
  copy_file source (at_ Replica ["."]) a w1 = (Raise ex, w2) ->
  synchronize_folders (mk_world (Some (Dir es_s)) (Some (Dir e)) L t f)
  = (Raise ex, w2).
Proof.
  intros Hfiles Hxs Ha.
  unfold synchronize_folders, downward_pass. unfold bind at 1 2.
  unfold walk_fuel, stat. simpl. rewrite os_walk_S. unfold scandir, stat.
  simpl. unfold bind at 1. rewrite mirror_directory_split. unfold stat. simpl.
  unfold bind at 1. rewrite Hfiles.
  change (os_path_join replica (os_path_relpath source source))
    with (at_ Replica ["."]).
  rewrite for_each_app, Hxs. cbn [for_each].
  unfold bind at 1. rewrite Ha. reflexivity.
Qed.

(** ** Further properties: what a call never touches *)

Lemma same_frame_refl w : same_frame w w.
Proof.
  repeat split. exists []. rewrite app_nil_r. reflexivity.
Qed.

Lemma same_frame_trans w1 w2 w3 :
  same_frame w1 w2 -> same_frame w2 w3 -> same_frame w1 w3.
Proof.
  intros [A1 [A2 [A3 [n1 A4]]]] [B1 [B2 [B3 [n2 B4]]]].
  repeat split; try congruence.
  exists (n1 ++ n2). rewrite B4, A4, app_assoc. reflexivity.
Qed.

Lemma same_frame_write p y w :
  root_of p = Replica -> same_frame w (write_entry p y w).
Proof.
  intros Hp. unfold write_entry. rewrite Hp. simpl.
  repeat split. exists []. rewrite app_nil_r. reflexivity.
Qed.

Lemma framed_ret {A} (a : A) : framed (ret a).
Proof. intros w. apply same_frame_refl. Qed.

Lemma framed_bind {A B} (m : M A) (k : A -> M B) :
  framed m -> (forall a, framed (k a)) -> framed (bind m k).
Proof.
  intros Hm Hk w. unfold bind. specialize (Hm w).
  destruct (m w) as [[a|e] w1]; simpl in Hm; [|assumption].
  eapply same_frame_trans; [exact Hm | apply Hk].
Qed.

Lemma framed_for_each {A} (xs : list A) (body : A -> M unit) :
  (forall x, framed (body x)) -> framed (for_each xs body).
Proof.
  intros Hb. induction xs as [|x xs IH]; simpl.
  - apply framed_ret.
  - apply framed_bind; [apply Hb | intros _; exact IH].
Qed.

Lemma framed_when b (m : M unit) : framed m -> framed (when b m).
Proof. intros Hm. destruct b; [exact Hm | apply framed_ret]. Qed.

Ltac frame_call :=
  let w := fresh "w" in
  intros w;
  repeat match goal with
         | |- context [match ?x with _ => _ end] => destruct x
         end;
  simpl;
  first [ apply same_frame_refl | apply same_frame_write; assumption ].

Lemma framed_exists p : framed (os_path_exists p).
Proof. unfold os_path_exists. frame_call. Qed.

Lemma framed_isdir p : framed (os_path_isdir p).
Proof. unfold os_path_isdir. frame_call. Qed.

Lemma framed_listdir p : framed (os_listdir p).
Proof. unfold os_listdir. frame_call. Qed.

Lemma framed_open_rb p : framed (open_rb p).
Proof. unfold open_rb. frame_call. Qed.

Lemma framed_mkdir p : root_of p = Replica -> framed (os_mkdir p).
Proof. intros Hp. unfold os_mkdir. frame_call. Qed.

Lemma framed_remove p : root_of p = Replica -> framed (os_remove p).
Proof. intros Hp. unfold os_remove. frame_call. Qed.

Lemma framed_rmdir p : root_of p = Replica -> framed (os_rmdir p).
Proof. intros Hp. unfold os_rmdir. frame_call. Qed.

Lemma framed_open_wb p : root_of p = Replica -> framed (open_wb p).
Proof. intros Hp. unfold open_wb. frame_call. Qed.

Lemma framed_file_write p data :
  root_of p = Replica -> framed (file_write p data).
Proof. intros Hp. unfold file_write. frame_call. Qed.

Lemma framed_copystat src dst :
  root_of dst = Replica -> framed (shutil_copystat src dst).
Proof. intros Hp. unfold shutil_copystat. frame_call. Qed.

Lemma framed_logger m : framed (logger_info m).
Proof.
  intros w. unfold logger_info, same_frame. simpl.
  split; [reflexivity|]. split; [reflexivity|]. split; [reflexivity|].
  exists [m]. reflexivity.
Qed.

Lemma framed_copy2 src dst :
  root_of dst = Replica -> framed (shutil_copy2 src dst).
Proof.
  intros Hp. unfold shutil_copy2, shutil_copyfile.
  apply framed_bind; [apply framed_isdir|]. intros d.
  assert (Hd : root_of (if d then os_path_join dst [os_path_basename src]
                        else dst) = Replica).
  { destruct d; simpl; assumption. }
  apply framed_bind.
  - apply framed_bind; [apply framed_open_rb|]. intros data.
    apply framed_bind; [apply framed_open_wb; assumption|]. intros _.
    apply framed_file_write. assumption.
  - intros _. apply framed_copystat. assumption.
Qed.

Lemma framed_makedirs_rev rname : framed (makedirs_rev Replica rname).
Proof.
  induction rname as [|tl rhead IH]; simpl.
  - apply framed_mkdir. reflexivity.
  - apply framed_bind; [apply framed_exists|]. intros [|]; simpl.
    + apply framed_mkdir. reflexivity.
    + intros w. specialize (IH w).
      destruct (makedirs_rev Replica rhead w) as [[[]|e] w1]; simpl in IH.
      * destruct (String.eqb tl "."); simpl; [assumption|].
        eapply same_frame_trans; [exact IH|].
        apply framed_mkdir. reflexivity.
      * destruct e; simpl; try assumption.
        destruct (String.eqb tl "."); simpl; [assumption|].
        eapply same_frame_trans; [exact IH|].
        apply framed_mkdir. reflexivity.
Qed.

Lemma framed_makedirs p : root_of p = Replica -> framed (os_makedirs p).
Proof. intros Hp. unfold os_makedirs. rewrite Hp. apply framed_makedirs_rev. Qed.

Lemma framed_walk_fuel p : framed (walk_fuel p).
Proof. unfold walk_fuel. frame_call. Qed.

Lemma framed_os_walk fuel : forall top topdown body,
  (forall r dirs files, root_of r = root_of top ->
     framed (body r dirs files)) ->
  framed (os_walk fuel top topdown body).
Proof.
  induction fuel as [|k IH]; intros top topdown body Hb w.
  - apply same_frame_refl.
  - rewrite os_walk_S. destruct (scandir top w) as [[dirs nondirs]|];
      [|apply same_frame_refl].
    destruct topdown.
    + apply (framed_bind (body top dirs nondirs)); [apply Hb; reflexivity|].
      intros _. apply framed_for_each. intros d. apply IH.
      intros r ds fs Hr. apply Hb. exact Hr.
    + apply (framed_bind
               (for_each dirs
                  (fun d => os_walk k (os_path_join top [d]) false body))).
      * apply framed_for_each. intros d. apply IH.
        intros r ds fs Hr. apply Hb. exact Hr.
      * intros _. apply Hb. reflexivity.
Qed.

Lemma framed_calculate_md5 p : framed (calculate_md5 p).
Proof.
  unfold calculate_md5. apply framed_bind; [apply framed_open_rb|].
  intros data. apply framed_ret.
Qed.

Lemma framed_copy_file root replica_root a :
  root_of replica_root = Replica -> framed (copy_file root replica_root a).
Proof.
  intros Hp. unfold copy_file.
  apply framed_bind; [apply framed_exists|]. intros present.
  apply framed_bind.
  - destruct present; simpl; [|apply framed_ret].
    apply framed_bind; [apply framed_calculate_md5|]. intros x.
    apply framed_bind; [apply framed_calculate_md5|]. intros y.
    apply framed_ret.
  - intros differs. apply framed_when.
    apply framed_bind; [apply framed_copy2; exact Hp|]. intros _.
    apply framed_logger.
Qed.

Lemma framed_mirror_directory root dirs files :
  framed (mirror_directory root dirs files).
Proof.
  unfold mirror_directory.
  apply framed_bind; [apply framed_exists|]. intros present.
  apply framed_bind.
  - apply framed_when. apply framed_bind; [apply framed_makedirs; reflexivity|].
    intros _. apply framed_logger.
  - intros _. apply framed_bind.
    + apply framed_for_each. intros a. apply framed_copy_file. reflexivity.
    + intros _. apply framed_bind; [apply framed_listdir|]. intros listing.
      apply framed_for_each. intros a. unfold prune_entry.
      apply framed_when. apply framed_bind; [apply framed_remove; reflexivity|].
      intros _. apply framed_logger.
Qed.

Lemma framed_cleanup_directory root dirs files :
  root_of root = Replica -> framed (cleanup_directory root dirs files).
Proof.
  intros Hr. unfold cleanup_directory. apply framed_for_each. intros d.
  unfold remove_empty. apply framed_bind; [apply framed_listdir|].
  intros listing. apply framed_when.
  apply framed_bind; [apply framed_rmdir; exact Hr|]. intros _.
  apply framed_logger.
Qed.

Lemma synchronize_framed : framed synchronize_folders.
Proof.
  unfold synchronize_folders. apply framed_bind.
  - unfold downward_pass. apply framed_bind; [apply framed_walk_fuel|].
    intros fuel. apply framed_os_walk. intros r dirs files _.
    apply framed_mirror_directory.
  - intros _. unfold upward_pass.
    apply framed_bind; [apply framed_walk_fuel|].
    intros fuel. apply framed_os_walk. intros r dirs files Hr.
    apply framed_cleanup_directory. exact Hr.
Qed.

(** X1.  For a source and a replica that are separate trees, neither inside
    the other, as the two trees of the world are: whatever they hold,
    whatever the device does, and whether the call returns or raises, every
    write of the call goes to a path of the replica; the source tree, the
    clock and the device are as before the call, and the log is the log
    before the call with lines added at its end. *)
Theorem synchronize_never_writes_the_source w :
  same_frame w (snd (synchronize_folders w)).
Proof. apply synchronize_framed. Qed.

(** ** Further properties: the digest *)

Lemma append_empty_r s : String.append s EmptyString = s.
Proof. induction s as [|c s IH]; simpl; [|rewrite IH]; reflexivity. Qed.

Lemma substring_all s : substring 0 (String.length s) s = s.
Proof. induction s as [|c s IH]; simpl; [|rewrite IH]; reflexivity. Qed.

Lemma substring_split s : forall n,
  String.append (substring 0 n s) (substring n (String.length s - n) s) = s.
Proof.
  induction s as [|c s IH]; intros [|n]; simpl; try reflexivity.
  - rewrite substring_all. reflexivity.
  - rewrite IH. reflexivity.
Qed.

Lemma substring_head_empty n s :
  substring 0 (Datatypes.S n) s = EmptyString -> s = EmptyString.
Proof. destruct s; [reflexivity | discriminate]. Qed.

Section Concatenation.

(** [hashlib]: feeding two strings one after the other is feeding their
    concatenation. *)
Hypothesis update_concat : forall h a b,
  md5_update (md5_update h a) b = md5_update h (String.append a b).

Lemma read_chunks_whole fuel : forall rest h,
  String.length rest < fuel -> rest <> EmptyString ->
  read_chunks md5_state md5_update fuel rest h = md5_update h rest.
Proof.
  induction fuel as [|fuel IH]; intros rest h Hlen Hne; [lia|].
  cbn [read_chunks].
  destruct (String.eqb (substring 0 4096 rest) EmptyString) eqn:E.
  - apply String.eqb_eq in E. apply substring_head_empty in E. contradiction.
  - pose proof (substring_split rest 4096) as Hsplit.
    pose proof (length_substring_le 4096 (String.length rest - 4096) rest)
      as Hle.
    assert (Hlt : String.length
                    (substring 4096 (String.length rest - 4096) rest)
                  < fuel).
    { destruct rest; [congruence|]. simpl String.length in *. lia. }
    destruct (substring 4096 (String.length rest - 4096) rest) as [|c s]
      eqn:Er.
    + rewrite append_empty_r in Hsplit. rewrite Hsplit.
      destruct fuel; reflexivity.
    + rewrite IH; [|exact Hlt|discriminate].
      rewrite update_concat, Hsplit. reflexivity.
Qed.

(** X2.  Reading a file in chunks of 4096 bytes gives the digest of the file
    fed to the hash in one piece; for an empty file the hash is fed nothing.
    The call leaves the world as it is. *)
Theorem calculate_md5_is_the_digest_of_the_file p w data m :
  stat p w = Ok (Some (File data m)) ->
  calculate_md5 p w
  = (Ok (md5_hexdigest
           match data with
           | EmptyString => hashlib_md5
           | String _ _ => md5_update hashlib_md5 data
           end), w).
Proof.
  intros Hp. unfold calculate_md5, bind, open_rb. rewrite Hp. unfold ret.
  f_equal. f_equal. unfold md5_of. f_equal.
  destruct data as [|c s]; [reflexivity|].
  apply read_chunks_whole; [lia | discriminate].
Qed.

End Concatenation.

(** ** Further properties: the loops on the replica root, exactly *)

Lemma names_set_some a n cur :
  names (set_entry a (Some n) cur)
  = match lookup a cur with Some _ => names cur | None => names cur ++ [a] end.
Proof.
  unfold set_entry. destruct (lookup a cur).
  - apply names_replace.
  - rewrite names_app. reflexivity.
Qed.

Section ExactLoops.

Variable sr rr : list string.
Variable es_s : list (string * node).
Hypothesis src_fresh : fresh_names (names es_s) = true.

Local Abbreviation copied_entries :=
  (fun (e : list (string * node)) (fs : list string)
       (cur : list (string * node)) =>
     fold_left (fun acc a => set_entry a (lookup a es_s) acc)
       (filter (needs_copy md5_of es_s e) fs) cur).

Lemma copy_loop_exact e fs : forall cur L,
  NoDup fs ->
  (forall a, In a fs -> In a (nondir_names es_s)) ->
  (forall a, In a fs -> lookup a cur = lookup a e) ->
  (forall a c, In a fs -> lookup a e <> Some (Dir c)) ->
  run_steps (copy_step sr rr es_s) fs (cur, L)
  = (Ok tt,
     (copied_entries e fs cur,
      L ++ map (copied_msg sr rr) (filter (needs_copy md5_of es_s e) fs))).
Proof.
  induction fs as [|a fs IH]; intros cur L Hnd Hfs Hcur Hdir.
  - simpl. rewrite app_nil_r. reflexivity.
  - inversion Hnd as [|? ? Ha Hnd']; subst.
    pose proof (source_files _ src_fresh) as Hsf. rewrite Forall_forall in Hsf.
    destruct (Hsf a (Hfs a (or_introl eq_refl))) as [_ [d [m Hl]]].
    assert (Hrest : forall cur', (forall b, b <> a ->
                       lookup b cur' = lookup b cur) ->
                     forall b, In b fs -> lookup b cur' = lookup b e).
    { intros cur' Hc b Hb. rewrite Hc; [apply Hcur; right; assumption|].
      intros ->. contradiction. }
    assert (Hfs' : forall b, In b fs -> In b (nondir_names es_s))
      by (intros b Hb; apply Hfs; right; assumption).
    assert (Hdir' : forall b c, In b fs -> lookup b e <> Some (Dir c))
      by (intros b c Hb; apply Hdir; right; assumption).
    pose proof (Hcur a (or_introl eq_refl)) as Hca.
    cbn [run_steps filter]. unfold copy_step at 1. cbn [fst snd].
    rewrite Hca, Hl.
    destruct (lookup a e) as [[d' m'|c]|] eqn:El.
    + assert (En : needs_copy md5_of es_s e a
                   = negb (String.eqb (md5_of d) (md5_of d')))
        by (unfold needs_copy; rewrite El, Hl; reflexivity).
      rewrite En. destruct (String.eqb (md5_of d) (md5_of d')); cbn [negb].
      * apply (IH cur L Hnd' Hfs'); [|assumption].
        intros b Hb. apply Hcur. right. assumption.
      * rewrite (IH _ _ Hnd' Hfs'); [| |assumption].
        -- cbn [fold_left map]. rewrite Hl, <- app_assoc. reflexivity.
        -- apply Hrest. intros b Hb. apply lookup_set_other. congruence.
    + exfalso. apply (Hdir a c); [left; reflexivity | assumption].
    + assert (En : needs_copy md5_of es_s e a = true)
        by (unfold needs_copy; rewrite El; reflexivity).
      rewrite En. rewrite (IH _ _ Hnd' Hfs'); [| |assumption].
      * cbn [fold_left map]. rewrite Hl, <- app_assoc. reflexivity.
      * apply Hrest. intros b Hb. apply lookup_set_other. congruence.
Qed.

Lemma copied_entries_lookup e fs : forall cur x,
  (forall a, In a fs -> exists d m, lookup a es_s = Some (File d m)) ->
  lookup x (copied_entries e fs cur)
  = if existsb (String.eqb x) (filter (needs_copy md5_of es_s e) fs)
    then lookup x es_s else lookup x cur.
Proof.
  induction fs as [|a fs IH]; intros cur x Hfs; [reflexivity|].
  cbn [filter]. destruct (needs_copy md5_of es_s e a) eqn:En.
  - cbn [fold_left existsb]. rewrite IH by (intros b Hb; apply Hfs; right;
                                            assumption).
    destruct (existsb (String.eqb x) (filter (needs_copy md5_of es_s e) fs));
      [rewrite orb_true_r; reflexivity|].
    rewrite orb_false_r. destruct (String.eqb x a) eqn:E.
    + apply String.eqb_eq in E. subst. apply lookup_set_same.
    + apply String.eqb_neq in E. apply lookup_set_other. congruence.
  - apply IH. intros b Hb. apply Hfs. right. assumption.
Qed.

Lemma copied_entries_stale e fs : forall cur,
  (forall a, In a fs -> In a (nondir_names es_s)) ->
  filter (stale (nondir_names es_s)) (names (copied_entries e fs cur))
  = filter (stale (nondir_names es_s)) (names cur).
Proof.
  induction fs as [|a fs IH]; intros cur Hfs; [reflexivity|].
  cbn [filter]. destruct (needs_copy md5_of es_s e a) eqn:En.
  - cbn [fold_left]. rewrite IH by (intros b Hb; apply Hfs; right; assumption).
    pose proof (source_files _ src_fresh) as Hsf. rewrite Forall_forall in Hsf.
    destruct (Hsf a (Hfs a (or_introl eq_refl))) as [_ [d [m Hl]]].
    rewrite Hl, names_set_some. destruct (lookup a cur); [reflexivity|].
    rewrite filter_app. cbn [filter].
    assert (Hc : stale (nondir_names es_s) a = false).
    { unfold stale. apply negb_false_iff, contains_In, Hfs. left.
      reflexivity. }
    rewrite Hc, app_nil_r. reflexivity.
  - apply IH. intros b Hb. apply Hfs. right. assumption.
Qed.

Lemma prune_loop_exact files l : forall cur L,
  NoDup l ->
  (forall x, In x l -> stale files x = true ->
     exists d m, lookup x cur = Some (File d m)) ->
  run_steps (prune_step rr files) l (cur, L)
  = (Ok tt,
     (fold_left (fun acc x => delete_entry x acc) (filter (stale files) l) cur,
      L ++ map (removed_file_msg rr) (filter (stale files) l))).
Proof.
  induction l as [|a l IH]; intros cur L Hnd Hl.
  - simpl. rewrite app_nil_r. reflexivity.
  - inversion Hnd as [|? ? Ha Hnd']; subst.
    cbn [run_steps filter]. unfold prune_step at 1. cbn [fst snd].
    assert (Es : stale files a = negb (contains a files)) by reflexivity.
    rewrite Es. destruct (contains a files) eqn:Ec; cbn [negb].
    + apply IH; [assumption|]. intros x Hx. apply Hl. right. assumption.
    + destruct (Hl a (or_introl eq_refl)) as [d [m Hla]].
      { unfold stale. rewrite Ec. reflexivity. }
      rewrite Hla. rewrite IH; [| assumption |].
      * cbn [fold_left map]. rewrite <- app_assoc. reflexivity.
      * intros x Hx Hs. rewrite lookup_delete_other.
        -- apply Hl; [right|]; assumption.
        -- intros ->. contradiction.
Qed.

Lemma deleted_lookup l : forall cur x,
  lookup x (fold_left (fun acc y => delete_entry y acc) l cur)
  = if existsb (String.eqb x) l then None else lookup x cur.
Proof.
  induction l as [|a l IH]; intros cur x; [reflexivity|].
  cbn [fold_left existsb]. rewrite IH.
  destruct (existsb (String.eqb x) l); [rewrite orb_true_r; reflexivity|].
  rewrite orb_false_r. destruct (String.eqb x a) eqn:E.
  - apply String.eqb_eq in E. subst. apply lookup_delete_same.
  - apply String.eqb_neq in E. apply lookup_delete_other. congruence.
Qed.

Lemma existsb_eqb_In x l : existsb (String.eqb x) l = true <-> In x l.
Proof. apply (contains_In x l). Qed.

Lemma existsb_eqb_filter f x l :
  existsb (String.eqb x) (filter f l) = f x && contains x l.
Proof.
  destruct (existsb (String.eqb x) (filter f l)) eqn:E.
  - apply existsb_eqb_In, filter_In in E. destruct E as [Hin Hf].
    apply contains_In in Hin. rewrite Hf, Hin. reflexivity.
  - destruct (f x) eqn:Ef; [|reflexivity].
    destruct (contains x l) eqn:Ec; [|reflexivity].
    apply contains_In in Ec.
    assert (H : existsb (String.eqb x) (filter f l) = true)
      by (apply existsb_eqb_In, filter_In; split; assumption).
    congruence.
Qed.

Lemma dir_pass_exact e L :
  fresh_names (names e) = true ->
  (forall c, In c e -> is_dir (snd c) = false) ->
  exists e1,
    dir_pass sr rr es_s (e, L)
    = (Ok tt,
       (e1,
        L ++ map (copied_msg sr rr)
               (filter (needs_copy md5_of es_s e) (nondir_names es_s))
          ++ map (removed_file_msg rr)
               (filter (stale (nondir_names es_s)) (names e))))
    /\ forall x,
         lookup x e1
         = if contains x (nondir_names es_s)
           then if needs_copy md5_of es_s e x then lookup x es_s
                else lookup x e
           else None.
Proof.
  intros He Hfiles.
  pose proof (source_files _ src_fresh) as Hsf. rewrite Forall_forall in Hsf.
  assert (Hnd : NoDup (nondir_names es_s))
    by (apply NoDup_names_filter, fresh_NoDup, src_fresh).
  assert (Hnodir : forall a c, lookup a e <> Some (Dir c)).
  { intros a c Hl. apply lookup_In, Hfiles in Hl. discriminate. }
  assert (Hsrc : forall a, In a (nondir_names es_s) ->
                   exists d m, lookup a es_s = Some (File d m))
    by (intros a Ha; apply (Hsf a Ha)).
  pose proof (copy_loop_exact e (nondir_names es_s) e L Hnd
                (fun a H => H) (fun a _ => eq_refl)
                (fun a c _ => Hnodir a c)) as Hcopy.
  set (ec := fold_left (fun acc a => set_entry a (lookup a es_s) acc)
               (filter (needs_copy md5_of es_s e) (nondir_names es_s)) e)
    in *.
  assert (Hlec : forall x,
            lookup x ec
            = if needs_copy md5_of es_s e x && contains x (nondir_names es_s)
              then lookup x es_s else lookup x e).
  { intros x. unfold ec. rewrite copied_entries_lookup by assumption.
    rewrite existsb_eqb_filter. reflexivity. }
  assert (Hstale : filter (stale (nondir_names es_s)) (names ec)
                   = filter (stale (nondir_names es_s)) (names e))
    by (apply copied_entries_stale; auto).
  assert (Hfec : fresh_names (names ec) = true).
  { refine (copy_loop_fresh sr rr es_s _ _ _ _ _ Hcopy He).
    apply Forall_forall. intros a Ha. apply (Hsf a Ha). }
  unfold dir_pass. rewrite Hcopy. cbn [fst].
  rewrite prune_loop_exact.
  - rewrite Hstale, <- app_assoc. eexists. split; [reflexivity|].
    intros x. rewrite deleted_lookup, existsb_eqb_filter, Hlec.
    unfold stale. destruct (contains x (nondir_names es_s)) eqn:Ec.
    + cbn [negb andb]. rewrite andb_true_r. reflexivity.
    + cbn [negb andb]. rewrite andb_false_r.
      destruct (contains x (names e)) eqn:En; [reflexivity|].
      apply lookup_None. intros Hin. apply contains_In in Hin. congruence.
  - apply fresh_NoDup. assumption.
  - intros x Hx Hs.
    assert (Hin : In x (filter (stale (nondir_names es_s)) (names ec)))
      by (apply filter_In; split; assumption).
    rewrite Hstale in Hin. apply filter_In in Hin. destruct Hin as [Hin _].
    rewrite Hlec. unfold stale in Hs. apply negb_true_iff in Hs.
    rewrite Hs, andb_false_r.
    destruct (lookup x e) as [[d m|c]|] eqn:El.
    + eauto.
    + exfalso. apply (Hnodir x c El).
    + apply lookup_None in El. contradiction.
Qed.

End ExactLoops.

Lemma sweep_log_skip_files r e1 es :
  (forall c, In c e1 -> is_dir (snd c) = false) ->
  sweep_log r (Dir (e1 ++ es)) = sweep_log r (Dir es).
Proof.
  intros Hf. rewrite !sweep_log_Dir, filter_app, !flat_map_app.
  assert (H1 : filter (fun e => is_dir (snd e)) e1 = []).
  { induction e1 as [|c e1 IH]; [reflexivity|]. cbn [filter].
    rewrite (Hf c (or_introl eq_refl)). apply IH. intros c' Hc'. apply Hf.
    right. assumption. }
  assert (H2 : flat_map (removal r) e1 = []).
  { clear H1. induction e1 as [|c e1 IH]; [reflexivity|]. cbn [flat_map].
    rewrite IH by (intros c' Hc'; apply Hf; right; assumption).
    pose proof (Hf c (or_introl eq_refl)) as Hc. unfold removal.
    destruct c as [k [d m|c]]; [reflexivity | discriminate]. }
  rewrite H1, H2. reflexivity.
Qed.

Lemma entry_prune_inv q : forall n d m,
  wf n = true -> entry q (prune n) = Some (File d m) ->
  entry q n = Some (File d m).
Proof.
  induction q as [|s q IH]; intros n d m Hwf He.
  - destruct n as [d' m'|es]; [exact He|].
    rewrite prune_Dir in He. discriminate.
  - destruct n as [d' m'|es]; [discriminate|].
    rewrite prune_Dir, entry_Dir in He. rewrite entry_Dir.
    pose proof Hwf as Hwf'. apply wf_Dir in Hwf'. destruct Hwf' as [Hf _].
    rewrite lookup_prune_entries in He by (apply fresh_NoDup; assumption).
    destruct (lookup s es) as [c|] eqn:El; [|discriminate].
    destruct (is_empty_dir (prune c)); [discriminate|].
    apply IH; [eapply wf_child; eauto | assumption].
Qed.

Lemma entry_mirror q : forall n,
  wf n = true -> entry q (mirror n) = option_map mirror (entry q n).
Proof.
  induction q as [|s q IH]; intros n Hwf; [reflexivity|].
  destruct n as [d m|es]; [reflexivity|].
  rewrite mirror_Dir, !entry_Dir.
  pose proof Hwf as Hwf'. apply wf_Dir in Hwf'. destruct Hwf' as [Hf _].
  rewrite lookup_mirrored by (apply fresh_NoDup; assumption).
  destruct (lookup s es) as [c|] eqn:El; [|reflexivity].
  apply IH. eapply wf_child; eauto.
Qed.

Lemma entry_pruned_mirror_file q n d m :
  wf n = true ->
  entry q (prune (mirror n)) = Some (File d m)
  <-> entry q n = Some (File d m).
Proof.
  intros Hwf. pose proof (wf_mirror _ Hwf) as Hwm. split; intros H.
  - apply entry_prune_inv in H; [|assumption].
    rewrite entry_mirror in H by assumption.
    destruct (entry q n) as [[d' m'|c]|]; [exact H| |discriminate].
    cbn [option_map] in H. rewrite mirror_Dir in H. discriminate.
  - apply entry_prune_file; [assumption|].
    rewrite entry_mirror, H by assumption. reflexivity.
Qed.

(** X5.  A call with a source directory and no replica returns and creates
    the replica; afterwards the replica holds a regular file at a path
    exactly where the source does, with the bytes and the modification time
    of the source file. *)
Theorem first_pass_into_a_missing_replica es_s L t :
  wf (Dir es_s) = true ->
  exists R' L',
    synchronize_folders (mk_world (Some (Dir es_s)) None L t None)
    = (Ok tt, mk_world (Some (Dir es_s)) (Some R') L' t None)
    /\ forall p d m,
         entry p R' = Some (File d m)
         <-> entry p (Dir es_s) = Some (File d m).
Proof.
  intros Hwf. rewrite synchronize_new by assumption.
  rewrite <- prune_Dir, <- mirror_Dir. eexists. eexists.
  split; [reflexivity|]. intros p d m.
  apply entry_pruned_mirror_file. assumption.
Qed.

Lemma lookup_source_file a es d m :
  lookup a es = Some (File d m) -> contains a (nondir_names es) = true.
Proof.
  intros Hl. apply contains_In, In_nondir_names. exists (File d m).
  split; [apply lookup_In; assumption | reflexivity].
Qed.

Lemma lookup_source_other a es :
  NoDup (names es) ->
  (forall d m, lookup a es <> Some (File d m)) ->
  contains a (nondir_names es) = false.
Proof.
  intros Hnd Hl. destruct (contains a (nondir_names es)) eqn:E; [|reflexivity].
  apply contains_In, In_nondir_names in E. destruct E as [n [Hin Hn]].
  apply In_lookup in Hin; [|assumption].
  destruct n as [d m|c]; [|discriminate]. exfalso. apply (Hl d m Hin).
Qed.

Lemma flat_root e :
  no_subdirectory (Some (Dir e)) = true ->
  forall c, In c e -> is_dir (snd c) = false.
Proof.
  cbn [no_subdirectory]. intros H c Hc. rewrite forallb_forall in H.
  apply negb_true_iff, H. assumption.
Qed.

Lemma flat_root_pass es_s e L t :
  wf (Dir es_s) = true -> wf (Dir e) = true ->
  no_subdirectory (Some (Dir e)) = true ->
  exists e',
    synchronize_folders (mk_world (Some (Dir es_s)) (Some (Dir e)) L t None)
    = (Ok tt,
       mk_world (Some (Dir es_s)) (Some (Dir e'))
         (L ++ pass_report md5_of es_s e) t None)
    /\ forall a, lookup a e' = root_after md5_of es_s e a.
Proof.
  intros Hs He Hflat. pose proof (flat_root _ Hflat) as Hfiles.
  pose proof Hs as Hs'. apply wf_Dir in Hs'. destruct Hs' as [Hfs _].
  pose proof He as He'. apply wf_Dir in He'. destruct He' as [Hfe _].
  pose proof (fresh_NoDup _ Hfs) as Hnd.
  destruct (dir_pass_exact [] ["."] es_s Hfs e L Hfe Hfiles)
    as [e1 [Hpass Hl1]].
  pose proof (dir_pass_settled _ _ _ _ _ _ _ Hfs Hfe Hpass) as Hset.
  rewrite synchronize_dir, Hpass by assumption.
  exists (prune_entries (e1 ++ mirror_dirs es_s)). split.
  - f_equal. f_equal. unfold pass_report.
    rewrite (sweep_log_skip_files [] e1)
      by (apply (settled_files es_s e1 Hs Hset)).
    rewrite <- !app_assoc. reflexivity.
  - intros a. pose proof (settled_wf es_s e1 Hs Hset) as Hw.
    apply wf_Dir in Hw. destruct Hw as [Hw _].
    rewrite lookup_prune_entries by (apply fresh_NoDup; assumption).
    unfold root_after. destruct (lookup a es_s) as [[d m|c]|] eqn:El.
    + rewrite lookup_app, Hl1, (lookup_source_file _ _ _ _ El), El.
      destruct (needs_copy md5_of es_s e a) eqn:En; [reflexivity|].
      unfold needs_copy in En. rewrite El in En.
      destruct (lookup a e) as [[d' m'|c']|] eqn:Ee;
        [reflexivity | | discriminate].
      apply lookup_In, Hfiles in Ee. discriminate.
    + rewrite (settled_lookup_dir es_s e1 Hs Hset a c El).
      rewrite empty_prune, fileless_mirror. reflexivity.
    + rewrite lookup_app, Hl1, lookup_source_other;
        [| assumption | intros d m; congruence].
      rewrite mirror_dirs_map, lookup_map_snd, lookup_filter, El
        by assumption.
      reflexivity.
Qed.


(** X3.  How a call with a source directory ends is decided by the replica
    root alone: it returns when the replica is missing or its root has no
    sub-directory, raises NotADirectoryError when the replica path names a
    file, and raises IsADirectoryError when the replica root has a
    sub-directory. *)
Theorem outcome_is_decided_by_the_replica_root es_s R L t :
  wf (Dir es_s) = true -> wf_opt R = true ->
  fst (synchronize_folders (mk_world (Some (Dir es_s)) R L t None))
  = match R with
    | None => Ok tt
    | Some (File _ _) => Raise NotADirectoryError
    | Some (Dir _) =>
        if no_subdirectory R then Ok tt else Raise IsADirectoryError
    end.
Proof.
  intros Hs HR. destruct R as [[d m|e]|].
  - rewrite synchronize_file. reflexivity.
  - cbn [wf_opt] in HR. destruct (no_subdirectory (Some (Dir e))) eqn:Hflat.
    + destruct (flat_root_pass es_s e L t Hs HR Hflat)
        as [e' [H _]].
      rewrite H. reflexivity.
    + cbn [no_subdirectory] in Hflat.
      assert (Hex : exists c, In c e /\ is_dir (snd c) = true).
      { clear HR. induction e as [|c e IH]; [discriminate|].
        cbn [forallb] in Hflat. destruct (is_dir (snd c)) eqn:Ec.
        - exists c. split; [left; reflexivity | assumption].
        - cbn [negb andb] in Hflat. destruct (IH Hflat) as [c' [H1 H2]].
          exists c'. split; [right; assumption | assumption]. }
      destruct Hex as [[s [d m|c]] [Hin Hd]]; [discriminate|].
      pose proof HR as HR'. apply wf_Dir in HR'. destruct HR' as [Hf _].
      apply In_lookup in Hin; [|apply fresh_NoDup; assumption].
      destruct (synchronize_raises_on_subdirectory es_s e L t s c Hs HR Hin)
        as [e1 [L1 [H _]]].
      rewrite H. reflexivity.
  - rewrite synchronize_new by assumption. reflexivity.
Qed.

(** ** Further properties: the main loop *)

Local Abbreviation main_try :=
  (main_try md5_state hashlib_md5 md5_update md5_hexdigest).
Lemma kept_nil_iff es :
  prune_entries (mirror_dirs es) = [] <-> subdirectory_with_a_file es = false.
Proof.
  unfold subdirectory_with_a_file, mirror_dirs.
  induction es as [|[k n] es IH]; [split; reflexivity|].
  cbn [flat_map existsb fst snd]. rewrite prune_entries_app.
  destruct (is_dir n) eqn:Ed; cbn [andb app].
  - unfold prune_entries at 1. cbn [map filter fst snd]. unfold keeps at 1.
    cbn [snd]. pose proof (empty_prune (mirror n)) as He.
    rewrite fileless_mirror in He. unfold is_empty_dir in He.
    destruct (fileless n) eqn:Ef; cbn [negb orb].
    + destruct (prune (mirror n)) as [d m|[|x l]]; try discriminate.
      exact IH.
    + destruct (prune (mirror n)) as [d m|[|x l]]; try discriminate;
        split; discriminate.
  - exact IH.
Qed.

Lemma first_round es_s R L t :
  wf (Dir es_s) = true -> wf_opt R = true -> no_subdirectory R = true ->
  exists e1 L1,
    settled md5_of es_s e1
    /\ synchronize_folders (mk_world (Some (Dir es_s)) R L t None)
       = (Ok tt,
          mk_world (Some (Dir es_s))
            (Some (Dir (prune_entries (e1 ++ mirror_dirs es_s)))) L1 t None).
Proof.
  intros Hs HR Hflat.
  pose proof Hs as Hs'. apply wf_Dir in Hs'. destruct Hs' as [Hfs _].
  destruct R as [[d m|e]|]; [discriminate| |].
  - cbn [wf_opt] in HR.
    pose proof HR as He'. apply wf_Dir in He'. destruct He' as [Hfe _].
    destruct (dir_pass_exact [] ["."] es_s Hfs e L Hfe (flat_root _ Hflat))
      as [e1 [Hpass _]].
    exists e1. eexists. split.
    + exact (dir_pass_settled _ _ _ _ _ _ _ Hfs Hfe Hpass).
    + rewrite synchronize_dir, Hpass by assumption. reflexivity.
  - exists (file_entries es_s). eexists. split.
    + apply file_entries_settled. assumption.
    + apply synchronize_new. assumption.
Qed.

Lemma steady_pass es_s e1 L t :
  wf (Dir es_s) = true -> settled md5_of es_s e1 ->
  synchronize_folders
    (mk_world (Some (Dir es_s))
       (Some (Dir (prune_entries (e1 ++ mirror_dirs es_s)))) L t None)
  = (if subdirectory_with_a_file es_s then Raise IsADirectoryError
     else Ok tt,
     mk_world (Some (Dir es_s))
       (Some (Dir (prune_entries (e1 ++ mirror_dirs es_s))))
       (L ++ if subdirectory_with_a_file es_s then []
             else quiet_report es_s) t None).
Proof.
  intros Hs Hset.
  pose proof (settled_wf es_s e1 Hs Hset) as Hwf.
  pose proof (wf_prune _ Hwf) as Hwp. rewrite prune_Dir in Hwp.
  rewrite (synchronize_dir _ _ _ _ Hs Hwp).
  rewrite (settled_pruned es_s e1 Hs Hset).
  rewrite (dir_pass_again es_s e1 Hs Hset).
  destruct (subdirectory_with_a_file es_s) eqn:Esub.
  - destruct (prune_entries (mirror_dirs es_s)) as [|x kept] eqn:Ek.
    + apply kept_nil_iff in Ek. congruence.
    + rewrite app_nil_r. reflexivity.
  - apply kept_nil_iff in Esub. rewrite Esub, !app_nil_r.
    rewrite (settled_pruned es_s e1 Hs Hset), Esub, app_nil_r.
    unfold quiet_report.
    rewrite (sweep_log_skip_files [] e1)
      by (apply (settled_files es_s e1 Hs Hset)).
    rewrite <- app_assoc. reflexivity.
Qed.

Lemma main_try_eq st r w' :
  synchronize_folders (set_log [] (fst st)) = (r, w') ->
  main_try st
  = (w',
     snd st ++ Starting_synchronization :: map Pass_line (log w')
       ++ [match r with
           | Ok _ => Synchronization_completed
           | Raise e => Error_during_synchronization e
           end]).
Proof. intros H. unfold main_try. rewrite H. reflexivity. Qed.


Lemma pass_lines_close l : filter is_close (map Pass_line l) = [].
Proof. induction l as [|m l IH]; [reflexivity | exact IH]. Qed.


Section Loop.

Variable sleep_max : Z.

Local Abbreviation main_iteration :=
  (main_iteration md5_state hashlib_md5 md5_update md5_hexdigest sleep_max).
Local Abbreviation main_rounds :=
  (main_rounds md5_state hashlib_md5 md5_update md5_hexdigest sleep_max).

Lemma time_sleep_runs interval w :
  (0 <= interval <= sleep_max)%Z ->
  time_sleep sleep_max interval w
  = Some (mk_world (fs_source w) (fs_replica w) (log w) (now w + interval)%Z
            (io_fault w)).
Proof.
  intros [H0 H1]. unfold time_sleep.
  apply Z.leb_le in H0. apply Z.leb_le in H1. rewrite H0, H1. reflexivity.
Qed.



Lemma steady_rounds es_s e1 interval :
  wf (Dir es_s) = true -> settled md5_of es_s e1 ->
  (0 <= interval <= sleep_max)%Z ->
  forall n L t j,
    exists L',
      main_rounds n interval
        (mk_world (Some (Dir es_s))
           (Some (Dir (prune_entries (e1 ++ mirror_dirs es_s)))) L t None, j)
      = Running
          (mk_world (Some (Dir es_s))
             (Some (Dir (prune_entries (e1 ++ mirror_dirs es_s)))) L'
             (t + Z.of_nat n * interval)%Z None,
           j ++ List.concat (repeat (steady_lines es_s) n)).
Proof.
  intros Hs Hset Hi. induction n as [|n IH]; intros L t j.
  - exists L. cbn [main_rounds repeat List.concat]. rewrite app_nil_r.
    replace (t + Z.of_nat 0 * interval)%Z with t by lia. reflexivity.
  - cbn [main_rounds]. unfold main_iteration.
    rewrite (main_try_eq
               (mk_world (Some (Dir es_s))
                  (Some (Dir (prune_entries (e1 ++ mirror_dirs es_s)))) L t
                  None, j) _ _ (steady_pass es_s e1 [] t Hs Hset)).
    cbn [fst snd log]. rewrite (time_sleep_runs _ _ Hi).
    cbn [fs_source fs_replica log now io_fault].
    destruct (IH ([] ++ if subdirectory_with_a_file es_s then []
                        else quiet_report es_s) (t + interval)%Z
                (j ++ Starting_synchronization
                   :: map Pass_line
                        ([] ++ if subdirectory_with_a_file es_s then []
                               else quiet_report es_s)
                   ++ [if subdirectory_with_a_file es_s
                       then Error_during_synchronization IsADirectoryError
                       else Synchronization_completed]))
      as [L' HL'].
    exists L'.
    replace (match (if subdirectory_with_a_file es_s
                    then Raise IsADirectoryError else Ok tt) with
             | Ok _ => Synchronization_completed
             | Raise e => Error_during_synchronization e
             end)
      with (if subdirectory_with_a_file es_s
            then Error_during_synchronization IsADirectoryError
            else Synchronization_completed)
      by (destruct (subdirectory_with_a_file es_s); reflexivity).
    rewrite HL'. f_equal. f_equal.
    + f_equal. lia.
    + cbn [repeat List.concat]. rewrite <- app_assoc. f_equal.
      unfold steady_lines.
      destruct (subdirectory_with_a_file es_s); reflexivity.
Qed.

Lemma steady_lines_block es_s : steady_block es_s (steady_lines es_s).
Proof.
  unfold steady_block, steady_lines.
  destruct (subdirectory_with_a_file es_s); [reflexivity|].
  exists (quiet_report es_s). split; [apply Permutation_refl | reflexivity].
Qed.

(** X8.  Once a turn of the loop has completed, nothing more happens as long
    as the source stays as it is: from a replica that is missing or has no
    sub-directory in its root, and with an interval that [time.sleep] takes,
    the first turn completes, and every later turn leaves the replica as the
    first one left it and logs a block of lines that is always the same up
    to the order in which directories are listed: the starting line and
    IsADirectoryError when a sub-directory of the source root holds a file,
    and otherwise the starting line, the creation and the removal of the
    sub-directories of the source root, and the completion. *)
Theorem rounds_after_the_first es_s R L t j interval :
  wf (Dir es_s) = true -> wf_opt R = true -> no_subdirectory R = true ->
  (0 <= interval <= sleep_max)%Z ->
  exists R1 first,
    forall n,
      exists st blocks,
        main_rounds (S n) interval (mk_world (Some (Dir es_s)) R L t None, j)
        = Running st
        /\ fs_source (fst st) = Some (Dir es_s)
        /\ fs_replica (fst st) = Some R1
        /\ snd st
           = j ++ (Starting_synchronization :: first
                   ++ [Synchronization_completed])
               ++ List.concat blocks
        /\ List.length blocks = n
        /\ Forall (steady_block es_s) blocks.
Proof.
  intros Hs HR Hflat Hi.
  destruct (first_round es_s R [] t Hs HR Hflat) as [e1 [L1 [Hset Hrun]]].
  exists (Dir (prune_entries (e1 ++ mirror_dirs es_s))), (map Pass_line L1).
  intros n. cbn [main_rounds]. unfold main_iteration.
  rewrite (main_try_eq (mk_world (Some (Dir es_s)) R L t None, j) _ _ Hrun).
  cbn [fst snd log]. rewrite (time_sleep_runs _ _ Hi).
  cbn [fs_source fs_replica log now io_fault].
  destruct (steady_rounds es_s e1 interval Hs Hset Hi n L1 (t + interval)%Z
              (j ++ Starting_synchronization :: map Pass_line L1
                 ++ [Synchronization_completed])) as [L' HL'].
  eexists. exists (repeat (steady_lines es_s) n).
  split; [exact HL'|]. cbn [fst snd fs_source fs_replica].
  split; [reflexivity|]. split; [reflexivity|].
  split; [rewrite <- app_assoc; reflexivity|].
  split; [apply repeat_length|].
  apply Forall_forall. intros b Hb. apply repeat_spec in Hb. subst b.
  apply steady_lines_block.
Qed.

End Loop.

(** ** Further properties: a source that is no directory *)

(** X9.  When the source path names a regular file the call returns without
    copying it: the replica holds a regular file exactly where it did, with
    the same bytes and modification time, and every added log line is the
    removal of an empty directory. *)
Theorem source_that_is_a_file_is_not_copied d0 m0 R L t f :
  wf_opt R = true ->
  exists w',
    synchronize_folders (mk_world (Some (File d0 m0)) R L t f) = (Ok tt, w')
    /\ (exists new,
          log w' = L ++ new /\ Forall (fun m => is_removed_empty m = true) new)
    /\ forall p d m,
         entry_opt p (fs_replica w') = Some (File d m)
         <-> entry_opt p R = Some (File d m).
Proof.
  intros HR. unfold synchronize_folders, bind.
  rewrite downward_pass_nodir by discriminate.
  destruct R as [[d m|e]|].
  - eexists. split; [apply upward_pass_nodir; discriminate|].
    split; [exists []; rewrite app_nil_r; auto|]. reflexivity.
  - cbn [wf_opt] in HR. eexists.
    split; [apply upward_pass_dir; assumption|]. split.
    + eexists. split; [reflexivity | apply sweep_log_removed].
    + intros p d m. cbn [fs_replica entry_opt]. rewrite <- prune_Dir. split.
      * apply entry_prune_inv. assumption.
      * apply entry_prune_file. assumption.
  - eexists. split; [apply upward_pass_nodir; discriminate|].
    split; [exists []; rewrite app_nil_r; auto|]. reflexivity.
Qed.

(** ** Further properties: a loop that never gets past the replica root *)

Local Abbreviation all_wf :=
  (Forall (fun e : string * node => wf (snd e) = true)).

Lemma set_entry_wf s y es :
  (forall n, y = Some n -> wf n = true) -> all_wf es ->
  all_wf (set_entry s y es).
Proof.
  intros Hy Hes. unfold set_entry. destruct y as [n|].
  - specialize (Hy n eq_refl). destruct (lookup s es).
    + induction es as [|[k x] es IH]; [constructor|].
      inversion Hes; subst. cbn [replace_entry].
      destruct (String.eqb s k); constructor; auto.
    + apply Forall_app. split; [assumption|]. constructor; [exact Hy|].
      constructor.
  - unfold delete_entry. rewrite Forall_forall in *. intros x Hx.
    apply filter_In in Hx. apply Hes. tauto.
Qed.

Lemma copy_step_wf sr rr es_s a st r st' :
  wf (Dir es_s) = true ->
  copy_step sr rr es_s a st = (r, st') -> all_wf (fst st) -> all_wf (fst st').
Proof.
  intros Hs H Hst.
  assert (Hset : all_wf (set_entry a (lookup a es_s) (fst st))).
  { apply set_entry_wf; [|assumption]. intros n Hn.
    exact (wf_child _ _ _ Hs Hn). }
  unfold copy_step in H.
  destruct (lookup a (fst st)) as [[d' m'|c]|].
  - destruct (lookup a es_s) as [[d m|c']|].
    + destruct (String.eqb (md5_of d) (md5_of d')); injection H as <- <-;
        assumption.
    + injection H as <- <-. assumption.
    + injection H as <- <-. assumption.
  - injection H as <- <-. assumption.
  - injection H as <- <-. assumption.
Qed.

Lemma prune_step_wf rr files a st r st' :
  prune_step rr files a st = (r, st') -> all_wf (fst st) -> all_wf (fst st').
Proof.
  intros H Hst. unfold prune_step in H.
  destruct (contains a files); [injection H as <- <-; assumption|].
  destruct (lookup a (fst st)) as [[d m|c]|]; injection H as <- <-;
    try assumption.
  cbn [fst]. apply (set_entry_wf a None); [discriminate | assumption].
Qed.

Lemma dir_pass_wf sr rr es_s e L r e1 L1 :
  wf (Dir es_s) = true -> wf (Dir e) = true ->
  dir_pass sr rr es_s (e, L) = (r, (e1, L1)) -> wf (Dir e1) = true.
Proof.
  intros Hs He Hpass.
  pose proof Hs as Hs'. apply wf_Dir in Hs'. destruct Hs' as [Hfs _].
  apply wf_Dir in He. destruct He as [Hfe Hwe]. apply wf_Dir. split.
  - exact (dir_pass_fresh sr rr es_s Hfs _ _ _ Hpass Hfe).
  - unfold dir_pass in Hpass.
    destruct (run_steps (copy_step sr rr es_s) (nondir_names es_s) (e, L))
      as [[[]|ex] st1] eqn:E.
    + refine (run_steps_inv _ (fun s => all_wf (fst s)) _ _ _ _ _ Hpass _).
      * intros a st r0 st' H. exact (prune_step_wf _ _ _ _ _ _ H).
      * refine (run_steps_inv _ (fun s => all_wf (fst s)) _ _ _ _ _ E Hwe).
        intros a st r0 st' H. exact (copy_step_wf _ _ _ _ _ _ _ Hs H).
    + injection Hpass as _ Hst. subst st1.
      refine (run_steps_inv _ (fun s => all_wf (fst s)) _ _ _ _ _ E Hwe).
      intros a st r0 st' H. exact (copy_step_wf _ _ _ _ _ _ _ Hs H).
Qed.

Lemma raising_pass es_s e L t s c :
  wf (Dir es_s) = true -> wf (Dir e) = true ->
  lookup s e = Some (Dir c) ->
  exists e1 L1,
    synchronize_folders (mk_world (Some (Dir es_s)) (Some (Dir e)) L t None)
    = (Raise IsADirectoryError,
       mk_world (Some (Dir es_s)) (Some (Dir e1)) L1 t None)
    /\ wf (Dir e1) = true
    /\ lookup s e1 = Some (Dir c).
Proof.
  intros Hs He Hl. pose proof Hs as Hs'. apply wf_Dir in Hs'.
  destruct Hs' as [Hfs _]. pose proof He as He'. apply wf_Dir in He'.
  destruct He' as [Hfe _].
  destruct (dir_pass_raises [] ["."] es_s Hfs s c (e, L) Hfe Hl)
    as [[e1 L1] Hpass].
  exists e1, L1. rewrite (synchronize_dir _ _ _ _ Hs He), Hpass.
  split; [reflexivity|]. split.
  - exact (dir_pass_wf _ _ _ _ _ _ _ _ Hs He Hpass).
  - exact (dir_pass_dir [] ["."] es_s s c (e, L) _ (e1, L1) Hpass Hl).
Qed.

Section BlockedLoop.

Variable sleep_max : Z.

Local Abbreviation main_iteration :=
  (main_iteration md5_state hashlib_md5 md5_update md5_hexdigest sleep_max).
Local Abbreviation main_rounds :=
  (main_rounds md5_state hashlib_md5 md5_update md5_hexdigest sleep_max).

Lemma blocked_rounds es_s s c interval n :
  forall e L t j,
    wf (Dir es_s) = true -> wf (Dir e) = true ->
    lookup s e = Some (Dir c) -> (0 <= interval <= sleep_max)%Z ->
    exists e' L' new,
      main_rounds n interval
        (mk_world (Some (Dir es_s)) (Some (Dir e)) L t None, j)
      = Running
          (mk_world (Some (Dir es_s)) (Some (Dir e')) L'
             (t + Z.of_nat n * interval)%Z None, j ++ new)
      /\ wf (Dir e') = true
      /\ lookup s e' = Some (Dir c)
      /\ filter is_close new
         = repeat (Error_during_synchronization IsADirectoryError) n.
Proof.
  induction n as [|n IH]; intros e L t j Hs He Hl Hi.
  - exists e, L, []. cbn [main_rounds repeat filter]. rewrite app_nil_r.
    replace (t + Z.of_nat 0 * interval)%Z with t by lia. auto.
  - destruct (raising_pass es_s e [] t s c Hs He Hl)
      as [e1 [L1 [Hrun [He1 Hl1]]]].
    cbn [main_rounds]. unfold main_iteration.
    rewrite (main_try_eq
               (mk_world (Some (Dir es_s)) (Some (Dir e)) L t None, j)
               _ _ Hrun).
    cbn [fst snd log].
    rewrite (time_sleep_runs sleep_max interval _ Hi).
    cbn [fs_source fs_replica log now io_fault].
    destruct (IH e1 L1 (t + interval)%Z
                (j ++ Starting_synchronization :: map Pass_line L1
                   ++ [Error_during_synchronization IsADirectoryError])
                Hs He1 Hl1 Hi)
      as [e' [L' [new [Hr [Hw [Hl' Hc]]]]]].
    exists e', L',
      ((Starting_synchronization :: map Pass_line L1
          ++ [Error_during_synchronization IsADirectoryError]) ++ new).
    split; [|split; [assumption|split; [assumption|]]].
    + rewrite Hr. f_equal. f_equal.
      * f_equal. lia.
      * rewrite <- app_assoc. reflexivity.
    + rewrite filter_app. cbn [filter is_close app].
      rewrite filter_app, pass_lines_close, Hc. reflexivity.
Qed.

(** X10.  A sub-directory in the replica root stops every turn of the loop:
    whatever the source directory holds, and with an interval that
    [time.sleep] takes, each turn ends in IsADirectoryError, and the
    sub-directory is after any number of turns what it was at the start, so
    nothing below it is ever synchronised. *)
Theorem a_replica_sub_directory_blocks_every_turn es_s e s c L t j interval n :
  wf (Dir es_s) = true -> wf (Dir e) = true ->
  lookup s e = Some (Dir c) -> (0 <= interval <= sleep_max)%Z ->
  exists st e' new,
    main_rounds n interval
      (mk_world (Some (Dir es_s)) (Some (Dir e)) L t None, j)
    = Running st
    /\ fs_replica (fst st) = Some (Dir e')
    /\ lookup s e' = Some (Dir c)
    /\ snd st = j ++ new
    /\ filter is_close new
       = repeat (Error_during_synchronization IsADirectoryError) n.
Proof.
  intros Hs He Hl Hi.
  destruct (blocked_rounds es_s s c interval n e L t j Hs He Hl Hi)
    as [e' [L' [new [Hr [_ [Hl' Hc]]]]]].
  eexists. exists e', new. split; [exact Hr|].
  cbn [fst snd fs_replica]. auto.
Qed.

End BlockedLoop.

(** ** The second pass and the copy decision, over whole passes *)













End Properties.

(** ** The claims on concrete trees *)

(** C1, as stated, fails: the source holds the path [a], an empty directory;
    the call returns normally and the replica does not hold [a]. *)
Lemma convergence_counterexample :
  fst (run_pass (Some src_with_empty_dir) None) = Ok tt
  /\ entry ["a"] src_with_empty_dir = Some (Dir [])
  /\ entry_opt ["a"] (fs_replica (snd (run_pass (Some src_with_empty_dir) None)))
     = None.
Proof. vm_compute. repeat split; reflexivity. Qed.

Lemma convergence_witness :
  wf src_mixed = true
  /\ wf_opt (Some rep_stale) = true
  /\ fs_source (snd (run_pass (Some src_mixed) (Some rep_stale)))
     = Some src_mixed
  /\ exists e',
       fs_replica (snd (run_pass (Some src_mixed) (Some rep_stale)))
       = Some (Dir e')
       /\ forall p, p <> [] ->
            mirrored_at digest (entry p src_mixed) (entry p (Dir e')).
Proof.
  split; [reflexivity|]. split; [reflexivity|].
  apply (convergence_up_to_fileless_directories string EmptyString String.append
           (fun s => s) _ (Some rep_stale) [] 0%Z
           (snd (run_pass (Some src_mixed) (Some rep_stale))));
    vm_compute; reflexivity.
Defined.

(** C2, as stated, fails on its own scenario: the call raises and the replica
    still holds [dir/y.txt], [other/z.txt] and [other]. *)
Lemma subtree_removal_counterexample :
  fst (run_pass (Some src_scenario) (Some rep_scenario))
  = Raise IsADirectoryError
  /\ fs_replica (snd (run_pass (Some src_scenario) (Some rep_scenario)))
     = Some rep_scenario
  /\ entry ["other"; "z.txt"] rep_scenario = Some (File "3" 1%Z)
  /\ entry ["dir"; "y.txt"] rep_scenario = Some (File "2" 1%Z).
Proof. vm_compute. repeat split; reflexivity. Qed.

Lemma subtree_kept_witness :
  wf_opt (Some src_scenario) = true
  /\ wf_opt (Some rep_scenario) = true
  /\ (forall es, entry_opt ["other"] (Some src_scenario) <> Some (Dir es))
  /\ entry_opt (["other"] ++ ["z.txt"])
       (fs_replica (snd (run_pass (Some src_scenario) (Some rep_scenario))))
     = Some (File "3" 1%Z).
Proof.
  split; [reflexivity|]. split; [reflexivity|].
  split; [intros es; vm_compute; discriminate|].
  apply (replica_only_subtree_is_kept string EmptyString String.append (fun s => s)
           (Some src_scenario) (Some rep_scenario) [] 0%Z
           (fst (run_pass (Some src_scenario) (Some rep_scenario)))
           (snd (run_pass (Some src_scenario) (Some rep_scenario)))
           ["other"] ["z.txt"] "3" 1%Z);
    try (vm_compute; reflexivity).
  - intros es. vm_compute. discriminate.
  - discriminate.
Defined.



Lemma prune_loop_witness :
  wf src_scenario = true
  /\ wf rep_mirrored = true
  /\ lookup "dir" [("dir", Dir [("x.txt", File "1" 1%Z)])]
     = Some (Dir [("x.txt", File "1" 1%Z)])
  /\ exists w1 listing w2,
       for_each (nondir_names [("dir", Dir [("x.txt", File "1" 1%Z)])])
         (copy_file string EmptyString String.append (fun s => s) source
            (at_ Replica ["."]))
         (mk_world (Some src_scenario) (Some rep_mirrored) [] 0%Z None)
       = (Ok tt, w1)
       /\ os_listdir (at_ Replica ["."]) w1 = (Ok listing, w1)
       /\ In "dir" listing
       /\ for_each listing
            (prune_entry (at_ Replica ["."])
               (nondir_names [("dir", Dir [("x.txt", File "1" 1%Z)])])) w1
          = (Raise IsADirectoryError, w2)
       /\ run_pass (Some src_scenario) (Some rep_mirrored)
          = (Raise IsADirectoryError, w2).
Proof.
  split; [reflexivity|]. split; [reflexivity|]. split; [reflexivity|].
  apply (prune_loop_removes_a_directory string EmptyString String.append (fun s => s)
           [("dir", Dir [("x.txt", File "1" 1%Z)])]
           [("dir", Dir [("x.txt", File "1" 1%Z)])] [] 0%Z "dir"
           [("x.txt", File "1" 1%Z)]); try reflexivity.
  intros a c' Hin. simpl in Hin. contradiction.
Defined.

(** C5, as stated, fails: hashing the replica entry [a.txt], a directory,
    raises; the call raises, [b.txt] is never copied and nothing is logged. *)
Lemma error_localization_counterexample :
  fst (run_pass (Some src_two_files) (Some rep_clash))
  = Raise IsADirectoryError
  /\ entry ["b.txt"] src_two_files = Some (File "2" 1%Z)
  /\ entry_opt ["b.txt"]
       (fs_replica (snd (run_pass (Some src_two_files) (Some rep_clash))))
     = None
  /\ log (snd (run_pass (Some src_two_files) (Some rep_clash))) = [].
Proof. vm_compute. repeat split; reflexivity. Qed.

Lemma entry_error_witness :
  nondir_names [("a.txt", File "1" 1%Z); ("b.txt", File "2" 1%Z)]
  = [] ++ "a.txt" :: ["b.txt"]
  /\ copy_file string EmptyString String.append (fun s => s) source (at_ Replica ["."])
       "a.txt" (mk_world (Some src_two_files) (Some rep_clash) [] 0%Z None)
     = (Raise IsADirectoryError,
        mk_world (Some src_two_files) (Some rep_clash) [] 0%Z None)
  /\ run_pass (Some src_two_files) (Some rep_clash)
     = (Raise IsADirectoryError,
        mk_world (Some src_two_files) (Some rep_clash) [] 0%Z None).
Proof.
  split; [reflexivity|]. split; [reflexivity|].
  apply (entry_error_aborts_the_pass string EmptyString String.append (fun s => s)
           [("a.txt", File "1" 1%Z); ("b.txt", File "2" 1%Z)]
           [("a.txt", Dir [])] [] 0%Z None [] "a.txt" ["b.txt"]
           IsADirectoryError
           (mk_world (Some src_two_files) (Some rep_clash) [] 0%Z None));
    reflexivity.
Defined.

(** C6, as stated, fails: with no source the call returns normally, reports
    nothing and removes the empty directory [e] of the replica. *)
Lemma precondition_counterexample :
  run_pass None (Some (Dir [("e", Dir [])]))
  = (Ok tt,
     mk_world None (Some (Dir []))
       [Removed_empty_directory (at_ Replica ["e"])] 0%Z None).
Proof. vm_compute. reflexivity. Qed.

Lemma missing_source_witness :
  wf_opt (Some rep_nested_empty) = true
  /\ exists w',
       run_pass None (Some rep_nested_empty) = (Ok tt, w')
       /\ (forall p c, entry_opt p (Some rep_nested_empty) = Some c ->
             fileless c = false ->
             entry_opt p (fs_replica w') = Some (prune c))
       /\ (forall p c, p <> [] ->
             entry_opt p (Some rep_nested_empty) = Some c ->
             fileless c = true -> entry_opt p (fs_replica w') = None).
Proof.
  split; [reflexivity|].
  apply (missing_source_is_not_reported string EmptyString String.append (fun s => s)
           (Some rep_nested_empty) [] 0%Z None).
  reflexivity.
Defined.



Lemma upward_sweep_witness :
  wf rep_nested_empty = true
  /\ exists e',
       upward_pass
         (mk_world None (Some rep_nested_empty) [] 0%Z None)
       = (Ok tt,
          mk_world None (Some (Dir e'))
            ([] ++ sweep_log [] rep_nested_empty) 0%Z None)
       /\ (forall p c, p <> [] -> entry p rep_nested_empty = Some c ->
             fileless c = true -> entry p (Dir e') = None)
       /\ (forall p, p <> [] -> entry p (Dir e') <> Some (Dir []))
       /\ (forall p c, entry p rep_nested_empty = Some c ->
             fileless c = false -> entry p (Dir e') = Some (prune c))
       /\ ([("e", Dir [("g", Dir [])]); ("k", Dir [("x", File "1" 1%Z)])] = []
           -> e' = []).
Proof.
  split; [reflexivity|].
  apply (upward_sweep_removes_fileless_directories None
           [("e", Dir [("g", Dir [])]); ("k", Dir [("x", File "1" 1%Z)])]
           [] 0%Z None).
  reflexivity.
Defined.

(** C9, as stated, fails: the device accepts no byte, the copy raises, and the
    replica file is left empty instead of holding its previous content. *)
Lemma copy_atomicity_counterexample :
  run_on (mk_world (Some src_new_content) (Some rep_old_content) [] 9%Z (Some 0))
  = (Raise OSError,
     mk_world (Some src_new_content) (Some (Dir [("a.txt", File EmptyString 9%Z)])) []
       9%Z (Some 0))
  /\ entry ["a.txt"] rep_old_content = Some (File "old" 5%Z).
Proof. vm_compute. split; reflexivity. Qed.

Lemma failed_copy_witness :
  resolve ([] ++ ["a.txt"]) (Some src_new_content)
  = Ok (Some (File "new content" 1%Z))
  /\ resolve (["."] ++ ["a.txt"]) (Some rep_old_content)
     = Ok (Some (File "old" 5%Z))
  /\ 3 < String.length "new content"
  /\ shutil_copy2 (at_ Source ([] ++ ["a.txt"]))
       (at_ Replica (["."] ++ ["a.txt"]))
       (mk_world (Some src_new_content) (Some rep_old_content) [] 9%Z (Some 3))
     = (Raise OSError,
        mk_world (Some src_new_content)
          (put_at (["."] ++ ["a.txt"])
             (Some (File (substring 0 3 "new content") 9%Z))
             (Some rep_old_content)) [] 9%Z (Some 3)).
Proof.
  split; [reflexivity|]. split; [reflexivity|]. split; [simpl; lia|].
  apply (failed_copy_leaves_partial_file (Some src_new_content)
           (Some rep_old_content) [] 9%Z [] ["."] "a.txt" "new content" 1%Z
           (Some (File "old" 5%Z)) 3); try reflexivity.
  - intros c. discriminate.
  - simpl. lia.
Defined.

Lemma missing_source_sweep_witness :
  wf_opt (Some rep_nested_empty) = true
  /\ exists w',
       run_pass None (Some rep_nested_empty) = (Ok tt, w')
       /\ fs_source w' = None
       /\ (exists new,
             log w' = [] ++ new
             /\ Forall (fun m => is_removed_empty m = true) new)
       /\ (forall p d m,
             entry_opt p (Some rep_nested_empty) = Some (File d m) ->
             entry_opt p (fs_replica w') = Some (File d m))
       /\ (forall p, p <> [] ->
             entry_opt p (Some rep_nested_empty) = Some (Dir []) ->
             entry_opt p (fs_replica w') = None).
Proof.
  split; [reflexivity|].
  apply (missing_source_only_sweeps string EmptyString String.append (fun s => s)
           (Some rep_nested_empty) [] 0%Z None).
  reflexivity.
Defined.

(** ** The further properties on concrete trees *)

Lemma append_assoc (h a b : string) :
  String.append (String.append h a) b = String.append h (String.append a b).
Proof. induction h as [|c h IH]; simpl; [|rewrite IH]; reflexivity. Qed.

Lemma digest_of_the_file_witness :
  stat (at_ Source ["a.txt"]) (mk_world (Some src_mixed) None [] 0%Z None)
  = Ok (Some (File "hello" 1%Z))
  /\ calculate_md5 string EmptyString String.append (fun s => s)
       (at_ Source ["a.txt"]) (mk_world (Some src_mixed) None [] 0%Z None)
     = (Ok "hello", mk_world (Some src_mixed) None [] 0%Z None).
Proof.
  split; [reflexivity|].
  apply (calculate_md5_is_the_digest_of_the_file string EmptyString
           String.append (fun s => s) append_assoc
           (at_ Source ["a.txt"]) (mk_world (Some src_mixed) None [] 0%Z None)
           "hello" 1%Z).
  reflexivity.
Defined.

Lemma outcome_witness :
  wf src_mixed = true
  /\ wf_opt (Some rep_scenario) = true
  /\ fst (run_pass (Some src_mixed) (Some rep_scenario))
     = Raise IsADirectoryError.
Proof.
  split; [reflexivity|]. split; [reflexivity|].
  exact (outcome_is_decided_by_the_replica_root string EmptyString
           String.append (fun s => s) (entries_of src_mixed)
           (Some rep_scenario) [] 0%Z eq_refl eq_refl).
Defined.


Lemma first_pass_witness :
  wf src_mixed = true
  /\ exists R' L',
       run_pass (Some src_mixed) None
       = (Ok tt, mk_world (Some src_mixed) (Some R') L' 0%Z None)
       /\ forall p d m,
            entry p R' = Some (File d m)
            <-> entry p src_mixed = Some (File d m).
Proof.
  split; [reflexivity|].
  exact (first_pass_into_a_missing_replica string EmptyString String.append
           (fun s => s) (entries_of src_mixed) [] 0%Z eq_refl).
Defined.


Lemma rounds_after_the_first_witness :
  wf src_mixed = true
  /\ wf_opt (Some rep_stale) = true
  /\ no_subdirectory (Some rep_stale) = true
  /\ (0 <= 60 <= a_day)%Z
  /\ exists R1 first,
       forall n,
         exists st blocks,
           run_main (S n) 60%Z
             (mk_world (Some src_mixed) (Some rep_stale) [] 0%Z None, [])
           = Running st
           /\ fs_source (fst st) = Some src_mixed
           /\ fs_replica (fst st) = Some R1
           /\ snd st
              = [] ++ (Starting_synchronization :: first
                       ++ [Synchronization_completed])
                  ++ List.concat blocks
           /\ List.length blocks = n
           /\ Forall (steady_block (entries_of src_mixed)) blocks.
Proof.
  split; [reflexivity|]. split; [reflexivity|]. split; [reflexivity|].
  split; [unfold a_day; lia|].
  apply (rounds_after_the_first string EmptyString String.append (fun s => s)
           a_day (entries_of src_mixed) (Some rep_stale) [] 0%Z [] 60%Z);
    try reflexivity.
  unfold a_day. lia.
Defined.

Lemma source_file_witness :
  wf_opt (Some rep_nested_empty) = true
  /\ exists w',
       run_pass (Some (File "1" 1%Z)) (Some rep_nested_empty) = (Ok tt, w')
       /\ (exists new,
             log w' = [] ++ new
             /\ Forall (fun m => is_removed_empty m = true) new)
       /\ forall p d m,
            entry_opt p (fs_replica w') = Some (File d m)
            <-> entry_opt p (Some rep_nested_empty) = Some (File d m).
Proof.
  split; [reflexivity|].
  exact (source_that_is_a_file_is_not_copied string EmptyString String.append
           (fun s => s) "1" 1%Z (Some rep_nested_empty) [] 0%Z None eq_refl).
Defined.

Lemma blocked_loop_witness :
  wf src_scenario = true
  /\ wf rep_scenario = true
  /\ lookup "other" (entries_of rep_scenario)
     = Some (Dir [("z.txt", File "3" 1%Z)])
  /\ (0 <= 60 <= a_day)%Z
  /\ exists st e' new,
       run_main 3 60%Z
         (mk_world (Some src_scenario) (Some rep_scenario) [] 0%Z None, [])
       = Running st
       /\ fs_replica (fst st) = Some (Dir e')
       /\ lookup "other" e' = Some (Dir [("z.txt", File "3" 1%Z)])
       /\ snd st = [] ++ new
       /\ filter is_close new
          = repeat (Error_during_synchronization IsADirectoryError) 3.
Proof.
  split; [reflexivity|]. split; [reflexivity|]. split; [reflexivity|].
  split; [unfold a_day; lia|].
  apply (a_replica_sub_directory_blocks_every_turn string EmptyString
           String.append (fun s => s) a_day (entries_of src_scenario)
           (entries_of rep_scenario) "other" [("z.txt", File "3" 1%Z)] []
           0%Z [] 60%Z 3);
    try reflexivity.
  unfold a_day. lia.
Defined.
